(** * Acceleration-model assembly of Tudat (simulation_setup)

    A shallow embedding of [createAccelerationModels.cpp]: the frame
    classifier, the direct builders (central gravity, spherical harmonics,
    aerodynamic, cannonball radiation pressure), the third-body composer,
    the dispatcher [createAccelerationModel] and the assembler
    [createAccelerationModelsMap].  The later revision of the same file
    (with the frame consistency check and [orderSelectedAccelerationMap])
    is embedded in [Module Revised].

    Conventions.
    - [double] is IEEE binary64: Rocq's primitive [float].
    - [boost::shared_ptr<Body>] is an optional address into a heap of
      [Body] objects; [None] is the null pointer.  Dereferencing a null
      pointer is undefined behaviour in C++ and is modelled by the
      exception [invalid_dereference].
    - [boost::function<double()>] is a function [unit -> double].
    - a C++ function is a state transformer over [World] that either
      returns a value or throws; the world at the throw is kept, because
      the bodies are shared objects mutated in place.
    - a [std::map] that the code iterates over is the list of its entries
      in iteration order (ascending keys); a [std::map] that is only
      looked up or built is a [gmap]. *)

From Stdlib Require Import PrimFloat String List Bool DecimalString.
From stdpp Require Import base option gmap strings list.
Import ListNotations.

Local Open Scope string_scope.

(** ** Environment data (body.h and the capability classes) *)

Definition double := float.

(** [gravitation::GravityFieldModel] and its subclass
    [SphericalHarmonicsGravityField]; [dynamic_pointer_cast] to the
    subclass succeeds on the second constructor only. *)
Record SphericalHarmonicsGravityField := {
  sh_gravitationalParameter : double;
  sh_referenceRadius : double;
  sh_fixedReferenceFrame : string
}.

Inductive GravityFieldModel :=
| PointMassGravityField (gravitationalParameter : double)
| SphericalHarmonicsField (field : SphericalHarmonicsGravityField).

Definition getGravitationalParameter (g : GravityFieldModel) : double :=
  match g with
  | PointMassGravityField mu => mu
  | SphericalHarmonicsField f => sh_gravitationalParameter f
  end.

Definition asSphericalHarmonicsGravityField (g : option GravityFieldModel)
  : option SphericalHarmonicsGravityField :=
  match g with
  | Some (SphericalHarmonicsField f) => Some f
  | _ => None
  end.

Record AerodynamicCoefficientInterface := {
  areCoefficientsInAerodynamicFrame : bool;
  areCoefficientsInNegativeAxisDirection : bool
}.

Record RotationalEphemeris := { targetFrameOrientation : string }.

(** Objects this layer only passes on are known by their address. *)
Definition AtmosphereModel := positive.
Definition ShapeModel := positive.
Definition RadiationPressureInterface := positive.
Definition FlightConditions := nat.

Record Body := {
  gravityFieldModel : option GravityFieldModel;
  atmosphereModel : option AtmosphereModel;
  shapeModel : option ShapeModel;
  aerodynamicCoefficientInterface : option AerodynamicCoefficientInterface;
  radiationPressureInterfaces : gmap string RadiationPressureInterface;
  flightConditions : option FlightConditions;
  rotationalEphemeris : option RotationalEphemeris
}.

(** [Body::setFlightConditions] *)
Definition setFlightConditions (fc : FlightConditions) (b : Body) : Body :=
  {| gravityFieldModel := gravityFieldModel b;
     atmosphereModel := atmosphereModel b;
     shapeModel := shapeModel b;
     aerodynamicCoefficientInterface := aerodynamicCoefficientInterface b;
     radiationPressureInterfaces := radiationPressureInterfaces b;
     flightConditions := Some fc;
     rotationalEphemeris := rotationalEphemeris b |}.

Abbreviation BodyPtr := (option positive).

(** ** Settings (accelerationModelTypes.h / accelerationSettings.h) *)

(** The enumerators that the two revisions of the dispatcher switch on. *)
Inductive AvailableAcceleration :=
| central_gravity
| aerodynamic
| cannon_ball_radiation_pressure
| spherical_harmonic_gravity
| mutual_spherical_harmonic_gravity
| thrust_acceleration.

Definition AvailableAcceleration_eqb (a b : AvailableAcceleration) : bool :=
  match a, b with
  | central_gravity, central_gravity
  | aerodynamic, aerodynamic
  | cannon_ball_radiation_pressure, cannon_ball_radiation_pressure
  | spherical_harmonic_gravity, spherical_harmonic_gravity
  | mutual_spherical_harmonic_gravity, mutual_spherical_harmonic_gravity
  | thrust_acceleration, thrust_acceleration => true
  | _, _ => false
  end.

(** [AccelerationSettings] is a base class carrying the tag;
    [SphericalHarmonicAccelerationSettings] derives from it, fixes the tag
    to [spherical_harmonic_gravity] and adds degree and order.  A base
    object may carry any tag, also [spherical_harmonic_gravity]. *)
Inductive AccelerationSettings :=
| BaseAccelerationSettings (type : AvailableAcceleration)
| SphericalHarmonicAccelerationSettings (maximumDegree maximumOrder : nat).

Definition accelerationType_ (s : AccelerationSettings) : AvailableAcceleration :=
  match s with
  | BaseAccelerationSettings t => t
  | SphericalHarmonicAccelerationSettings _ _ => spherical_harmonic_gravity
  end.

(** [dynamic_pointer_cast< SphericalHarmonicAccelerationSettings >] *)
Definition asSphericalHarmonicAccelerationSettings (s : AccelerationSettings)
  : option (nat * nat) :=
  match s with
  | SphericalHarmonicAccelerationSettings d o => Some (d, o)
  | BaseAccelerationSettings _ => None
  end.

(** ** Exceptions

    The source throws [std::runtime_error] with a message at every check;
    [std::map::at] throws [std::out_of_range].  The category attached to a
    [runtime_error] is the one the error taxonomy of the specification
    gives to the throw site; the message is the text the source builds. *)
Inductive ErrorKind :=
| ConfigurationError
| MissingCapabilityError
| LookupError
| FrameMismatchError.

Inductive Exception :=
| runtime_error (kind : ErrorKind) (what : string)
| out_of_range
| invalid_dereference.

Definition kindOf (e : Exception) : option ErrorKind :=
  match e with
  | runtime_error k _ => Some k
  | _ => None
  end.

(** ** Acceleration models (the objects the builders construct) *)

Record CentralGravitationalAccelerationModel3d := {
  cg_positionOfBodySubjectToAcceleration : BodyPtr;
  cg_gravitationalParameterFunction : unit -> double;
  cg_positionOfBodyExertingAcceleration : BodyPtr
}.

Record SphericalHarmonicsGravitationalAccelerationModelXd := {
  shm_positionOfBodySubjectToAcceleration : BodyPtr;
  shm_gravitationalParameterFunction : unit -> double;
  shm_equatorialRadius : double;
  shm_gravityField : SphericalHarmonicsGravityField;
  shm_maximumDegree : nat;
  shm_maximumOrder : nat;
  shm_positionOfBodyExertingAcceleration : BodyPtr
}.

Record ThirdBodyCentralGravityAcceleration := {
  accelerationModelForBodyUndergoingAcceleration : CentralGravitationalAccelerationModel3d;
  accelerationModelForCentralBody : CentralGravitationalAccelerationModel3d
}.

Record AerodynamicAcceleration := {
  aero_coefficientInterface : AerodynamicCoefficientInterface;
  aero_densityFrom : FlightConditions;
  aero_airSpeedFrom : FlightConditions;
  aero_massOf : BodyPtr;
  aero_referenceAreaFrom : AerodynamicCoefficientInterface;
  aero_coefficientsAreNegative : bool
}.

Record CannonBallRadiationPressureAcceleration := {
  rp_sourcePosition : BodyPtr;
  rp_acceleratedBodyPosition : BodyPtr;
  rp_interface : RadiationPressureInterface;
  rp_massOf : BodyPtr
}.

Inductive AccelerationModel :=
| CentralGravityModel (m : CentralGravitationalAccelerationModel3d)
| SphericalHarmonicsModel (m : SphericalHarmonicsGravitationalAccelerationModelXd)
| ThirdBodyCentralGravityModel (m : ThirdBodyCentralGravityAcceleration)
| AerodynamicModel (m : AerodynamicAcceleration)
| CannonBallRadiationPressureModel (m : CannonBallRadiationPressureAcceleration).

(** ** The world and the computation monad *)

(** [bodies] is the heap of [Body] objects.  [flightConditionsCreated]
    counts the flight-conditions objects allocated so far (the next one
    gets the next number).  [modelsConstructed] is ghost state: the number
    of acceleration-model objects [make_shared] has constructed. *)
Record World := {
  bodies : gmap positive Body;
  flightConditionsCreated : nat;
  modelsConstructed : nat
}.

Inductive Outcome (A : Type) :=
| Returned (a : A) (w : World)
| Thrown (e : Exception) (w : World).
Arguments Returned {A} a w.
Arguments Thrown {A} e w.

Definition Cpp (A : Type) : Type := World -> Outcome A.

Definition ret {A} (a : A) : Cpp A := fun w => Returned a w.

Definition bind {A B} (c : Cpp A) (k : A -> Cpp B) : Cpp B :=
  fun w => match c w with
           | Returned a w' => k a w'
           | Thrown e w' => Thrown e w'
           end.

Definition throw {A} (e : Exception) : Cpp A := fun w => Thrown e w.

Notation "'let*' x ':=' c 'in' k" := (bind c (fun x => k))
  (at level 10, x binder, c at level 200, k at level 200).

Definition worldOf {A} (o : Outcome A) : World :=
  match o with Returned _ w => w | Thrown _ w => w end.

Definition hasReturned {A} (o : Outcome A) : bool :=
  match o with Returned _ _ => true | Thrown _ _ => false end.

Definition thrownKind {A} (o : Outcome A) : option ErrorKind :=
  match o with Returned _ _ => None | Thrown e _ => kindOf e end.

(** The object a [shared_ptr<Body>] points to, if any. *)
Definition pointee (w : World) (p : BodyPtr) : option Body :=
  match p with
  | Some a => bodies w !! a
  | None => None
  end.

(** [*p] for a [shared_ptr<Body>] *)
Definition deref (p : BodyPtr) : Cpp Body :=
  fun w => match pointee w p with
           | Some b => Returned b w
           | None => Thrown invalid_dereference w
           end.

(** in-place update of the object behind a pointer *)
Definition update (p : BodyPtr) (f : Body -> Body) : Cpp unit :=
  fun w => match p with
           | Some a => match bodies w !! a with
                       | Some b =>
                           Returned tt {| bodies := <[a := f b]> (bodies w);
                                          flightConditionsCreated := flightConditionsCreated w;
                                          modelsConstructed := modelsConstructed w |}
                       | None => Thrown invalid_dereference w
                       end
           | None => Thrown invalid_dereference w
           end.

(** [boost::make_shared] of an acceleration-model class *)
Definition recordConstruction (w : World) : World :=
  {| bodies := bodies w;
     flightConditionsCreated := flightConditionsCreated w;
     modelsConstructed := S (modelsConstructed w) |}.

Definition make_shared {A} (a : A) : Cpp A :=
  fun w => Returned a (recordConstruction w).

(** What the translation unit leaves to the compiler and to other files. *)
Inductive ArgumentEvaluationOrder := LeftToRight | RightToLeft.

(** - [argumentOrder]: the order in which the two arguments of a call are
      evaluated (unspecified in C++).
    - [lexical_cast]: the decimal text of an enumerator's value
      (accelerationModelTypes.h numbers them).
    - [flightConditionsFactoryCheck]: [createFlightConditions]
      (createFlightConditions.h) either throws or returns a newly
      allocated object; it reads the bodies and changes none. *)
Record Platform := {
  argumentOrder : ArgumentEvaluationOrder;
  lexical_cast : AvailableAcceleration -> string;
  flightConditionsFactoryCheck :
    World -> BodyPtr -> BodyPtr -> string -> string -> option Exception
}.

(** ** Frame classifier *)

(** [isFrameInertial] *)
Definition isFrameInertial (frame : string) : bool :=
  String.eqb frame "SSB" || String.eqb frame "" || String.eqb frame "Inertial".

(** [evaluateDoubleFunctions] *)
Definition evaluateDoubleFunctions (function1 function2 : unit -> double) : double :=
  PrimFloat.add (function1 tt) (function2 tt).

(** ** The builders of createAccelerationModels.cpp *)

Section Builders.

Variable platform : Platform.

(** [createFlightConditions] (external factory): throws, or allocates the
    next flight-conditions object. *)
Definition createFlightConditions
    (bodyUndergoingAcceleration bodyExertingAcceleration : BodyPtr)
    (nameOfBodyUndergoingAcceleration nameOfBodyExertingAcceleration : string)
  : Cpp FlightConditions :=
  fun w =>
    match flightConditionsFactoryCheck platform w
            bodyUndergoingAcceleration bodyExertingAcceleration
            nameOfBodyUndergoingAcceleration nameOfBodyExertingAcceleration with
    | Some e => Thrown e w
    | None =>
        Returned (S (flightConditionsCreated w))
                 {| bodies := bodies w;
                    flightConditionsCreated := S (flightConditionsCreated w);
                    modelsConstructed := modelsConstructed w |}
    end.

(** The choice of [gravitationalParameterFunction] shared by the two
    gravity builders: [exertingParameter] is the bound getter of the
    exerting body's field.  The undergoing body is dereferenced only when
    the flag is set (short-circuit [||]). *)
Definition selectGravitationalParameterFunction
    (useCentralBodyFixedFrame : bool)
    (bodyUndergoingAcceleration : BodyPtr)
    (exertingParameter : unit -> double) : Cpp (unit -> double) :=
  if negb useCentralBodyFixedFrame then ret exertingParameter
  else
    let* undergoing := deref bodyUndergoingAcceleration in
    match gravityFieldModel undergoing with
    | None => ret exertingParameter
    | Some undergoingField =>
        let gravitationalParameterOfBodyExertingAcceleration := exertingParameter in
        let gravitationalParameterOfBodyUndergoingAcceleration :=
          fun _ : unit => getGravitationalParameter undergoingField in
        ret (fun _ : unit =>
               evaluateDoubleFunctions
                 gravitationalParameterOfBodyExertingAcceleration
                 gravitationalParameterOfBodyUndergoingAcceleration)
    end.

(** [createCentralGravityAcceleratioModel] *)
Definition createCentralGravityAcceleratioModel
    (bodyUndergoingAcceleration bodyExertingAcceleration : BodyPtr)
    (nameOfBodyUndergoingAcceleration nameOfBodyExertingAcceleration : string)
    (useCentralBodyFixedFrame : bool)
  : Cpp CentralGravitationalAccelerationModel3d :=
  let* exerting := deref bodyExertingAcceleration in
  match gravityFieldModel exerting with
  | None =>
      throw (runtime_error MissingCapabilityError
               ("Error, gravity field model not set when making central " +:+
                " gravitational acceleration of " +:+ nameOfBodyExertingAcceleration +:+
                " on " +:+ nameOfBodyUndergoingAcceleration))
  | Some exertingField =>
      let* gravitationalParameterFunction :=
        selectGravitationalParameterFunction useCentralBodyFixedFrame
          bodyUndergoingAcceleration
          (fun _ : unit => getGravitationalParameter exertingField) in
      make_shared
        {| cg_positionOfBodySubjectToAcceleration := bodyUndergoingAcceleration;
           cg_gravitationalParameterFunction := gravitationalParameterFunction;
           cg_positionOfBodyExertingAcceleration := bodyExertingAcceleration |}
  end.

(** [createSphericalHarmonicsGravityAcceleration] *)
Definition createSphericalHarmonicsGravityAcceleration
    (bodyUndergoingAcceleration bodyExertingAcceleration : BodyPtr)
    (nameOfBodyUndergoingAcceleration nameOfBodyExertingAcceleration : string)
    (accelerationSettings : AccelerationSettings)
    (useCentralBodyFixedFrame : bool)
  : Cpp SphericalHarmonicsGravitationalAccelerationModelXd :=
  match asSphericalHarmonicAccelerationSettings accelerationSettings with
  | None =>
      throw (runtime_error ConfigurationError
               ("Error, acceleration settings inconsistent " +:+
                " making sh gravitational acceleration of " +:+
                nameOfBodyExertingAcceleration +:+
                " on " +:+ nameOfBodyUndergoingAcceleration))
  | Some (maximumDegree_, maximumOrder_) =>
      let* exerting := deref bodyExertingAcceleration in
      match asSphericalHarmonicsGravityField (gravityFieldModel exerting) with
      | None =>
          throw (runtime_error MissingCapabilityError
                   ("Error, spherical harmonic gravity field model not set when " +:+
                    " making sh gravitational acceleration of " +:+
                    nameOfBodyExertingAcceleration +:+
                    " on " +:+ nameOfBodyUndergoingAcceleration))
      | Some sphericalHarmonicsGravityField =>
          let* gravitationalParameterFunction :=
            selectGravitationalParameterFunction useCentralBodyFixedFrame
              bodyUndergoingAcceleration
              (fun _ : unit => sh_gravitationalParameter sphericalHarmonicsGravityField) in
          make_shared
            {| shm_positionOfBodySubjectToAcceleration := bodyUndergoingAcceleration;
               shm_gravitationalParameterFunction := gravitationalParameterFunction;
               shm_equatorialRadius := sh_referenceRadius sphericalHarmonicsGravityField;
               shm_gravityField := sphericalHarmonicsGravityField;
               shm_maximumDegree := maximumDegree_;
               shm_maximumOrder := maximumOrder_;
               shm_positionOfBodyExertingAcceleration := bodyExertingAcceleration |}
      end
  end.

(** [createThirdBodyCentralGravityAccelerationModel]: the two legs are the
    arguments of one constructor call. *)
Definition createThirdBodyCentralGravityAccelerationModel
    (bodyUndergoingAcceleration bodyExertingAcceleration centralBody : BodyPtr)
    (nameOfBodyUndergoingAcceleration nameOfBodyExertingAcceleration
       nameOfCentralBody : string)
  : Cpp ThirdBodyCentralGravityAcceleration :=
  let undergoingLeg :=
    createCentralGravityAcceleratioModel
      bodyUndergoingAcceleration bodyExertingAcceleration
      nameOfBodyUndergoingAcceleration nameOfBodyExertingAcceleration false in
  let centralLeg :=
    createCentralGravityAcceleratioModel
      centralBody bodyExertingAcceleration
      nameOfCentralBody nameOfBodyExertingAcceleration false in
  match argumentOrder platform with
  | LeftToRight =>
      let* first := undergoingLeg in
      let* second := centralLeg in
      make_shared {| accelerationModelForBodyUndergoingAcceleration := first;
                     accelerationModelForCentralBody := second |}
  | RightToLeft =>
      let* second := centralLeg in
      let* first := undergoingLeg in
      make_shared {| accelerationModelForBodyUndergoingAcceleration := first;
                     accelerationModelForCentralBody := second |}
  end.

(** [createAerodynamicAcceleratioModel].  The transformation function the
    source computes from the flight conditions is not passed to the
    constructor in this revision and is left out. *)
Definition createAerodynamicAcceleratioModel
    (bodyUndergoingAcceleration bodyExertingAcceleration : BodyPtr)
    (nameOfBodyUndergoingAcceleration nameOfBodyExertingAcceleration : string)
  : Cpp AerodynamicAcceleration :=
  let* undergoing := deref bodyUndergoingAcceleration in
  match aerodynamicCoefficientInterface undergoing with
  | None =>
      throw (runtime_error MissingCapabilityError
               ("Error when making aerodynamic acceleration, body " +:+
                nameOfBodyUndergoingAcceleration +:+
                "has no aerodynamic coefficients."))
  | Some _ =>
      let* exerting := deref bodyExertingAcceleration in
      match atmosphereModel exerting with
      | None =>
          throw (runtime_error MissingCapabilityError
                   ("Error when making aerodynamic acceleration, central body " +:+
                    nameOfBodyExertingAcceleration +:+ " has no atmosphere model."))
      | Some _ =>
          match shapeModel exerting with
          | None =>
              throw (runtime_error MissingCapabilityError
                       ("Error when making aerodynamic acceleration, central body " +:+
                        nameOfBodyExertingAcceleration +:+ " has no shape model."))
          | Some _ =>
              let* bodyFlightConditions :=
                match flightConditions undergoing with
                | Some fc => ret fc
                | None =>
                    let* created :=
                      createFlightConditions
                        bodyUndergoingAcceleration bodyExertingAcceleration
                        nameOfBodyUndergoingAcceleration
                        nameOfBodyExertingAcceleration in
                    let* _ := update bodyUndergoingAcceleration
                                (setFlightConditions created) in
                    let* undergoing' := deref bodyUndergoingAcceleration in
                    match flightConditions undergoing' with
                    | Some fc => ret fc
                    | None => throw invalid_dereference
                    end
                end in
              let* undergoing'' := deref bodyUndergoingAcceleration in
              match aerodynamicCoefficientInterface undergoing'' with
              | None => throw invalid_dereference
              | Some aerodynamicCoefficients =>
                  make_shared
                    {| aero_coefficientInterface := aerodynamicCoefficients;
                       aero_densityFrom := bodyFlightConditions;
                       aero_airSpeedFrom := bodyFlightConditions;
                       aero_massOf := bodyUndergoingAcceleration;
                       aero_referenceAreaFrom := aerodynamicCoefficients;
                       aero_coefficientsAreNegative :=
                         areCoefficientsInNegativeAxisDirection aerodynamicCoefficients |}
              end
          end
      end
  end.

(** [createCannonballRadiationPressureAcceleratioModel] *)
Definition createCannonballRadiationPressureAcceleratioModel
    (bodyUndergoingAcceleration bodyExertingAcceleration : BodyPtr)
    (nameOfBodyUndergoingAcceleration nameOfBodyExertingAcceleration : string)
  : Cpp CannonBallRadiationPressureAcceleration :=
  let* undergoing := deref bodyUndergoingAcceleration in
  match radiationPressureInterfaces undergoing !! nameOfBodyExertingAcceleration with
  | None =>
      throw (runtime_error MissingCapabilityError
               ("Error when making radiation pressure, no radiation pressure interface found  in " +:+
                nameOfBodyUndergoingAcceleration +:+
                " for body " +:+ nameOfBodyExertingAcceleration))
  | Some radiationPressureInterface =>
      make_shared
        {| rp_sourcePosition := bodyExertingAcceleration;
           rp_acceleratedBodyPosition := bodyUndergoingAcceleration;
           rp_interface := radiationPressureInterface;
           rp_massOf := bodyUndergoingAcceleration |}
  end.

(** The [default:] label of the dispatcher's switch. *)
Definition notRecognized {A}
    (accelerationSettings : AccelerationSettings)
    (nameOfBodyUndergoingAcceleration nameOfBodyExertingAcceleration : string)
  : Cpp A :=
  throw (runtime_error ConfigurationError
           ("Error, acceleration model " +:+
            lexical_cast platform (accelerationType_ accelerationSettings) +:+
            " not recognized when making acceleration model of" +:+
            nameOfBodyExertingAcceleration +:+ " on " +:+
            nameOfBodyUndergoingAcceleration)).

(** [createAccelerationModel].  The [cannon_ball_radiation_pressure] case
    has no [break]: after the builder has returned, control falls through
    into [default:].  The throw for a third-body spherical-harmonic
    request ("cannot yet make") is classed as a configuration error: the
    combination is not supported. *)
Definition createAccelerationModel
    (bodyUndergoingAcceleration bodyExertingAcceleration : BodyPtr)
    (accelerationSettings : AccelerationSettings)
    (nameOfBodyUndergoingAcceleration nameOfBodyExertingAcceleration : string)
    (centralBody : BodyPtr)
    (nameOfCentralBody : string)
  : Cpp AccelerationModel :=
  match accelerationType_ accelerationSettings with
  | central_gravity =>
      if String.eqb nameOfCentralBody nameOfBodyExertingAcceleration
         || isFrameInertial nameOfCentralBody
      then
        let useCentralBodyFixedFrame :=
          if String.eqb nameOfCentralBody nameOfBodyExertingAcceleration
          then true else false in
        let* m := createCentralGravityAcceleratioModel
                    bodyUndergoingAcceleration bodyExertingAcceleration
                    nameOfBodyUndergoingAcceleration nameOfBodyExertingAcceleration
                    useCentralBodyFixedFrame in
        ret (CentralGravityModel m)
      else
        let* m := createThirdBodyCentralGravityAccelerationModel
                    bodyUndergoingAcceleration bodyExertingAcceleration centralBody
                    nameOfBodyUndergoingAcceleration nameOfBodyExertingAcceleration
                    nameOfCentralBody in
        ret (ThirdBodyCentralGravityModel m)
  | spherical_harmonic_gravity =>
      if String.eqb nameOfCentralBody nameOfBodyExertingAcceleration
         || isFrameInertial nameOfCentralBody
      then
        let useCentralBodyFixedFrame :=
          if String.eqb nameOfCentralBody nameOfBodyExertingAcceleration
          then true else false in
        let* m := createSphericalHarmonicsGravityAcceleration
                    bodyUndergoingAcceleration bodyExertingAcceleration
                    nameOfBodyUndergoingAcceleration nameOfBodyExertingAcceleration
                    accelerationSettings useCentralBodyFixedFrame in
        ret (SphericalHarmonicsModel m)
      else
        throw (runtime_error ConfigurationError
                 "Error, cannot yet make third body spherical harmonic acceleration.")
  | aerodynamic =>
      let* m := createAerodynamicAcceleratioModel
                  bodyUndergoingAcceleration bodyExertingAcceleration
                  nameOfBodyUndergoingAcceleration nameOfBodyExertingAcceleration in
      ret (AerodynamicModel m)
  | cannon_ball_radiation_pressure =>
      let* m := createCannonballRadiationPressureAcceleratioModel
                  bodyUndergoingAcceleration bodyExertingAcceleration
                  nameOfBodyUndergoingAcceleration nameOfBodyExertingAcceleration in
      notRecognized accelerationSettings
        nameOfBodyUndergoingAcceleration nameOfBodyExertingAcceleration
  | _ =>
      notRecognized accelerationSettings
        nameOfBodyUndergoingAcceleration nameOfBodyExertingAcceleration
  end.

(** ** The assembler *)

(** [map[ key ].push_back( model )] on a [SingleBodyAccelerationMap] *)
Definition push_back (key : string) (model : AccelerationModel)
    (map : gmap string (list AccelerationModel))
  : gmap string (list AccelerationModel) :=
  <[key := (default [] (map !! key) ++ [model])%list]> map.

(** [bodyMap.at( name )] *)
Definition bodyAt (bodyMap : gmap string BodyPtr) (name : string) : Cpp BodyPtr :=
  match bodyMap !! name with
  | Some p => ret p
  | None => throw out_of_range
  end.

(** The loop over [accelerationList] (index [i]) of
    [createAccelerationModelsMap]. *)
Fixpoint buildAccelerationList
    (bodyMap : gmap string BodyPtr)
    (bodyUndergoingAcceleration bodyExertingAcceleration : string)
    (currentCentralBody : BodyPtr) (currentCentralBodyName : string)
    (accelerationList : list AccelerationSettings)
    (mapOfAccelerationsForBody : gmap string (list AccelerationModel))
  : Cpp (gmap string (list AccelerationModel)) :=
  match accelerationList with
  | [] => ret mapOfAccelerationsForBody
  | settings :: rest =>
      let* undergoing := bodyAt bodyMap bodyUndergoingAcceleration in
      let* exerting := bodyAt bodyMap bodyExertingAcceleration in
      let* model := createAccelerationModel undergoing exerting settings
                      bodyUndergoingAcceleration bodyExertingAcceleration
                      currentCentralBody currentCentralBodyName in
      buildAccelerationList bodyMap
        bodyUndergoingAcceleration bodyExertingAcceleration
        currentCentralBody currentCentralBodyName rest
        (push_back bodyExertingAcceleration model mapOfAccelerationsForBody)
  end.

(** The loop over the bodies exerting an acceleration ([body2Iterator]). *)
Fixpoint buildAccelerationsForBody
    (bodyMap : gmap string BodyPtr)
    (bodyUndergoingAcceleration : string)
    (currentCentralBody : BodyPtr) (currentCentralBodyName : string)
    (accelerationsForBody : list (string * list AccelerationSettings))
    (mapOfAccelerationsForBody : gmap string (list AccelerationModel))
  : Cpp (gmap string (list AccelerationModel)) :=
  match accelerationsForBody with
  | [] => ret mapOfAccelerationsForBody
  | (bodyExertingAcceleration, accelerationList) :: rest =>
      match bodyMap !! bodyExertingAcceleration with
      | None =>
          throw (runtime_error LookupError
                   ("Error when making acceleration models, requested forces " +:+
                    "acting on body " +:+ bodyUndergoingAcceleration +:+
                    " due to body " +:+ bodyExertingAcceleration +:+
                    ", but no such body found in map of bodies"))
      | Some _ =>
          let* map' := buildAccelerationList bodyMap
                         bodyUndergoingAcceleration bodyExertingAcceleration
                         currentCentralBody currentCentralBodyName
                         accelerationList mapOfAccelerationsForBody in
          buildAccelerationsForBody bodyMap bodyUndergoingAcceleration
            currentCentralBody currentCentralBodyName rest map'
      end
  end.

(** The loop over the bodies undergoing acceleration ([bodyIterator]). *)
Fixpoint buildAccelerationModelMap
    (bodyMap : gmap string BodyPtr)
    (centralBodies : gmap string string)
    (selectedAccelerationPerBody :
       list (string * list (string * list AccelerationSettings)))
    (accelerationModelMap : gmap string (gmap string (list AccelerationModel)))
  : Cpp (gmap string (gmap string (list AccelerationModel))) :=
  match selectedAccelerationPerBody with
  | [] => ret accelerationModelMap
  | (bodyUndergoingAcceleration, accelerationsForBody) :: rest =>
      match centralBodies !! bodyUndergoingAcceleration with
      | None => throw out_of_range
      | Some currentCentralBodyName =>
          let* currentCentralBody :=
            if negb (isFrameInertial currentCentralBodyName) then
              match bodyMap !! currentCentralBodyName with
              | None =>
                  throw (runtime_error LookupError
                           ("Error, could not find non-inertial central body " +:+
                            currentCentralBodyName +:+ " of " +:+
                            bodyUndergoingAcceleration +:+
                            " when making acceleration model."))
              | Some p => ret p
              end
            else ret None in
          match bodyMap !! bodyUndergoingAcceleration with
          | None =>
              throw (runtime_error LookupError
                       ("Error when making acceleration models, requested forces" +:+
                        "acting on body " +:+ bodyUndergoingAcceleration +:+
                        ", but no such body found in map of bodies"))
          | Some _ =>
              let* mapOfAccelerationsForBody :=
                buildAccelerationsForBody bodyMap bodyUndergoingAcceleration
                  currentCentralBody currentCentralBodyName
                  accelerationsForBody ∅ in
              buildAccelerationModelMap bodyMap centralBodies rest
                (<[bodyUndergoingAcceleration := mapOfAccelerationsForBody]>
                   accelerationModelMap)
          end
      end
  end.

(** [createAccelerationModelsMap] *)
Definition createAccelerationModelsMap
    (bodyMap : gmap string BodyPtr)
    (selectedAccelerationPerBody :
       list (string * list (string * list AccelerationSettings)))
    (centralBodies : gmap string string)
  : Cpp (gmap string (gmap string (list AccelerationModel))) :=
  buildAccelerationModelMap bodyMap centralBodies selectedAccelerationPerBody ∅.

End Builders.

(** ** The later revision of the file (PropagationSetup) *)

Module Revised.

Record SphericalHarmonicsGravitationalAccelerationModel := {
  positionOfBodySubjectToAcceleration : BodyPtr;
  gravitationalParameterFunction : unit -> double;
  equatorialRadius : double;
  gravityField : SphericalHarmonicsGravityField;
  maximumDegree : nat;
  maximumOrder : nat;
  positionOfBodyExertingAcceleration : BodyPtr;
  rotationFromBodyFixedToIntegrationFrame : BodyPtr;
  isMutualAttractionUsed : bool
}.

(** [createSphericalHarmonicsGravityAcceleration], with the checks on the
    rotation model of the exerting body. *)
Definition createSphericalHarmonicsGravityAcceleration
    (bodyUndergoingAcceleration bodyExertingAcceleration : BodyPtr)
    (nameOfBodyUndergoingAcceleration nameOfBodyExertingAcceleration : string)
    (accelerationSettings : AccelerationSettings)
    (useCentralBodyFixedFrame : bool)
  : Cpp SphericalHarmonicsGravitationalAccelerationModel :=
  match asSphericalHarmonicAccelerationSettings accelerationSettings with
  | None =>
      throw (runtime_error ConfigurationError
               ("Error, acceleration settings inconsistent " +:+
                " making sh gravitational acceleration of " +:+
                nameOfBodyExertingAcceleration +:+
                " on " +:+ nameOfBodyUndergoingAcceleration))
  | Some (maximumDegree_, maximumOrder_) =>
      let* exerting := deref bodyExertingAcceleration in
      match asSphericalHarmonicsGravityField (gravityFieldModel exerting) with
      | None =>
          throw (runtime_error MissingCapabilityError
                   ("Error, spherical harmonic gravity field model not set when " +:+
                    " making sh gravitational acceleration of " +:+
                    nameOfBodyExertingAcceleration +:+
                    " on " +:+ nameOfBodyUndergoingAcceleration))
      | Some sphericalHarmonicsGravityField =>
          match rotationalEphemeris exerting with
          | None =>
              throw (runtime_error MissingCapabilityError
                       ("Warning when making spherical harmonic acceleration on body " +:+
                        nameOfBodyUndergoingAcceleration +:+
                        ", no rotation model found for " +:+
                        nameOfBodyExertingAcceleration))
          | Some rotationalEphemeris_ =>
              if negb (String.eqb (targetFrameOrientation rotationalEphemeris_)
                         (sh_fixedReferenceFrame sphericalHarmonicsGravityField))
              then
                throw (runtime_error FrameMismatchError
                         ("Warning when making spherical harmonic acceleration on body " +:+
                          nameOfBodyUndergoingAcceleration +:+
                          ", rotation model found for " +:+
                          nameOfBodyExertingAcceleration +:+
                          " is incompatible, frames are: " +:+
                          targetFrameOrientation rotationalEphemeris_ +:+ " and " +:+
                          sh_fixedReferenceFrame sphericalHarmonicsGravityField))
              else
                let* gravitationalParameterFunction_ :=
                  selectGravitationalParameterFunction useCentralBodyFixedFrame
                    bodyUndergoingAcceleration
                    (fun _ : unit =>
                       sh_gravitationalParameter sphericalHarmonicsGravityField) in
                make_shared
                  {| positionOfBodySubjectToAcceleration := bodyUndergoingAcceleration;
                     gravitationalParameterFunction := gravitationalParameterFunction_;
                     equatorialRadius := sh_referenceRadius sphericalHarmonicsGravityField;
                     gravityField := sphericalHarmonicsGravityField;
                     maximumDegree := maximumDegree_;
                     maximumOrder := maximumOrder_;
                     positionOfBodyExertingAcceleration := bodyExertingAcceleration;
                     rotationFromBodyFixedToIntegrationFrame := bodyExertingAcceleration;
                     isMutualAttractionUsed := useCentralBodyFixedFrame |}
          end
      end
  end.

(** [std::vector::at] *)
Definition at_ {A} (v : list A) (i : nat) : Exception + A :=
  match v !! i with
  | Some x => inr x
  | None => inl out_of_range
  end.

(** The loop of [orderSelectedAccelerationMap] that retrieves the indices
    of the aerodynamic and of the thrust entries of one list, from
    index [i] on. *)
Fixpoint collectIndices (i : nat) (accelerationList : list AccelerationSettings)
    (aerodynamicAccelerationIndex thrustAccelerationIndices : list nat)
  : list nat * list nat :=
  match accelerationList with
  | [] => (aerodynamicAccelerationIndex, thrustAccelerationIndices)
  | settings :: rest =>
      if AvailableAcceleration_eqb (accelerationType_ settings) thrust_acceleration
      then collectIndices (S i) rest
             aerodynamicAccelerationIndex (thrustAccelerationIndices ++ [i])%list
      else if AvailableAcceleration_eqb (accelerationType_ settings) aerodynamic
      then collectIndices (S i) rest
             (aerodynamicAccelerationIndex ++ [i])%list thrustAccelerationIndices
      else collectIndices (S i) rest
             aerodynamicAccelerationIndex thrustAccelerationIndices
  end.

(** [std::iter_swap( l.begin( ) + i, l.begin( ) + j )] for in-range
    positions *)
Definition iter_swap {A} (l : list A) (i j : nat) : list A :=
  match l !! i, l !! j with
  | Some x, Some y => <[j := x]> (<[i := y]> l)
  | _, _ => l
  end.

(** The body of the inner loop of [orderSelectedAccelerationMap]: the
    ordered list of one pair, or the exception thrown. *)
Definition orderAccelerationList (accelerationList : list AccelerationSettings)
  : Exception + list AccelerationSettings :=
  let '(aerodynamicAccelerationIndex, thrustAccelerationIndices) :=
    collectIndices 0 accelerationList [] [] in
  let orderedAccelerationList := accelerationList in
  if (0 <? length thrustAccelerationIndices)%nat
     && (0 <? length aerodynamicAccelerationIndex)%nat
  then
    match at_ aerodynamicAccelerationIndex (length aerodynamicAccelerationIndex - 1),
          at_ thrustAccelerationIndices 0 with
    | inr lastAerodynamic, inr firstThrust =>
        if (firstThrust <? lastAerodynamic)%nat then
          if (length aerodynamicAccelerationIndex =? 1)%nat then
            match at_ aerodynamicAccelerationIndex 0,
                  at_ thrustAccelerationIndices (length thrustAccelerationIndices - 1) with
            | inr onlyAerodynamic, inr lastThrust =>
                inr (iter_swap orderedAccelerationList onlyAerodynamic lastThrust)
            | inl e, _ | _, inl e => inl e
            end
          else
            inl (runtime_error ConfigurationError
                   "Error when ordering accelerations, cannot yet handle multple aerodynamic and thrust accelerations")
        else inr orderedAccelerationList
    | inl e, _ | _, inl e => inl e
    end
  else inr orderedAccelerationList.

(** The inner loop: [orderedAccelerationsPerBody[ undergoing ][ exerting ]]
    is assigned pair by pair. *)
Fixpoint orderAccelerationsForBody
    (bodyUndergoingAcceleration : string)
    (accelerationsForBody : list (string * list AccelerationSettings))
    (orderedAccelerationsPerBody :
       gmap string (gmap string (list AccelerationSettings)))
  : Exception + gmap string (gmap string (list AccelerationSettings)) :=
  match accelerationsForBody with
  | [] => inr orderedAccelerationsPerBody
  | (bodyExertingAcceleration, accelerationList) :: rest =>
      match orderAccelerationList accelerationList with
      | inl e => inl e
      | inr orderedAccelerationList =>
          orderAccelerationsForBody bodyUndergoingAcceleration rest
            (<[bodyUndergoingAcceleration :=
                 <[bodyExertingAcceleration := orderedAccelerationList]>
                   (default ∅ (orderedAccelerationsPerBody !! bodyUndergoingAcceleration))]>
               orderedAccelerationsPerBody)
      end
  end.

(** [orderSelectedAccelerationMap] *)
Fixpoint orderSelectedAccelerationMap_from
    (selectedAccelerationsPerBody :
       list (string * list (string * list AccelerationSettings)))
    (orderedAccelerationsPerBody :
       gmap string (gmap string (list AccelerationSettings)))
  : Exception + gmap string (gmap string (list AccelerationSettings)) :=
  match selectedAccelerationsPerBody with
  | [] => inr orderedAccelerationsPerBody
  | (bodyUndergoingAcceleration, accelerationsForBody) :: rest =>
      match orderAccelerationsForBody bodyUndergoingAcceleration
              accelerationsForBody orderedAccelerationsPerBody with
      | inl e => inl e
      | inr ordered => orderSelectedAccelerationMap_from rest ordered
      end
  end.

Definition orderSelectedAccelerationMap
    (selectedAccelerationsPerBody :
       list (string * list (string * list AccelerationSettings)))
  : Exception + gmap string (gmap string (list AccelerationSettings)) :=
  orderSelectedAccelerationMap_from selectedAccelerationsPerBody ∅.

End Revised.

(** ** Evaluation of the composite model *)

Definition Vector3d : Type := double * double * double.

Definition vectorDifference (a b : Vector3d) : Vector3d :=
  let '(ax, ay, az) := a in
  let '(bx, by_, bz) := b in
  (PrimFloat.sub ax bx, PrimFloat.sub ay by_, PrimFloat.sub az bz).

Section Evaluation.

(** [CentralGravitationalAccelerationModel3d::getAcceleration]
    (centralGravityModel.h, not among the sources) is a parameter. *)
Variable centralGravityAcceleration :
  CentralGravitationalAccelerationModel3d -> Vector3d.

(** Modelled from the spec: [ThirdBodyCentralGravityAcceleration]
    (thirdBodyPerturbation.h is not among the sources).  "Produce a
    composite model whose evaluation returns the first minus the second." *)
Definition thirdBodyAcceleration (m : ThirdBodyCentralGravityAcceleration)
  : Vector3d :=
  vectorDifference
    (centralGravityAcceleration (accelerationModelForBodyUndergoingAcceleration m))
    (centralGravityAcceleration (accelerationModelForCentralBody m)).

End Evaluation.

(** ** Observations on outcomes and models *)

Definition returned {A} (o : Outcome A) : option A :=
  match o with Returned a _ => Some a | Thrown _ _ => None end.

Definition centralGravityParameter
    (o : Outcome CentralGravitationalAccelerationModel3d) : option double :=
  match o with
  | Returned m _ => Some (cg_gravitationalParameterFunction m tt)
  | Thrown _ _ => None
  end.

Definition sphericalHarmonicsParameter
    (o : Outcome SphericalHarmonicsGravitationalAccelerationModelXd) : option double :=
  match o with
  | Returned m _ => Some (shm_gravitationalParameterFunction m tt)
  | Thrown _ _ => None
  end.

Definition isDirectCentralGravity (m : AccelerationModel) : bool :=
  match m with CentralGravityModel _ => true | _ => false end.

Definition isThirdBodyCentralGravity (m : AccelerationModel) : bool :=
  match m with ThirdBodyCentralGravityModel _ => true | _ => false end.

(** The world after a new flight-conditions object has been created and
    attached to the body at address [a]. *)
Definition attachNew (w : World) (a : positive) (ub : Body) : World :=
  {| bodies := <[a := setFlightConditions (S (flightConditionsCreated w)) ub]> (bodies w);
     flightConditionsCreated := S (flightConditionsCreated w);
     modelsConstructed := modelsConstructed w |}.

Definition aerodynamicModelWith (c : AerodynamicCoefficientInterface)
    (fc : FlightConditions) (u : BodyPtr) : AerodynamicAcceleration :=
  {| aero_coefficientInterface := c;
     aero_densityFrom := fc;
     aero_airSpeedFrom := fc;
     aero_massOf := u;
     aero_referenceAreaFrom := c;
     aero_coefficientsAreNegative := areCoefficientsInNegativeAxisDirection c |}.

(** [sameGravity w w']: the two worlds have bodies at the same addresses,
    with the same gravity field models. *)
Definition sameGravity (w w' : World) : Prop :=
  forall a, (gravityFieldModel <$> bodies w' !! a) = (gravityFieldModel <$> bodies w !! a).

(** [stable R c]: whether [c] returns or throws, the world it leaves is
    [R]-related to the world it started in. *)
Definition stable (R : World -> World -> Prop) {A} (c : Cpp A) : Prop :=
  forall w, R w (worldOf (c w)).

(** The body names a run of the assembler looks up in the registry: for
    every body undergoing acceleration its non-inertial central body, the
    body itself and the bodies exerting accelerations on it. *)
Definition referencedBodies (centralBodies : gmap string string)
    (selectedAccelerationPerBody :
       list (string * list (string * list AccelerationSettings)))
  : list string :=
  flat_map
    (fun entry : string * list (string * list AccelerationSettings) =>
       (match centralBodies !! entry.1 with
        | Some central => if isFrameInertial central then [] else [central]
        | None => []
        end ++ entry.1 :: map fst entry.2)%list)
    selectedAccelerationPerBody.

(** The value of [currentCentralBody] once the central body of an entry
    has been resolved: null for an inertial frame, the registered pointer
    otherwise. *)
Definition centralBodyPointer (bodyMap : gmap string BodyPtr)
    (currentCentralBodyName : string) : BodyPtr :=
  if isFrameInertial currentCentralBodyName then None
  else default None (bodyMap !! currentCentralBodyName).

(** [hasTypeAt t l i]: entry [i] of the settings list carries the tag [t]. *)
Definition hasTypeAt (t : AvailableAcceleration) (l : list AccelerationSettings)
    (i : nat) : Prop :=
  exists s, l !! i = Some s /\ accelerationType_ s = t.

(** The positions, counted from [i], of the entries tagged [t]. *)
Fixpoint indicesOfType (t : AvailableAcceleration) (i : nat)
    (l : list AccelerationSettings) : list nat :=
  match l with
  | [] => []
  | s :: rest =>
      if AvailableAcceleration_eqb (accelerationType_ s) t
      then i :: indicesOfType t (S i) rest
      else indicesOfType t (S i) rest
  end.



(** ** A concrete environment *)

Module Scenario.

Definition noCapabilities : Body :=
  {| gravityFieldModel := None; atmosphereModel := None; shapeModel := None;
     aerodynamicCoefficientInterface := None; radiationPressureInterfaces := ∅;
     flightConditions := None; rotationalEphemeris := None |}.

Definition earthField : SphericalHarmonicsGravityField :=
  {| sh_gravitationalParameter := 398600.5%float;
     sh_referenceRadius := 6378.25%float;
     sh_fixedReferenceFrame := "IAU_Earth" |}.

Definition marsField : SphericalHarmonicsGravityField :=
  {| sh_gravitationalParameter := 42828.5%float;
     sh_referenceRadius := 3396.25%float;
     sh_fixedReferenceFrame := "IAU_Mars" |}.

Definition Earth : Body :=
  {| gravityFieldModel := Some (SphericalHarmonicsField earthField);
     atmosphereModel := Some 1%positive; shapeModel := Some 1%positive;
     aerodynamicCoefficientInterface := None; radiationPressureInterfaces := ∅;
     flightConditions := None;
     rotationalEphemeris := Some {| targetFrameOrientation := "IAU_Earth" |} |}.

Definition Moon : Body :=
  {| gravityFieldModel := Some (PointMassGravityField 4902.75%float);
     atmosphereModel := None; shapeModel := None;
     aerodynamicCoefficientInterface := None; radiationPressureInterfaces := ∅;
     flightConditions := None; rotationalEphemeris := None |}.

Definition Sun : Body :=
  {| gravityFieldModel := Some (PointMassGravityField 132712440018.5%float);
     atmosphereModel := None; shapeModel := None;
     aerodynamicCoefficientInterface := None; radiationPressureInterfaces := ∅;
     flightConditions := None; rotationalEphemeris := None |}.

(** Mars carries a rotation model whose target frame is not the fixed
    frame of its gravity field. *)
Definition Mars : Body :=
  {| gravityFieldModel := Some (SphericalHarmonicsField marsField);
     atmosphereModel := Some 2%positive; shapeModel := Some 2%positive;
     aerodynamicCoefficientInterface := None; radiationPressureInterfaces := ∅;
     flightConditions := None;
     rotationalEphemeris := Some {| targetFrameOrientation := "IAU_Earth" |} |}.

Definition Satellite : Body :=
  {| gravityFieldModel := None; atmosphereModel := None; shapeModel := None;
     aerodynamicCoefficientInterface :=
       Some {| areCoefficientsInAerodynamicFrame := true;
               areCoefficientsInNegativeAxisDirection := true |};
     radiationPressureInterfaces := {[ "Sun" := 1%positive ]};
     flightConditions := None; rotationalEphemeris := None |}.

Definition Jupiter : Body := noCapabilities.
Definition Probe : Body := noCapabilities.

Definition pEarth : BodyPtr := Some 1%positive.
Definition pMoon : BodyPtr := Some 2%positive.
Definition pSun : BodyPtr := Some 3%positive.
Definition pMars : BodyPtr := Some 4%positive.
Definition pSatellite : BodyPtr := Some 5%positive.
Definition pJupiter : BodyPtr := Some 6%positive.
Definition pProbe : BodyPtr := Some 7%positive.

Definition world : World :=
  {| bodies := {[ 1%positive := Earth; 2%positive := Moon; 3%positive := Sun;
                  4%positive := Mars; 5%positive := Satellite;
                  6%positive := Jupiter; 7%positive := Probe ]};
     flightConditionsCreated := 0;
     modelsConstructed := 0 |}.

Definition bodyMap : gmap string BodyPtr :=
  {[ "Earth" := pEarth; "Moon" := pMoon; "Sun" := pSun; "Mars" := pMars;
     "Satellite" := pSatellite; "Jupiter" := pJupiter; "Probe" := pProbe ]}.

Definition centralBodies : gmap string string :=
  {[ "Satellite" := "Earth"; "Probe" := "SSB"; "Moon" := "Earth" ]}.

(** A platform: arguments evaluated in the order given, a
    flight-conditions factory that does not throw, and enumerators
    printed by their position in [AvailableAcceleration]: the header that
    fixes their values is not among the sources, so the digit in a "not
    recognized" message is the one of this platform. *)
Definition platform (order : ArgumentEvaluationOrder) : Platform :=
  {| argumentOrder := order;
     lexical_cast := fun t =>
       match t with
       | central_gravity => "0" | aerodynamic => "1"
       | cannon_ball_radiation_pressure => "2"
       | spherical_harmonic_gravity => "3"
       | mutual_spherical_harmonic_gravity => "4"
       | thrust_acceleration => "5"
       end;
     flightConditionsFactoryCheck := fun _ _ _ _ _ => None |}.

(** Runs of the assembler ([std::map] entries in ascending key order). *)

(** The second exerting body is not registered. *)
Definition ghostRun : list (string * list (string * list AccelerationSettings)) :=
  [("Satellite", [("Earth", [BaseAccelerationSettings aerodynamic]);
                  ("Ghost", [BaseAccelerationSettings central_gravity])])].


Definition thrustFirstRun : list (string * list (string * list AccelerationSettings)) :=
  [("Satellite", [("Earth", [BaseAccelerationSettings thrust_acceleration;
                             BaseAccelerationSettings aerodynamic])])].

Definition aerodynamicFirstRun : list (string * list (string * list AccelerationSettings)) :=
  [("Satellite", [("Earth", [BaseAccelerationSettings aerodynamic;
                             BaseAccelerationSettings thrust_acceleration])])].

End Scenario.


(** ** Further observations on the assembler *)

(** The class of a model against the type of the settings entry it was
    built for. *)
Definition modelMatchesType (t : AvailableAcceleration) (m : AccelerationModel)
  : bool :=
  match t, m with
  | central_gravity, CentralGravityModel _ => true
  | central_gravity, ThirdBodyCentralGravityModel _ => true
  | spherical_harmonic_gravity, SphericalHarmonicsModel _ => true
  | aerodynamic, AerodynamicModel _ => true
  | _, _ => false
  end.

(** [untouched w w']: the same bodies and the same number of
    flight-conditions objects. *)
Definition untouched (w w' : World) : Prop :=
  bodies w' = bodies w /\ flightConditionsCreated w' = flightConditionsCreated w.

(** [onlyFlightConditionsAttached w w']: [w'] has the bodies of [w] at the
    same addresses, each one unchanged or, if it had no flight conditions,
    with flight conditions attached; no flight-conditions object has been
    forgotten. *)
Definition onlyFlightConditionsAttached (w w' : World) : Prop :=
  flightConditionsCreated w <= flightConditionsCreated w'
  /\ forall a,
       match bodies w !! a with
       | Some b =>
           exists b', bodies w' !! a = Some b'
                      /\ (b' = b
                          \/ (flightConditions b = None
                              /\ exists fc, b' = setFlightConditions fc b))
       | None => bodies w' !! a = None
       end.

(** The settings lists of a run, pair by pair. *)
Definition hasKey {V} (key : string) (l : list (string * V)) : Prop :=
  In key (map fst l).

(** ** Ephemeris update order (nBodyStateDerivative.cpp) *)

Module Propagators.

(** [std::find] on a vector of names: the distance from [begin( )] of the
    first element equal to [name]; [None] stands for [end( )]. *)
Fixpoint find (v : list string) (name : string) : option nat :=
  match v with
  | [] => None
  | x :: rest => if String.eqb x name then Some 0 else S <$> find rest name
  end.

(** The local variables of [determineEphemerisUpdateorder]; the three
    vectors are passed by value and shrink as bodies are handled. *)
Record LoopState := {
  integratedBodies : list string;
  centralBodies : list string;
  ephemerisOrigins : list string;
  updateOrder : list string;
  isFinished : bool;
  currentIndex : nat;
  counter : nat
}.

(** The bound of the check [counter > 10000]. *)
Definition iterationLimit : nat := 100 * 100.

(** [boost::lexical_cast< std::string >( counter )] *)
Definition lexical_cast_int (n : nat) : string :=
  NilEmpty.string_of_uint (Nat.to_uint n).

Definition setCurrentIndex (s : LoopState) (i : nat) : LoopState :=
  {| integratedBodies := integratedBodies s;
     centralBodies := centralBodies s;
     ephemerisOrigins := ephemerisOrigins s;
     updateOrder := updateOrder s;
     isFinished := isFinished s;
     currentIndex := i;
     counter := counter s |}.

(** The exception of the check that breaks a circular dependency; the
    comment in the source calls such input inadmissible, and it is classed
    as a configuration error. *)
Definition iterationLimitError (n : nat) : Exception :=
  runtime_error ConfigurationError
    ("Warning, ephemeris update order determination now at iteration " +:+
     lexical_cast_int n).

(** The branch that adds the body at [currentIndex] to the update order
    and erases it from the three vectors. *)
Definition addToUpdateOrder (s : LoopState) (body : string) : LoopState :=
  let remaining := delete (currentIndex s) (integratedBodies s) in
  {| integratedBodies := remaining;
     centralBodies := delete (currentIndex s) (centralBodies s);
     ephemerisOrigins := delete (currentIndex s) (ephemerisOrigins s);
     updateOrder := (updateOrder s ++ [body])%list;
     isFinished := if (length remaining =? 0)%nat then true else isFinished s;
     currentIndex := 0;
     counter := counter s |}.

(** The if/else of the loop body, before [counter++]. *)
Definition handleCurrentIndex (s : LoopState) : Exception + LoopState :=
  match Revised.at_ (centralBodies s) (currentIndex s) with
  | inl e => inl e
  | inr central =>
      match Revised.at_ (ephemerisOrigins s) (currentIndex s) with
      | inl e => inl e
      | inr origin =>
          let centralBodyIterator := find (integratedBodies s) central in
          let ephemerisOriginIterator := find (integratedBodies s) origin in
          match centralBodyIterator, ephemerisOriginIterator with
          | None, None =>
              match Revised.at_ (integratedBodies s) (currentIndex s) with
              | inl e => inl e
              | inr body => inr (addToUpdateOrder s body)
              end
          | Some i, Some j => inr (setCurrentIndex s (Nat.min i j))
          | Some i, None => inr (setCurrentIndex s i)
          | None, Some j => inr (setCurrentIndex s j)
          end
      end
  end.

(** [counter++] *)
Definition incrementCounter (s : LoopState) : LoopState :=
  {| integratedBodies := integratedBodies s;
     centralBodies := centralBodies s;
     ephemerisOrigins := ephemerisOrigins s;
     updateOrder := updateOrder s;
     isFinished := isFinished s;
     currentIndex := currentIndex s;
     counter := S (counter s) |}.

(** One pass through the body of the [while] loop. *)
Definition loopBody (s : LoopState) : Exception + LoopState :=
  match handleCurrentIndex s with
  | inl e => inl e
  | inr s' =>
      if (iterationLimit <? S (counter s'))%nat
      then inl (iterationLimitError (S (counter s')))
      else inr (incrementCounter s')
  end.

(** [while( !isFinished )].  The loop makes at most [iterationLimit + 1]
    passes, because the last of them throws; [fuel] counts the passes
    still allowed, and the branch for no fuel is not reached from
    [determineEphemerisUpdateorder]. *)
Fixpoint whileNotFinished (fuel : nat) (s : LoopState) : Exception + list string :=
  if isFinished s then inr (updateOrder s)
  else
    match fuel with
    | 0 => inl (iterationLimitError (S (counter s)))
    | S fuel' =>
        match loopBody s with
        | inl e => inl e
        | inr s' => whileNotFinished fuel' s'
        end
    end.

Definition initialState (integratedBodies_ centralBodies_ ephemerisOrigins_ : list string)
  : LoopState :=
  {| integratedBodies := integratedBodies_;
     centralBodies := centralBodies_;
     ephemerisOrigins := ephemerisOrigins_;
     updateOrder := [];
     isFinished := false;
     currentIndex := 0;
     counter := 0 |}.

(** [determineEphemerisUpdateorder] *)
Definition determineEphemerisUpdateorder
    (integratedBodies_ centralBodies_ ephemerisOrigins_ : list string)
  : Exception + list string :=
  whileNotFinished (S iterationLimit)
    (initialState integratedBodies_ centralBodies_ ephemerisOrigins_).

(** The entries of the three vectors, index by index: a body with its
    central body and its ephemeris origin. *)
Definition entries (bodies_ centrals origins : list string)
  : list (string * (string * string)) :=
  zip bodies_ (zip centrals origins).

(** [resolved l remaining]: no entry of [l] has as central body or as
    ephemeris origin the body of that entry, a body of a later entry of
    [l], or a body of [remaining]. *)
Definition resolved (l : list (string * (string * string)))
    (remaining : list string) : Prop :=
  forall i t, l !! i = Some t ->
    forall x, In x (map fst (drop i l)) \/ In x remaining ->
      x <> t.2.1 /\ x <> t.2.2.

End Propagators.

(** ** Further observations on the ordering function *)

(** Where the entry at position [k] of [iter_swap l i j] comes from. *)
Definition swapIndex (i j k : nat) : nat :=
  if decide (k = j) then i else if decide (k = i) then j else k.

(** Case analysis on the position of an entry of a literal list. *)
Ltac at_position H :=
  let s := fresh "s" in let Hs := fresh "Hs" in let Ht := fresh "Ht" in
  destruct H as (s & Hs & Ht);
  repeat match type of Hs with
         | (_ :: _) !! ?i = Some _ =>
             destruct i; cbn in Hs;
             [injection Hs as <-; try discriminate Ht|]
         | [] !! _ = Some _ => discriminate Hs
         end.

(** ** The gravitational accelerations of the later revision *)

Module RevisedGravitation.

(** [MutualSphericalHarmonicAccelerationSettings]: the members the builder
    reads. *)
Record MutualSphericalHarmonicAccelerationSettings := {
  maximumDegreeOfBodyExertingAcceleration_ : nat;
  maximumOrderOfBodyExertingAcceleration_ : nat;
  maximumDegreeOfBodyUndergoingAcceleration_ : nat;
  maximumOrderOfBodyUndergoingAcceleration_ : nat;
  maximumDegreeOfCentralBody_ : nat;
  maximumOrderOfCentralBody_ : nat
}.

(** A settings object of the later revision: an object of one of the two
    classes of the earlier revision, or an object of the class
    [MutualSphericalHarmonicAccelerationSettings], whose tag is
    [mutual_spherical_harmonic_gravity]. *)
Inductive Settings :=
| EarlierClassSettings (settings : AccelerationSettings)
| MutualClassSettings (settings : MutualSphericalHarmonicAccelerationSettings).

Definition accelerationType_ (s : Settings) : AvailableAcceleration :=
  match s with
  | EarlierClassSettings settings => accelerationType_ settings
  | MutualClassSettings _ => mutual_spherical_harmonic_gravity
  end.

(** [dynamic_pointer_cast< MutualSphericalHarmonicAccelerationSettings >] *)
Definition asMutualSphericalHarmonicAccelerationSettings (s : Settings)
  : option MutualSphericalHarmonicAccelerationSettings :=
  match s with
  | MutualClassSettings settings => Some settings
  | EarlierClassSettings _ => None
  end.

(** The object as the spherical-harmonics builder receives it: the cast to
    [SphericalHarmonicAccelerationSettings] fails on an object of the
    mutual class as it does on an object of the base class. *)
Definition asEarlierClassSettings (s : Settings) : AccelerationSettings :=
  match s with
  | EarlierClassSettings settings => settings
  | MutualClassSettings _ =>
      BaseAccelerationSettings mutual_spherical_harmonic_gravity
  end.

(** The model classes *)
Record CentralGravitationalAccelerationModel3d := {
  positionOfBodySubjectToAcceleration : BodyPtr;
  gravitationalParameterFunction : unit -> double;
  positionOfBodyExertingAcceleration : BodyPtr;
  isMutualAttractionUsed : bool
}.

Record MutualSphericalHarmonicsGravitationalAccelerationModel := {
  mutual_positionOfBodySubjectToAcceleration : BodyPtr;
  mutual_positionOfBodyExertingAcceleration : BodyPtr;
  mutual_gravitationalParameterFunction : unit -> double;
  equatorialRadiusOfBodyExertingAcceleration : double;
  equatorialRadiusOfBodyUndergoingAcceleration : double;
  gravityFieldOfBodyExertingAcceleration : SphericalHarmonicsGravityField;
  maximumDegreeOfBodyExertingAcceleration : nat;
  maximumOrderOfBodyExertingAcceleration : nat;
  gravityFieldOfBodyUndergoingAcceleration : SphericalHarmonicsGravityField;
  maximumDegreeOfBodyUndergoingAcceleration : nat;
  maximumOrderOfBodyUndergoingAcceleration : nat;
  rotationOfBodyExertingAcceleration : BodyPtr;
  rotationOfBodyUndergoingAcceleration : BodyPtr;
  useCentralBodyFixedFrame : bool
}.

(** [ThirdBodyAcceleration< DirectModel >]: the two legs are shared
    pointers, null when the [dynamic_pointer_cast] of the builder
    failed. *)
Record ThirdBodyAcceleration (DirectModel : Type) := {
  accelerationModelForBodyUndergoingAcceleration : option DirectModel;
  accelerationModelForCentralBody : option DirectModel;
  centralBodyName : string
}.
Arguments accelerationModelForBodyUndergoingAcceleration {DirectModel} _.
Arguments accelerationModelForCentralBody {DirectModel} _.
Arguments centralBodyName {DirectModel} _.

Inductive AccelerationModel :=
| CentralGravityModel (m : CentralGravitationalAccelerationModel3d)
| SphericalHarmonicsModel (m : Revised.SphericalHarmonicsGravitationalAccelerationModel)
| MutualSphericalHarmonicsModel
    (m : MutualSphericalHarmonicsGravitationalAccelerationModel)
| ThirdBodyCentralGravityModel
    (m : ThirdBodyAcceleration CentralGravitationalAccelerationModel3d)
| ThirdBodySphericalHarmonicsModel
    (m : ThirdBodyAcceleration Revised.SphericalHarmonicsGravitationalAccelerationModel)
| ThirdBodyMutualSphericalHarmonicsModel
    (m : ThirdBodyAcceleration MutualSphericalHarmonicsGravitationalAccelerationModel).

(** [dynamic_pointer_cast] to the three classes of direct models *)
Definition asCentralGravitationalAccelerationModel3d (m : AccelerationModel)
  : option CentralGravitationalAccelerationModel3d :=
  match m with CentralGravityModel c => Some c | _ => None end.

Definition asSphericalHarmonicsGravitationalAccelerationModel (m : AccelerationModel)
  : option Revised.SphericalHarmonicsGravitationalAccelerationModel :=
  match m with SphericalHarmonicsModel s => Some s | _ => None end.

Definition asMutualSphericalHarmonicsGravitationalAccelerationModel
    (m : AccelerationModel)
  : option MutualSphericalHarmonicsGravitationalAccelerationModel :=
  match m with MutualSphericalHarmonicsModel s => Some s | _ => None end.

Section Builders.

Variable platform : Platform.

(** [ephemerides::isFrameInertial] (frameManager.h) is not among the
    sources: the builders are defined for any classifier of frames. *)
Variable isFrameInertial : string -> bool.

(** [createCentralGravityAcceleratioModel].  The choice of the
    gravitational parameter function is the one of the earlier revision,
    [utilities::sumFunctionReturn] adding the values of two functions as
    [evaluateDoubleFunctions] does. *)
Definition createCentralGravityAcceleratioModel
    (bodyUndergoingAcceleration bodyExertingAcceleration : BodyPtr)
    (nameOfBodyUndergoingAcceleration nameOfBodyExertingAcceleration : string)
    (useCentralBodyFixedFrame_ : bool)
  : Cpp CentralGravitationalAccelerationModel3d :=
  let* exerting := deref bodyExertingAcceleration in
  match gravityFieldModel exerting with
  | None =>
      throw (runtime_error MissingCapabilityError
               ("Error, gravity field model not set when making central " +:+
                " gravitational acceleration of " +:+ nameOfBodyExertingAcceleration +:+
                " on " +:+ nameOfBodyUndergoingAcceleration))
  | Some exertingField =>
      let* gravitationalParameterFunction_ :=
        selectGravitationalParameterFunction useCentralBodyFixedFrame_
          bodyUndergoingAcceleration
          (fun _ : unit => getGravitationalParameter exertingField) in
      make_shared
        {| positionOfBodySubjectToAcceleration := bodyUndergoingAcceleration;
           gravitationalParameterFunction := gravitationalParameterFunction_;
           positionOfBodyExertingAcceleration := bodyExertingAcceleration;
           isMutualAttractionUsed := useCentralBodyFixedFrame_ |}
  end.

(** [createMutualSphericalHarmonicsGravityAcceleration].  The fields of
    both bodies are fetched before either is checked. *)
Definition createMutualSphericalHarmonicsGravityAcceleration
    (bodyUndergoingAcceleration bodyExertingAcceleration : BodyPtr)
    (nameOfBodyUndergoingAcceleration nameOfBodyExertingAcceleration : string)
    (accelerationSettings : Settings)
    (useCentralBodyFixedFrame_ acceleratedBodyIsCentralBody : bool)
  : Cpp MutualSphericalHarmonicsGravitationalAccelerationModel :=
  match asMutualSphericalHarmonicAccelerationSettings accelerationSettings with
  | None =>
      throw (runtime_error ConfigurationError
               ("Error, expected mutual spherical harmonics acceleration settings when making acceleration model on " +:+
                nameOfBodyUndergoingAcceleration +:+ "due to " +:+
                nameOfBodyExertingAcceleration))
  | Some mutualSphericalHarmonicsSettings =>
      let* exerting := deref bodyExertingAcceleration in
      let* undergoing := deref bodyUndergoingAcceleration in
      match asSphericalHarmonicsGravityField (gravityFieldModel exerting) with
      | None =>
          throw (runtime_error MissingCapabilityError
                   ("Error " +:+ nameOfBodyExertingAcceleration +:+
                    " does not have a spherical harmonics gravity field " +:+
                    "when making mutual spherical harmonics gravity acceleration on " +:+
                    nameOfBodyUndergoingAcceleration))
      | Some sphericalHarmonicsGravityFieldOfBodyExertingAcceleration =>
          match asSphericalHarmonicsGravityField (gravityFieldModel undergoing) with
          | None =>
              throw (runtime_error MissingCapabilityError
                       ("Error " +:+ nameOfBodyUndergoingAcceleration +:+
                        " does not have a spherical harmonics gravity field " +:+
                        "when making mutual spherical harmonics gravity acceleration on " +:+
                        nameOfBodyUndergoingAcceleration))
          | Some sphericalHarmonicsGravityFieldOfBodyUndergoingAcceleration =>
              let gravitationalParameterFunction_ : unit -> double :=
                if negb useCentralBodyFixedFrame_ then
                  fun _ : unit =>
                    sh_gravitationalParameter
                      sphericalHarmonicsGravityFieldOfBodyExertingAcceleration
                else
                  fun _ : unit =>
                    evaluateDoubleFunctions
                      (fun _ : unit =>
                         sh_gravitationalParameter
                           sphericalHarmonicsGravityFieldOfBodyExertingAcceleration)
                      (fun _ : unit =>
                         sh_gravitationalParameter
                           sphericalHarmonicsGravityFieldOfBodyUndergoingAcceleration) in
              let '(maximumDegreeOfUndergoingBody, maximumOrderOfUndergoingBody) :=
                if negb acceleratedBodyIsCentralBody then
                  (maximumDegreeOfBodyUndergoingAcceleration_
                     mutualSphericalHarmonicsSettings,
                   maximumOrderOfBodyUndergoingAcceleration_
                     mutualSphericalHarmonicsSettings)
                else
                  (maximumDegreeOfCentralBody_ mutualSphericalHarmonicsSettings,
                   maximumOrderOfCentralBody_ mutualSphericalHarmonicsSettings) in
              make_shared
                {| mutual_positionOfBodySubjectToAcceleration := bodyUndergoingAcceleration;
                   mutual_positionOfBodyExertingAcceleration := bodyExertingAcceleration;
                   mutual_gravitationalParameterFunction := gravitationalParameterFunction_;
                   equatorialRadiusOfBodyExertingAcceleration :=
                     sh_referenceRadius
                       sphericalHarmonicsGravityFieldOfBodyExertingAcceleration;
                   equatorialRadiusOfBodyUndergoingAcceleration :=
                     sh_referenceRadius
                       sphericalHarmonicsGravityFieldOfBodyUndergoingAcceleration;
                   gravityFieldOfBodyExertingAcceleration :=
                     sphericalHarmonicsGravityFieldOfBodyExertingAcceleration;
                   maximumDegreeOfBodyExertingAcceleration :=
                     maximumDegreeOfBodyExertingAcceleration_
                       mutualSphericalHarmonicsSettings;
                   maximumOrderOfBodyExertingAcceleration :=
                     maximumOrderOfBodyExertingAcceleration_
                       mutualSphericalHarmonicsSettings;
                   gravityFieldOfBodyUndergoingAcceleration :=
                     sphericalHarmonicsGravityFieldOfBodyUndergoingAcceleration;
                   maximumDegreeOfBodyUndergoingAcceleration :=
                     maximumDegreeOfUndergoingBody;
                   maximumOrderOfBodyUndergoingAcceleration :=
                     maximumOrderOfUndergoingBody;
                   rotationOfBodyExertingAcceleration := bodyExertingAcceleration;
                   rotationOfBodyUndergoingAcceleration := bodyUndergoingAcceleration;
                   useCentralBodyFixedFrame := useCentralBodyFixedFrame_ |}
          end
      end
  end.

(** [bodyUndergoingAcceleration != NULL] *)
Definition isNotNull (p : BodyPtr) : bool :=
  match p with Some _ => true | None => false end.

(** [createDirectGravitationalAcceleration] *)
Definition createDirectGravitationalAcceleration
    (bodyUndergoingAcceleration bodyExertingAcceleration : BodyPtr)
    (nameOfBodyUndergoingAcceleration nameOfBodyExertingAcceleration : string)
    (accelerationSettings : Settings)
    (nameOfCentralBody : string)
    (isCentralBody : bool)
  : Cpp AccelerationModel :=
  let sumGravitationalParameters :=
    if String.eqb nameOfCentralBody nameOfBodyExertingAcceleration
       && isNotNull bodyUndergoingAcceleration
    then true else false in
  match accelerationType_ accelerationSettings with
  | central_gravity =>
      let* m := createCentralGravityAcceleratioModel
                  bodyUndergoingAcceleration bodyExertingAcceleration
                  nameOfBodyUndergoingAcceleration nameOfBodyExertingAcceleration
                  sumGravitationalParameters in
      ret (CentralGravityModel m)
  | spherical_harmonic_gravity =>
      let* m := Revised.createSphericalHarmonicsGravityAcceleration
                  bodyUndergoingAcceleration bodyExertingAcceleration
                  nameOfBodyUndergoingAcceleration nameOfBodyExertingAcceleration
                  (asEarlierClassSettings accelerationSettings)
                  sumGravitationalParameters in
      ret (SphericalHarmonicsModel m)
  | mutual_spherical_harmonic_gravity =>
      let* m := createMutualSphericalHarmonicsGravityAcceleration
                  bodyUndergoingAcceleration bodyExertingAcceleration
                  nameOfBodyUndergoingAcceleration nameOfBodyExertingAcceleration
                  accelerationSettings sumGravitationalParameters isCentralBody in
      ret (MutualSphericalHarmonicsModel m)
  | _ =>
      throw (runtime_error ConfigurationError
               ("Error when making gravitional acceleration model, cannot parse type " +:+
                lexical_cast platform (accelerationType_ accelerationSettings)))
  end.

(** The two legs of a third-body model are the arguments of one
    constructor call: the platform fixes the order in which they are
    built. *)
Definition buildLegs {DirectModel}
    (cast : AccelerationModel -> option DirectModel)
    (undergoingLeg centralLeg : Cpp AccelerationModel)
    (nameOfCentralBody : string)
  : Cpp (ThirdBodyAcceleration DirectModel) :=
  match argumentOrder platform with
  | LeftToRight =>
      let* first := undergoingLeg in
      let* second := centralLeg in
      make_shared {| accelerationModelForBodyUndergoingAcceleration := cast first;
                     accelerationModelForCentralBody := cast second;
                     centralBodyName := nameOfCentralBody |}
  | RightToLeft =>
      let* second := centralLeg in
      let* first := undergoingLeg in
      make_shared {| accelerationModelForBodyUndergoingAcceleration := cast first;
                     accelerationModelForCentralBody := cast second;
                     centralBodyName := nameOfCentralBody |}
  end.

(** [createThirdBodyGravitationalAcceleration] *)
Definition createThirdBodyGravitationalAcceleration
    (bodyUndergoingAcceleration bodyExertingAcceleration centralBody : BodyPtr)
    (nameOfBodyUndergoingAcceleration nameOfBodyExertingAcceleration
       nameOfCentralBody : string)
    (accelerationSettings : Settings)
  : Cpp AccelerationModel :=
  let undergoingLeg :=
    createDirectGravitationalAcceleration
      bodyUndergoingAcceleration bodyExertingAcceleration
      nameOfBodyUndergoingAcceleration nameOfBodyExertingAcceleration
      accelerationSettings "" false in
  let centralLeg :=
    createDirectGravitationalAcceleration
      centralBody bodyExertingAcceleration
      nameOfCentralBody nameOfBodyExertingAcceleration
      accelerationSettings "" true in
  match accelerationType_ accelerationSettings with
  | central_gravity =>
      let* m := buildLegs asCentralGravitationalAccelerationModel3d
                  undergoingLeg centralLeg nameOfCentralBody in
      ret (ThirdBodyCentralGravityModel m)
  | spherical_harmonic_gravity =>
      let* m := buildLegs asSphericalHarmonicsGravitationalAccelerationModel
                  undergoingLeg centralLeg nameOfCentralBody in
      ret (ThirdBodySphericalHarmonicsModel m)
  | mutual_spherical_harmonic_gravity =>
      let* m := buildLegs asMutualSphericalHarmonicsGravitationalAccelerationModel
                  undergoingLeg centralLeg nameOfCentralBody in
      ret (ThirdBodyMutualSphericalHarmonicsModel m)
  | _ =>
      throw (runtime_error ConfigurationError
               ("Error when making third-body gravitional acceleration model, cannot parse type " +:+
                lexical_cast platform (accelerationType_ accelerationSettings)))
  end.

(** [createGravitationalAccelerationModel] *)
Definition createGravitationalAccelerationModel
    (bodyUndergoingAcceleration bodyExertingAcceleration : BodyPtr)
    (accelerationSettings : Settings)
    (nameOfBodyUndergoingAcceleration nameOfBodyExertingAcceleration : string)
    (centralBody : BodyPtr)
    (nameOfCentralBody : string)
  : Cpp AccelerationModel :=
  if negb (AvailableAcceleration_eqb (accelerationType_ accelerationSettings)
             central_gravity)
     && negb (AvailableAcceleration_eqb (accelerationType_ accelerationSettings)
                spherical_harmonic_gravity)
     && negb (AvailableAcceleration_eqb (accelerationType_ accelerationSettings)
                mutual_spherical_harmonic_gravity)
  then
    throw (runtime_error ConfigurationError
             "Error when making gravitational acceleration, type is inconsistent")
  else if String.eqb nameOfCentralBody nameOfBodyExertingAcceleration
          || isFrameInertial nameOfCentralBody
  then
    createDirectGravitationalAcceleration
      bodyUndergoingAcceleration bodyExertingAcceleration
      nameOfBodyUndergoingAcceleration nameOfBodyExertingAcceleration
      accelerationSettings nameOfCentralBody false
  else
    createThirdBodyGravitationalAcceleration
      bodyUndergoingAcceleration bodyExertingAcceleration centralBody
      nameOfBodyUndergoingAcceleration nameOfBodyExertingAcceleration
      nameOfCentralBody accelerationSettings.

End Builders.

(** Observations: a third-body model both of whose legs are set, and the
    class of a model against the tag it was built for ([direct]: a direct
    model is expected, not a third-body one). *)
Definition bothLegsSet {DirectModel} (m : ThirdBodyAcceleration DirectModel) : bool :=
  match accelerationModelForBodyUndergoingAcceleration m,
        accelerationModelForCentralBody m with
  | Some _, Some _ => true
  | _, _ => false
  end.

Definition modelMatchesType (type : AvailableAcceleration) (direct : bool)
    (m : AccelerationModel) : bool :=
  match type, m with
  | central_gravity, CentralGravityModel _ => direct
  | central_gravity, ThirdBodyCentralGravityModel t => negb direct && bothLegsSet t
  | spherical_harmonic_gravity, SphericalHarmonicsModel _ => direct
  | spherical_harmonic_gravity, ThirdBodySphericalHarmonicsModel t =>
      negb direct && bothLegsSet t
  | mutual_spherical_harmonic_gravity, MutualSphericalHarmonicsModel _ => direct
  | mutual_spherical_harmonic_gravity, ThirdBodyMutualSphericalHarmonicsModel t =>
      negb direct && bothLegsSet t
  | _, _ => false
  end.

End RevisedGravitation.

(** ** The two revisions side by side *)

(** A central-gravity model of the earlier revision and one of the later
    revision that hold the same positions and the same gravitational
    parameter function; two outcomes of the dispatchers that agree: models
    of the same form that agree leg by leg, built in the same world, or
    the same exception. *)
Definition sameCentralModel (m : CentralGravitationalAccelerationModel3d)
    (m' : RevisedGravitation.CentralGravitationalAccelerationModel3d) : Prop :=
  cg_positionOfBodySubjectToAcceleration m = RevisedGravitation.positionOfBodySubjectToAcceleration m'
  /\ cg_gravitationalParameterFunction m = RevisedGravitation.gravitationalParameterFunction m'
  /\ cg_positionOfBodyExertingAcceleration m = RevisedGravitation.positionOfBodyExertingAcceleration m'.

Definition sameCentralGravityOutcome (earlier : Outcome AccelerationModel)
    (later : Outcome RevisedGravitation.AccelerationModel) : Prop :=
  match earlier, later with
  | Returned (CentralGravityModel m) w1, Returned (RevisedGravitation.CentralGravityModel m') w2 =>
      w1 = w2 /\ sameCentralModel m m'
  | Returned (ThirdBodyCentralGravityModel t) w1,
    Returned (RevisedGravitation.ThirdBodyCentralGravityModel t') w2 =>
      w1 = w2
      /\ exists m1 m2,
           RevisedGravitation.accelerationModelForBodyUndergoingAcceleration t' = Some m1
           /\ RevisedGravitation.accelerationModelForCentralBody t' = Some m2
           /\ sameCentralModel (accelerationModelForBodyUndergoingAcceleration t) m1
           /\ sameCentralModel (accelerationModelForCentralBody t) m2
           /\ RevisedGravitation.isMutualAttractionUsed m1 = false
           /\ RevisedGravitation.isMutualAttractionUsed m2 = false
  | Thrown x w1, Thrown x' w2 => x = x' /\ w1 = w2
  | _, _ => False
  end.

(** * Properties *)

(** ** Frame classifier *)

(** C10: a frame name is classified as inertial exactly when it is "SSB",
    the empty string or "Inertial"; every other name is non-inertial. *)
Theorem isFrameInertial_exactly_three (frame : string) :
  (isFrameInertial frame = true <->
     frame = "SSB" \/ frame = "" \/ frame = "Inertial")
  /\ (frame <> "SSB" -> frame <> "" -> frame <> "Inertial" ->
      isFrameInertial frame = false).
Proof.
  assert (Hiff : isFrameInertial frame = true <->
                 frame = "SSB" \/ frame = "" \/ frame = "Inertial").
  { unfold isFrameInertial.
    rewrite !orb_true_iff, !String.eqb_eq. tauto. }
  split; [exact Hiff|].
  intros H1 H2 H3.
  apply not_true_is_false. intros E.
  apply Hiff in E. tauto.
Qed.

(** ** Gravitational-parameter resolver *)

Lemma deref_pointee (w : World) (p : BodyPtr) (b : Body) :
  pointee w p = Some b -> deref p w = Returned b w.
Proof. intros H. unfold deref. now rewrite H. Qed.

Lemma select_flag_off (u : BodyPtr) (f : unit -> double) (w : World) :
  selectGravitationalParameterFunction false u f w = Returned f w.
Proof. reflexivity. Qed.

Lemma select_no_field (flag : bool) (u : BodyPtr) (f : unit -> double)
    (w : World) (ub : Body) :
  pointee w u = Some ub -> gravityFieldModel ub = None ->
  selectGravitationalParameterFunction flag u f w = Returned f w.
Proof.
  intros Hu Hg. destruct flag; [|reflexivity].
  unfold selectGravitationalParameterFunction, bind. simpl.
  rewrite (deref_pointee _ _ _ Hu), Hg. reflexivity.
Qed.

Lemma select_summed (u : BodyPtr) (f : unit -> double)
    (w : World) (ub : Body) (gu : GravityFieldModel) :
  pointee w u = Some ub -> gravityFieldModel ub = Some gu ->
  selectGravitationalParameterFunction true u f w =
    Returned (fun _ : unit =>
                evaluateDoubleFunctions f (fun _ : unit => getGravitationalParameter gu)) w.
Proof.
  intros Hu Hg.
  unfold selectGravitationalParameterFunction, bind. simpl.
  rewrite (deref_pointee _ _ _ Hu), Hg. reflexivity.
Qed.

(** C4: in both gravity builders the gravitational-parameter function of
    the model returns the exerting body's parameter alone when the flag is
    false or the undergoing body has no gravity field, and the sum of the
    two bodies' parameters when the flag is true and the undergoing body
    has a gravity field. *)
Theorem gravitational_parameter_resolution
    (w : World) (u e : BodyPtr) (un en : string)
    (exerting : Body) (g : GravityFieldModel)
    (He : pointee w e = Some exerting)
    (Hg : gravityFieldModel exerting = Some g) :
  (* central gravity *)
  (centralGravityParameter
     (createCentralGravityAcceleratioModel u e un en false w)
   = Some (getGravitationalParameter g))
  /\ (forall flag ub,
        pointee w u = Some ub -> gravityFieldModel ub = None ->
        centralGravityParameter
          (createCentralGravityAcceleratioModel u e un en flag w)
        = Some (getGravitationalParameter g))
  /\ (forall ub gu,
        pointee w u = Some ub -> gravityFieldModel ub = Some gu ->
        centralGravityParameter
          (createCentralGravityAcceleratioModel u e un en true w)
        = Some (PrimFloat.add (getGravitationalParameter g)
                              (getGravitationalParameter gu)))
  (* spherical harmonics *)
  /\ (forall field degree order,
        g = SphericalHarmonicsField field ->
        let settings := SphericalHarmonicAccelerationSettings degree order in
        (sphericalHarmonicsParameter
           (createSphericalHarmonicsGravityAcceleration u e un en settings false w)
         = Some (getGravitationalParameter g))
        /\ (forall flag ub,
              pointee w u = Some ub -> gravityFieldModel ub = None ->
              sphericalHarmonicsParameter
                (createSphericalHarmonicsGravityAcceleration u e un en settings flag w)
              = Some (getGravitationalParameter g))
        /\ (forall ub gu,
              pointee w u = Some ub -> gravityFieldModel ub = Some gu ->
              sphericalHarmonicsParameter
                (createSphericalHarmonicsGravityAcceleration u e un en settings true w)
              = Some (PrimFloat.add (getGravitationalParameter g)
                                    (getGravitationalParameter gu)))).
Proof.
  repeat split.
  - unfold createCentralGravityAcceleratioModel, bind.
    rewrite (deref_pointee _ _ _ He), Hg, select_flag_off. reflexivity.
  - intros flag ub Hu Hn.
    unfold createCentralGravityAcceleratioModel, bind.
    rewrite (deref_pointee _ _ _ He), Hg, (select_no_field _ _ _ _ _ Hu Hn).
    reflexivity.
  - intros ub gu Hu Hs.
    unfold createCentralGravityAcceleratioModel, bind.
    rewrite (deref_pointee _ _ _ He), Hg, (select_summed _ _ _ _ _ Hu Hs).
    reflexivity.
  - subst g.
    unfold createSphericalHarmonicsGravityAcceleration, bind.
    cbn [asSphericalHarmonicAccelerationSettings].
    rewrite (deref_pointee _ _ _ He), Hg.
    cbn [asSphericalHarmonicsGravityField].
    rewrite select_flag_off. reflexivity.
  - intros flag ub Hu Hn. subst g.
    unfold createSphericalHarmonicsGravityAcceleration, bind.
    cbn [asSphericalHarmonicAccelerationSettings].
    rewrite (deref_pointee _ _ _ He), Hg.
    cbn [asSphericalHarmonicsGravityField].
    rewrite (select_no_field _ _ _ _ _ Hu Hn). reflexivity.
  - intros ub gu Hu Hs. subst g.
    unfold createSphericalHarmonicsGravityAcceleration, bind.
    cbn [asSphericalHarmonicAccelerationSettings].
    rewrite (deref_pointee _ _ _ He), Hg.
    cbn [asSphericalHarmonicsGravityField].
    rewrite (select_summed _ _ _ _ _ Hu Hs). reflexivity.
Qed.

(** ** Central gravity: direct or third-body *)

Lemma pointee_recordConstruction (w : World) (p : BodyPtr) :
  pointee (recordConstruction w) p = pointee w p.
Proof. destruct p; reflexivity. Qed.

(** With the flag off the undergoing body is not inspected at all. *)
Lemma central_flag_off (w : World) (x e : BodyPtr) (xn en : string)
    (eb : Body) (g : GravityFieldModel) :
  pointee w e = Some eb -> gravityFieldModel eb = Some g ->
  createCentralGravityAcceleratioModel x e xn en false w =
    Returned {| cg_positionOfBodySubjectToAcceleration := x;
                cg_gravitationalParameterFunction :=
                  fun _ : unit => getGravitationalParameter g;
                cg_positionOfBodyExertingAcceleration := e |}
             (recordConstruction w).
Proof.
  intros He Hg. unfold createCentralGravityAcceleratioModel, bind.
  rewrite (deref_pointee _ _ _ He), Hg, select_flag_off. reflexivity.
Qed.

Lemma central_returns (w : World) (u e : BodyPtr) (un en : string) (flag : bool)
    (ub eb : Body) (g : GravityFieldModel) :
  pointee w u = Some ub -> pointee w e = Some eb ->
  gravityFieldModel eb = Some g ->
  exists m, createCentralGravityAcceleratioModel u e un en flag w =
            Returned m (recordConstruction w).
Proof.
  intros Hu He Hg. destruct flag.
  - unfold createCentralGravityAcceleratioModel, bind.
    rewrite (deref_pointee _ _ _ He), Hg.
    destruct (gravityFieldModel ub) as [gu|] eqn:Hgu.
    + rewrite (select_summed _ _ _ _ _ Hu Hgu). eexists. reflexivity.
    + rewrite (select_no_field _ _ _ _ _ Hu Hgu). eexists. reflexivity.
  - rewrite (central_flag_off _ _ _ _ _ _ _ He Hg). eexists. reflexivity.
Qed.

Lemma third_body_returns (platform : Platform) (w : World) (u e c : BodyPtr)
    (un en cn : string) (eb : Body) (g : GravityFieldModel) :
  pointee w e = Some eb -> gravityFieldModel eb = Some g ->
  createThirdBodyCentralGravityAccelerationModel platform u e c un en cn w =
    Returned
      {| accelerationModelForBodyUndergoingAcceleration :=
           {| cg_positionOfBodySubjectToAcceleration := u;
              cg_gravitationalParameterFunction :=
                fun _ : unit => getGravitationalParameter g;
              cg_positionOfBodyExertingAcceleration := e |};
         accelerationModelForCentralBody :=
           {| cg_positionOfBodySubjectToAcceleration := c;
              cg_gravitationalParameterFunction :=
                fun _ : unit => getGravitationalParameter g;
              cg_positionOfBodyExertingAcceleration := e |} |}
      (recordConstruction (recordConstruction (recordConstruction w))).
Proof.
  intros He Hg.
  assert (He1 : pointee (recordConstruction w) e = Some eb)
    by now rewrite pointee_recordConstruction.
  unfold createThirdBodyCentralGravityAccelerationModel, bind.
  destruct (argumentOrder platform).
  - rewrite (central_flag_off _ _ _ _ _ _ _ He Hg).
    rewrite (central_flag_off _ _ _ _ _ _ _ He1 Hg). reflexivity.
  - rewrite (central_flag_off _ _ _ _ _ _ _ He Hg).
    rewrite (central_flag_off _ _ _ _ _ _ _ He1 Hg). reflexivity.
Qed.

(** C1: for a central-gravity entry the dispatcher returns a direct model
    exactly when the central body is the exerting body or an inertial
    frame, built with the summed-parameter flag equal to "central body is
    the exerting body"; otherwise it returns the third-body composite of
    the two direct models built with the flag off for the same exerting
    body, on the undergoing body and on the central body, and the
    composite evaluates to the first minus the second. *)
Theorem central_gravity_dispatch
    (platform : Platform)
    (acceleration : CentralGravitationalAccelerationModel3d -> Vector3d)
    (w : World) (u e c : BodyPtr) (settings : AccelerationSettings)
    (un en cn : string) (ub eb : Body) (g : GravityFieldModel)
    (Ht : accelerationType_ settings = central_gravity)
    (Hu : pointee w u = Some ub)
    (He : pointee w e = Some eb)
    (Hg : gravityFieldModel eb = Some g) :
  exists m w',
    createAccelerationModel platform u e settings un en c cn w = Returned m w'
    /\ isDirectCentralGravity m = (String.eqb cn en || isFrameInertial cn)
    /\ isThirdBodyCentralGravity m = negb (String.eqb cn en || isFrameInertial cn)
    /\ (forall d, m = CentralGravityModel d ->
          returned (createCentralGravityAcceleratioModel
                      u e un en (String.eqb cn en) w) = Some d)
    /\ (forall t, m = ThirdBodyCentralGravityModel t ->
          returned (createCentralGravityAcceleratioModel u e un en false w)
            = Some (accelerationModelForBodyUndergoingAcceleration t)
          /\ returned (createCentralGravityAcceleratioModel c e cn en false w)
               = Some (accelerationModelForCentralBody t)
          /\ thirdBodyAcceleration acceleration t =
               vectorDifference
                 (acceleration (accelerationModelForBodyUndergoingAcceleration t))
                 (acceleration (accelerationModelForCentralBody t))).
Proof.
  unfold createAccelerationModel. rewrite Ht.
  destruct (String.eqb cn en || isFrameInertial cn) eqn:Hc.
  - destruct (central_returns w u e un en (String.eqb cn en) ub eb g Hu He Hg)
      as [m Hm].
    exists (CentralGravityModel m), (recordConstruction w).
    assert (Hflag : (if String.eqb cn en then true else false) = String.eqb cn en)
      by now destruct (String.eqb cn en).
    unfold bind. rewrite Hflag, Hm.
    split; [reflexivity|]. split; [reflexivity|]. split; [reflexivity|]. split.
    + intros d Hd. injection Hd as <-. reflexivity.
    + intros t Hd. discriminate Hd.
  - unfold bind.
    rewrite (third_body_returns platform w u e c un en cn eb g He Hg).
    eexists _, _. split; [reflexivity|].
    split; [reflexivity|]. split; [reflexivity|]. split.
    + intros d Hd. discriminate Hd.
    + intros t Ht'. injection Ht' as <-.
      rewrite !(central_flag_off _ _ _ _ _ _ _ He Hg).
      split; [reflexivity|]. split; reflexivity.
Qed.

(** The resolver returns in the world it was called in, or fails on the
    dereference of the undergoing body. *)
Lemma select_outcome (flag : bool) (u : BodyPtr) (f : unit -> double) (w : World) :
  (exists f', selectGravitationalParameterFunction flag u f w = Returned f' w)
  \/ selectGravitationalParameterFunction flag u f w = Thrown invalid_dereference w.
Proof.
  destruct flag; [|left; eexists; reflexivity].
  unfold selectGravitationalParameterFunction, bind, deref. simpl.
  destruct (pointee w u) as [ub|]; [|right; reflexivity].
  destruct (gravityFieldModel ub); left; eexists; reflexivity.
Qed.

(** ** Spherical harmonics: no third-body form in this revision *)

(** C5 (as amended): for a spherical-harmonic entry whose central body is
    neither the exerting body nor an inertial frame the dispatcher builds
    nothing: it throws "cannot yet make third body spherical harmonic
    acceleration" and leaves the world as it was. *)
Theorem third_body_spherical_harmonics_rejected
    (platform : Platform) (w : World) (u e c : BodyPtr)
    (settings : AccelerationSettings) (un en cn : string)
    (Ht : accelerationType_ settings = spherical_harmonic_gravity)
    (Hne : String.eqb cn en = false)
    (Hni : isFrameInertial cn = false) :
  createAccelerationModel platform u e settings un en c cn w =
    Thrown (runtime_error ConfigurationError
              "Error, cannot yet make third body spherical harmonic acceleration.") w.
Proof.
  unfold createAccelerationModel. rewrite Ht, Hne, Hni. reflexivity.
Qed.

(** The direct form is built when the central body is the exerting body or
    an inertial frame. *)
Lemma direct_spherical_harmonics_built
    (platform : Platform) (w : World) (u e c : BodyPtr)
    (degree order : nat) (un en cn : string)
    (ub eb : Body) (field : SphericalHarmonicsGravityField) :
  String.eqb cn en || isFrameInertial cn = true ->
  pointee w u = Some ub -> pointee w e = Some eb ->
  gravityFieldModel eb = Some (SphericalHarmonicsField field) ->
  exists m,
    createAccelerationModel platform u e
      (SphericalHarmonicAccelerationSettings degree order) un en c cn w
    = Returned (SphericalHarmonicsModel m) (recordConstruction w).
Proof.
  intros Hc Hu He Hg.
  unfold createAccelerationModel. cbn [accelerationType_]. rewrite Hc.
  unfold createSphericalHarmonicsGravityAcceleration, bind.
  cbn [asSphericalHarmonicAccelerationSettings].
  rewrite (deref_pointee _ _ _ He), Hg.
  cbn [asSphericalHarmonicsGravityField].
  destruct (String.eqb cn en).
  - destruct (gravityFieldModel ub) as [gu|] eqn:Hgu.
    + rewrite (select_summed _ _ _ _ _ Hu Hgu). eexists. reflexivity.
    + rewrite (select_no_field _ _ _ _ _ Hu Hgu). eexists. reflexivity.
  - rewrite select_flag_off. eexists. reflexivity.
Qed.

(** ** Cannonball radiation pressure: the missing [break] *)

Lemma cannonball_builder_outcome (w : World) (u e : BodyPtr) (un en : string)
    (ub : Body) :
  pointee w u = Some ub ->
  createCannonballRadiationPressureAcceleratioModel u e un en w =
    match radiationPressureInterfaces ub !! en with
    | Some i =>
        Returned {| rp_sourcePosition := e; rp_acceleratedBodyPosition := u;
                    rp_interface := i; rp_massOf := u |}
                 (recordConstruction w)
    | None =>
        Thrown (runtime_error MissingCapabilityError
                  ("Error when making radiation pressure, no radiation pressure interface found  in " +:+
                   un +:+ " for body " +:+ en)) w
    end.
Proof.
  intros Hu. unfold createCannonballRadiationPressureAcceleratioModel, bind.
  rewrite (deref_pointee _ _ _ Hu).
  destruct (radiationPressureInterfaces ub !! en); reflexivity.
Qed.

(** Whatever the bodies own, the dispatcher returns no model for a
    cannonball entry. *)
Lemma cannonball_dispatch_never_returns
    (platform : Platform) (w : World) (u e c : BodyPtr)
    (settings : AccelerationSettings) (un en cn : string) :
  accelerationType_ settings = cannon_ball_radiation_pressure ->
  returned (createAccelerationModel platform u e settings un en c cn w) = None.
Proof.
  intros Ht. unfold createAccelerationModel. rewrite Ht. unfold bind.
  destruct (createCannonballRadiationPressureAcceleratioModel u e un en w);
    reflexivity.
Qed.

(** The error is the missing-capability one exactly when the interface is
    absent; with the interface present it is the "not recognized" one. *)
Lemma cannonball_missing_capability_iff
    (platform : Platform) (w : World) (u e c : BodyPtr)
    (settings : AccelerationSettings) (un en cn : string) (ub : Body) :
  accelerationType_ settings = cannon_ball_radiation_pressure ->
  pointee w u = Some ub ->
  (thrownKind (createAccelerationModel platform u e settings un en c cn w)
     = Some MissingCapabilityError
   <-> radiationPressureInterfaces ub !! en = None)
  /\ (is_Some (radiationPressureInterfaces ub !! en) ->
      thrownKind (createAccelerationModel platform u e settings un en c cn w)
        = Some ConfigurationError).
Proof.
  intros Ht Hu. unfold createAccelerationModel. rewrite Ht. unfold bind.
  rewrite (cannonball_builder_outcome w u e un en ub Hu).
  destruct (radiationPressureInterfaces ub !! en) as [i|]; simpl.
  - split; [split; discriminate|]. reflexivity.
  - split; [split; reflexivity|]. intros [x Hx]. discriminate Hx.
Qed.

(** C3 (failing input): the Satellite owns a radiation-pressure interface
    keyed "Sun", the builder returns the model, and the dispatcher then
    throws "not recognized" instead of returning it. *)
Theorem cannonball_with_interface_not_returned :
  radiationPressureInterfaces Scenario.Satellite !! "Sun" = Some 1%positive
  /\ returned (createCannonballRadiationPressureAcceleratioModel
                Scenario.pSatellite Scenario.pSun "Satellite" "Sun" Scenario.world)
     = Some {| rp_sourcePosition := Scenario.pSun;
               rp_acceleratedBodyPosition := Scenario.pSatellite;
               rp_interface := 1%positive;
               rp_massOf := Scenario.pSatellite |}
  /\ createAccelerationModel (Scenario.platform LeftToRight)
       Scenario.pSatellite Scenario.pSun
       (BaseAccelerationSettings cannon_ball_radiation_pressure)
       "Satellite" "Sun" Scenario.pEarth "Earth" Scenario.world
     = Thrown (runtime_error ConfigurationError
                 "Error, acceleration model 2 not recognized when making acceleration model ofSun on Satellite")
              (recordConstruction Scenario.world).
Proof.
  split; [vm_compute; reflexivity|].
  split; vm_compute; reflexivity.
Qed.

(** ** Spherical harmonics: the frame consistency check *)

(** The builder of this revision does not look at the rotation model of
    the exerting body: with a spherical-harmonics field and consistent
    settings it returns, whatever the frames are. *)
Lemma spherical_harmonics_builder_ignores_rotation
    (w : World) (u e : BodyPtr) (un en : string) (degree order : nat)
    (flag : bool) (ub eb : Body) (field : SphericalHarmonicsGravityField) :
  pointee w u = Some ub -> pointee w e = Some eb ->
  gravityFieldModel eb = Some (SphericalHarmonicsField field) ->
  exists m,
    createSphericalHarmonicsGravityAcceleration u e un en
      (SphericalHarmonicAccelerationSettings degree order) flag w
    = Returned m (recordConstruction w).
Proof.
  intros Hu He Hg.
  unfold createSphericalHarmonicsGravityAcceleration, bind.
  cbn [asSphericalHarmonicAccelerationSettings].
  rewrite (deref_pointee _ _ _ He), Hg.
  cbn [asSphericalHarmonicsGravityField].
  destruct flag.
  - destruct (gravityFieldModel ub) as [gu|] eqn:Hgu.
    + rewrite (select_summed _ _ _ _ _ Hu Hgu). eexists. reflexivity.
    + rewrite (select_no_field _ _ _ _ _ Hu Hgu). eexists. reflexivity.
  - rewrite select_flag_off. eexists. reflexivity.
Qed.

Lemma spherical_harmonics_builder_never_frame_mismatch
    (w : World) (u e : BodyPtr) (un en : string)
    (settings : AccelerationSettings) (flag : bool) :
  thrownKind (createSphericalHarmonicsGravityAcceleration u e un en settings flag w)
    <> Some FrameMismatchError.
Proof.
  unfold createSphericalHarmonicsGravityAcceleration, bind, deref.
  destruct (asSphericalHarmonicAccelerationSettings settings) as [[d o]|];
    [|discriminate].
  destruct (pointee w e) as [eb|]; [|discriminate].
  destruct (asSphericalHarmonicsGravityField (gravityFieldModel eb)) as [f|];
    [|discriminate].
  destruct (select_outcome flag u
              (fun _ : unit => sh_gravitationalParameter f) w) as [[f' ->] | ->];
    discriminate.
Qed.

(** The later revision of the builder throws the frame-mismatch error
    exactly when the target frame of the rotation model differs from the
    fixed frame of the field. *)
Lemma revised_frame_mismatch_iff
    (w : World) (u e : BodyPtr) (un en : string) (degree order : nat)
    (flag : bool) (ub eb : Body) (field : SphericalHarmonicsGravityField)
    (rotation : RotationalEphemeris) :
  pointee w u = Some ub -> pointee w e = Some eb ->
  gravityFieldModel eb = Some (SphericalHarmonicsField field) ->
  rotationalEphemeris eb = Some rotation ->
  (thrownKind (Revised.createSphericalHarmonicsGravityAcceleration u e un en
                 (SphericalHarmonicAccelerationSettings degree order) flag w)
     = Some FrameMismatchError
   <-> targetFrameOrientation rotation <> sh_fixedReferenceFrame field)
  /\ (targetFrameOrientation rotation = sh_fixedReferenceFrame field ->
      exists m,
        Revised.createSphericalHarmonicsGravityAcceleration u e un en
          (SphericalHarmonicAccelerationSettings degree order) flag w
        = Returned m (recordConstruction w)).
Proof.
  intros Hu He Hg Hr.
  unfold Revised.createSphericalHarmonicsGravityAcceleration, bind.
  cbn [asSphericalHarmonicAccelerationSettings].
  rewrite (deref_pointee _ _ _ He), Hg.
  cbn [asSphericalHarmonicsGravityField]. rewrite Hr.
  destruct (String.eqb_spec (targetFrameOrientation rotation)
              (sh_fixedReferenceFrame field)) as [Heq|Hneq]; cbn [negb].
  - assert (Hret : exists m,
               (let* gravitationalParameterFunction_ :=
                  selectGravitationalParameterFunction flag u
                    (fun _ : unit => sh_gravitationalParameter field) in
                make_shared
                  {| Revised.positionOfBodySubjectToAcceleration := u;
                     Revised.gravitationalParameterFunction := gravitationalParameterFunction_;
                     Revised.equatorialRadius := sh_referenceRadius field;
                     Revised.gravityField := field;
                     Revised.maximumDegree := degree;
                     Revised.maximumOrder := order;
                     Revised.positionOfBodyExertingAcceleration := e;
                     Revised.rotationFromBodyFixedToIntegrationFrame := e;
                     Revised.isMutualAttractionUsed := flag |}) w
               = Returned m (recordConstruction w)).
    { unfold bind. destruct flag.
      - destruct (gravityFieldModel ub) as [gu|] eqn:Hgu.
        + rewrite (select_summed _ _ _ _ _ Hu Hgu). eexists. reflexivity.
        + rewrite (select_no_field _ _ _ _ _ Hu Hgu). eexists. reflexivity.
      - rewrite select_flag_off. eexists. reflexivity. }
    destruct Hret as [m Hm]. unfold bind in Hm. rewrite Hm.
    split; [|intros _; exists m; reflexivity].
    split; [discriminate|]. intros Hne. contradiction.
  - split; [|intros Heq; contradiction].
    split; [intros _; exact Hneq|]. reflexivity.
Qed.

(** C7 (as amended): the builder of this revision does not consult the
    rotation model.  For an exerting body that owns a spherical-harmonics
    field and a rotational ephemeris it returns the model whatever the two
    frames are, and it never throws the frame-mismatch error.  The check
    is made by the builder of the later revision, which throws the
    frame-mismatch error exactly when the target frame of the rotational
    ephemeris differs from the fixed frame of the field. *)
Theorem frame_consistency_checked_only_by_later_revision
    (w : World) (u e : BodyPtr) (un en : string) (degree order : nat)
    (flag : bool) (ub eb : Body) (field : SphericalHarmonicsGravityField)
    (rotation : RotationalEphemeris)
    (Hu : pointee w u = Some ub) (He : pointee w e = Some eb)
    (Hg : gravityFieldModel eb = Some (SphericalHarmonicsField field))
    (Hr : rotationalEphemeris eb = Some rotation) :
  (exists m,
     createSphericalHarmonicsGravityAcceleration u e un en
       (SphericalHarmonicAccelerationSettings degree order) flag w
     = Returned m (recordConstruction w))
  /\ (forall settings,
        thrownKind (createSphericalHarmonicsGravityAcceleration
                      u e un en settings flag w)
        <> Some FrameMismatchError)
  /\ (thrownKind (Revised.createSphericalHarmonicsGravityAcceleration u e un en
                    (SphericalHarmonicAccelerationSettings degree order) flag w)
        = Some FrameMismatchError
      <-> targetFrameOrientation rotation <> sh_fixedReferenceFrame field).
Proof.
  split; [|split].
  - exact (spherical_harmonics_builder_ignores_rotation
             w u e un en degree order flag ub eb field Hu He Hg).
  - intros settings.
    apply spherical_harmonics_builder_never_frame_mismatch.
  - exact (proj1 (revised_frame_mismatch_iff
                    w u e un en degree order flag ub eb field rotation
                    Hu He Hg Hr)).
Qed.

(** C7 (counterexample): Mars owns a spherical-harmonics field fixed to
    "IAU_Mars" and a rotation model whose target frame is "IAU_Earth".
    The builder, called directly or through the dispatcher with Mars as
    central body, returns a model; the builder of the later revision
    throws the frame-mismatch error on the same input. *)
Lemma spherical_harmonics_frame_mismatch_not_detected :
  gravityFieldModel Scenario.Mars = Some (SphericalHarmonicsField Scenario.marsField)
  /\ sh_fixedReferenceFrame Scenario.marsField = "IAU_Mars"
  /\ (targetFrameOrientation <$> rotationalEphemeris Scenario.Mars) = Some "IAU_Earth"
  /\ hasReturned
       (createSphericalHarmonicsGravityAcceleration
          Scenario.pSatellite Scenario.pMars "Satellite" "Mars"
          (SphericalHarmonicAccelerationSettings 4 4) false Scenario.world) = true
  /\ hasReturned
       (createAccelerationModel (Scenario.platform LeftToRight)
          Scenario.pSatellite Scenario.pMars
          (SphericalHarmonicAccelerationSettings 4 4)
          "Satellite" "Mars" Scenario.pMars "Mars" Scenario.world) = true
  /\ thrownKind
       (Revised.createSphericalHarmonicsGravityAcceleration
          Scenario.pSatellite Scenario.pMars "Satellite" "Mars"
          (SphericalHarmonicAccelerationSettings 4 4) false Scenario.world)
     = Some FrameMismatchError.
Proof.
  repeat split; vm_compute; reflexivity.
Qed.

(** ** Aerodynamic acceleration: lazily attached flight conditions *)

(** Every path through the aerodynamic builder. *)
Lemma aerodynamic_builder_outcome
    (platform : Platform) (w : World) (a : positive) (e : BodyPtr)
    (un en : string) (ub : Body) :
  bodies w !! a = Some ub ->
  createAerodynamicAcceleratioModel platform (Some a) e un en w =
    match aerodynamicCoefficientInterface ub with
    | None =>
        Thrown (runtime_error MissingCapabilityError
                  ("Error when making aerodynamic acceleration, body " +:+
                   un +:+ "has no aerodynamic coefficients.")) w
    | Some coefficients =>
        match pointee w e with
        | None => Thrown invalid_dereference w
        | Some eb =>
            match atmosphereModel eb with
            | None =>
                Thrown (runtime_error MissingCapabilityError
                          ("Error when making aerodynamic acceleration, central body " +:+
                           en +:+ " has no atmosphere model.")) w
            | Some _ =>
                match shapeModel eb with
                | None =>
                    Thrown (runtime_error MissingCapabilityError
                              ("Error when making aerodynamic acceleration, central body " +:+
                               en +:+ " has no shape model.")) w
                | Some _ =>
                    match flightConditions ub with
                    | Some fc =>
                        Returned (aerodynamicModelWith coefficients fc (Some a))
                                 (recordConstruction w)
                    | None =>
                        match flightConditionsFactoryCheck platform w (Some a) e un en with
                        | Some x => Thrown x w
                        | None =>
                            Returned
                              (aerodynamicModelWith coefficients
                                 (S (flightConditionsCreated w)) (Some a))
                              (recordConstruction (attachNew w a ub))
                        end
                    end
                end
            end
        end
    end.
Proof.
  intros Hu.
  unfold createAerodynamicAcceleratioModel, bind, deref. simpl pointee at 1.
  rewrite Hu.
  destruct (aerodynamicCoefficientInterface ub) as [coefficients|] eqn:Hc;
    [|reflexivity].
  destruct (pointee w e) as [eb|]; [|reflexivity].
  destruct (atmosphereModel eb); [|reflexivity].
  destruct (shapeModel eb); [|reflexivity].
  destruct (flightConditions ub) as [fc|] eqn:Hfc.
  - unfold ret. simpl pointee. rewrite Hu, Hc. reflexivity.
  - unfold createFlightConditions.
    destruct (flightConditionsFactoryCheck platform w (Some a) e un en);
      [reflexivity|].
    unfold update. cbn [bodies]. rewrite Hu.
    cbn [pointee bodies]. rewrite !lookup_insert_eq.
    cbn [setFlightConditions flightConditions aerodynamicCoefficientInterface].
    unfold ret. cbn [bodies]. rewrite lookup_insert_eq.
    cbn [setFlightConditions aerodynamicCoefficientInterface].
    rewrite Hc. reflexivity.
Qed.

(** C8: building an aerodynamic model changes no body but the undergoing
    one, and that one only by attaching a flight-conditions object when it
    has none; flight conditions already attached are reused unchanged, so
    a second build for the same body creates nothing and its model shares
    the instance of the first. *)
Theorem aerodynamic_flight_conditions_attached_once
    (platform : Platform) (w : World) (a : positive) (e : BodyPtr)
    (un en : string) (ub : Body)
    (Hu : bodies w !! a = Some ub) :
  let o := createAerodynamicAcceleratioModel platform (Some a) e un en w in
  (* other bodies are untouched *)
  (forall a', a' <> a -> bodies (worldOf o) !! a' = bodies w !! a')
  (* the undergoing body is unchanged, or has gained flight conditions *)
  /\ (bodies (worldOf o) !! a = Some ub
      \/ (flightConditions ub = None
          /\ bodies (worldOf o) !! a =
             Some (setFlightConditions (S (flightConditionsCreated w)) ub)))
  (* attached already: nothing is created, the model uses them *)
  /\ (forall fc, flightConditions ub = Some fc ->
        bodies (worldOf o) = bodies w
        /\ flightConditionsCreated (worldOf o) = flightConditionsCreated w
        /\ (forall m w', o = Returned m w' ->
              aero_densityFrom m = fc /\ aero_airSpeedFrom m = fc))
  (* not attached: one object is created, attached and used *)
  /\ (flightConditions ub = None ->
        forall m w', o = Returned m w' ->
          flightConditionsCreated w' = S (flightConditionsCreated w)
          /\ (flightConditions <$> bodies w' !! a)
             = Some (Some (S (flightConditionsCreated w)))
          /\ aero_densityFrom m = S (flightConditionsCreated w)
          /\ aero_airSpeedFrom m = S (flightConditionsCreated w))
  (* a failed build leaves the bodies as they were *)
  /\ (forall x w', o = Thrown x w' ->
        bodies w' = bodies w
        /\ flightConditionsCreated w' = flightConditionsCreated w)
  (* a second build for the same body reuses the instance of the first *)
  /\ (forall m1 w1, o = Returned m1 w1 ->
        forall e2 en2 m2 w2,
          createAerodynamicAcceleratioModel platform (Some a) e2 un en2 w1
            = Returned m2 w2 ->
          bodies w2 = bodies w1
          /\ flightConditionsCreated w2 = flightConditionsCreated w1
          /\ aero_densityFrom m2 = aero_densityFrom m1
          /\ aero_airSpeedFrom m2 = aero_airSpeedFrom m1).
Proof.
  intros o.
  assert (Ho : o = createAerodynamicAcceleratioModel platform (Some a) e un en w)
    by reflexivity.
  rewrite (aerodynamic_builder_outcome platform w a e un en ub Hu) in Ho.
  (* the state of the undergoing body after a successful build *)
  assert (Hafter : forall m1 w1, o = Returned m1 w1 ->
            exists ub1, bodies w1 !! a = Some ub1
                        /\ flightConditions ub1 = Some (aero_densityFrom m1)
                        /\ aero_airSpeedFrom m1 = aero_densityFrom m1).
  { intros m1 w1 Hr. rewrite Hr in Ho.
    destruct (aerodynamicCoefficientInterface ub); [|discriminate].
    destruct (pointee w e) as [eb|]; [|discriminate].
    destruct (atmosphereModel eb); [|discriminate].
    destruct (shapeModel eb); [|discriminate].
    destruct (flightConditions ub) as [fc|] eqn:Hfc.
    - injection Ho as -> ->. exists ub. cbn. now rewrite Hu.
    - destruct (flightConditionsFactoryCheck platform w (Some a) e un en);
        [discriminate|].
      injection Ho as -> ->.
      exists (setFlightConditions (S (flightConditionsCreated w)) ub).
      cbn. now rewrite lookup_insert_eq. }
  (* a build on a body that has flight conditions *)
  assert (Hreuse : forall w0 ub0 fc e0 en0 m0 w0',
            bodies w0 !! a = Some ub0 -> flightConditions ub0 = Some fc ->
            createAerodynamicAcceleratioModel platform (Some a) e0 un en0 w0
              = Returned m0 w0' ->
            bodies w0' = bodies w0
            /\ flightConditionsCreated w0' = flightConditionsCreated w0
            /\ aero_densityFrom m0 = fc /\ aero_airSpeedFrom m0 = fc).
  { intros w0 ub0 fc e0 en0 m0 w0' Hb Hfc Hr.
    rewrite (aerodynamic_builder_outcome platform w0 a e0 un en0 ub0 Hb) in Hr.
    destruct (aerodynamicCoefficientInterface ub0); [|discriminate].
    destruct (pointee w0 e0) as [eb|]; [|discriminate].
    destruct (atmosphereModel eb); [|discriminate].
    destruct (shapeModel eb); [|discriminate].
    rewrite Hfc in Hr. injection Hr as <- <-. cbn. tauto. }
  split; [|split; [|split; [|split; [|split]]]].
  - intros a' Hne. rewrite Ho.
    destruct (aerodynamicCoefficientInterface ub); [|reflexivity].
    destruct (pointee w e) as [eb|]; [|reflexivity].
    destruct (atmosphereModel eb); [|reflexivity].
    destruct (shapeModel eb); [|reflexivity].
    destruct (flightConditions ub); [reflexivity|].
    destruct (flightConditionsFactoryCheck platform w (Some a) e un en);
      [reflexivity|].
    cbn. now rewrite lookup_insert_ne.
  - rewrite Ho.
    destruct (aerodynamicCoefficientInterface ub); [|now left].
    destruct (pointee w e) as [eb|]; [|now left].
    destruct (atmosphereModel eb); [|now left].
    destruct (shapeModel eb); [|now left].
    destruct (flightConditions ub); [now left|].
    destruct (flightConditionsFactoryCheck platform w (Some a) e un en);
      [now left|].
    right. split; [reflexivity|]. cbn. now rewrite lookup_insert_eq.
  - intros fc Hfc. rewrite Ho.
    destruct (aerodynamicCoefficientInterface ub);
      [|repeat split; intros; discriminate].
    destruct (pointee w e) as [eb|]; [|repeat split; intros; discriminate].
    destruct (atmosphereModel eb); [|repeat split; intros; discriminate].
    destruct (shapeModel eb); [|repeat split; intros; discriminate].
    rewrite Hfc. split; [reflexivity|]. split; [reflexivity|].
    intros m w' Hr. injection Hr as <- _. split; reflexivity.
  - intros Hfc m w' Hr. rewrite Hr in Ho.
    destruct (aerodynamicCoefficientInterface ub); [|discriminate].
    destruct (pointee w e) as [eb|]; [|discriminate].
    destruct (atmosphereModel eb); [|discriminate].
    destruct (shapeModel eb); [|discriminate].
    rewrite Hfc in Ho.
    destruct (flightConditionsFactoryCheck platform w (Some a) e un en);
      [discriminate|].
    injection Ho as -> ->. cbn. rewrite lookup_insert_eq. cbn. tauto.
  - intros x w' Hr. rewrite Hr in Ho.
    destruct (aerodynamicCoefficientInterface ub);
      [|injection Ho as _ ->; tauto].
    destruct (pointee w e) as [eb|]; [|injection Ho as _ ->; tauto].
    destruct (atmosphereModel eb); [|injection Ho as _ ->; tauto].
    destruct (shapeModel eb); [|injection Ho as _ ->; tauto].
    destruct (flightConditions ub); [discriminate|].
    destruct (flightConditionsFactoryCheck platform w (Some a) e un en);
      [injection Ho as _ ->; tauto|discriminate].
  - intros m1 w1 Hr e2 en2 m2 w2 Hr2.
    destruct (Hafter m1 w1 Hr) as (ub1 & Hb1 & Hfc1 & Hair).
    destruct (Hreuse w1 ub1 _ e2 en2 m2 w2 Hb1 Hfc1 Hr2) as (H1 & H2 & H3 & H4).
    rewrite Hair. tauto.
Qed.

(** ** What a run of the assembler leaves behind *)

Lemma sameGravity_refl (w : World) : sameGravity w w.
Proof. intros a. reflexivity. Qed.

Lemma sameGravity_trans (w1 w2 w3 : World) :
  sameGravity w1 w2 -> sameGravity w2 w3 -> sameGravity w1 w3.
Proof. intros H12 H23 a. now rewrite H23, H12. Qed.

Lemma sameGravity_of_bodies (w w' : World) :
  bodies w' = bodies w -> sameGravity w w'.
Proof. intros H a. now rewrite H. Qed.

Lemma stable_bind {A B} (c : Cpp A) (k : A -> Cpp B) :
  stable sameGravity c -> (forall x, stable sameGravity (k x)) ->
  stable sameGravity (bind c k).
Proof.
  intros Hc Hk w. unfold bind. specialize (Hc w).
  destruct (c w) as [x w'|x w']; [|exact Hc].
  eapply sameGravity_trans; [exact Hc|apply Hk].
Qed.

Lemma stable_ret {A} (x : A) : stable sameGravity (ret x).
Proof. intros w. apply sameGravity_refl. Qed.

Lemma stable_throw {A} (x : Exception) : stable sameGravity (@throw A x).
Proof. intros w. apply sameGravity_refl. Qed.

Lemma stable_deref (p : BodyPtr) : stable sameGravity (deref p).
Proof.
  intros w. unfold deref. destruct (pointee w p); apply sameGravity_refl.
Qed.

Lemma stable_make_shared {A} (x : A) : stable sameGravity (make_shared x).
Proof. intros w. now apply sameGravity_of_bodies. Qed.

Lemma stable_select (flag : bool) (u : BodyPtr) (f : unit -> double) :
  stable sameGravity (selectGravitationalParameterFunction flag u f).
Proof.
  intros w.
  destruct (select_outcome flag u f w) as [[f' ->] | ->]; apply sameGravity_refl.
Qed.

Lemma stable_central (u e : BodyPtr) (un en : string) (flag : bool) :
  stable sameGravity (createCentralGravityAcceleratioModel u e un en flag).
Proof.
  unfold createCentralGravityAcceleratioModel.
  apply stable_bind; [apply stable_deref|]. intros eb.
  destruct (gravityFieldModel eb); [|apply stable_throw].
  apply stable_bind; [apply stable_select|]. intros f. apply stable_make_shared.
Qed.

Lemma stable_spherical_harmonics (u e : BodyPtr) (un en : string)
    (settings : AccelerationSettings) (flag : bool) :
  stable sameGravity
    (createSphericalHarmonicsGravityAcceleration u e un en settings flag).
Proof.
  unfold createSphericalHarmonicsGravityAcceleration.
  destruct (asSphericalHarmonicAccelerationSettings settings) as [[d o]|];
    [|apply stable_throw].
  apply stable_bind; [apply stable_deref|]. intros eb.
  destruct (asSphericalHarmonicsGravityField (gravityFieldModel eb));
    [|apply stable_throw].
  apply stable_bind; [apply stable_select|]. intros f. apply stable_make_shared.
Qed.

Lemma stable_third_body (platform : Platform) (u e c : BodyPtr) (un en cn : string) :
  stable sameGravity
    (createThirdBodyCentralGravityAccelerationModel platform u e c un en cn).
Proof.
  unfold createThirdBodyCentralGravityAccelerationModel.
  destruct (argumentOrder platform);
    (apply stable_bind; [apply stable_central|]; intros m1;
     apply stable_bind; [apply stable_central|]; intros m2;
     apply stable_make_shared).
Qed.

Lemma stable_cannonball (u e : BodyPtr) (un en : string) :
  stable sameGravity (createCannonballRadiationPressureAcceleratioModel u e un en).
Proof.
  unfold createCannonballRadiationPressureAcceleratioModel.
  apply stable_bind; [apply stable_deref|]. intros ub.
  destruct (radiationPressureInterfaces ub !! en);
    [apply stable_make_shared|apply stable_throw].
Qed.

Lemma stable_aerodynamic (platform : Platform) (u e : BodyPtr) (un en : string) :
  stable sameGravity (createAerodynamicAcceleratioModel platform u e un en).
Proof.
  intros w. destruct u as [a|].
  - destruct (bodies w !! a) as [ub|] eqn:Hu.
    + rewrite (aerodynamic_builder_outcome platform w a e un en ub Hu).
      destruct (aerodynamicCoefficientInterface ub); [|apply sameGravity_refl].
      destruct (pointee w e) as [eb|]; [|apply sameGravity_refl].
      destruct (atmosphereModel eb); [|apply sameGravity_refl].
      destruct (shapeModel eb); [|apply sameGravity_refl].
      destruct (flightConditions ub);
        [now apply sameGravity_of_bodies|].
      destruct (flightConditionsFactoryCheck platform w (Some a) e un en);
        [apply sameGravity_refl|].
      intros a'. cbn [worldOf recordConstruction attachNew bodies].
      destruct (decide (a' = a)) as [->|Hne].
      * now rewrite lookup_insert_eq, Hu.
      * now rewrite lookup_insert_ne.
    + unfold createAerodynamicAcceleratioModel, bind, deref. cbn [pointee].
      rewrite Hu. apply sameGravity_refl.
  - apply sameGravity_refl.
Qed.

Lemma stable_dispatch (platform : Platform) (u e c : BodyPtr)
    (settings : AccelerationSettings) (un en cn : string) :
  stable sameGravity (createAccelerationModel platform u e settings un en c cn).
Proof.
  unfold createAccelerationModel, notRecognized.
  destruct (accelerationType_ settings).
  - destruct (String.eqb cn en || isFrameInertial cn).
    + apply stable_bind; [apply stable_central|]. intros m. apply stable_ret.
    + apply stable_bind; [apply stable_third_body|]. intros m. apply stable_ret.
  - apply stable_bind; [apply stable_aerodynamic|]. intros m. apply stable_ret.
  - apply stable_bind; [apply stable_cannonball|]. intros m. apply stable_throw.
  - destruct (String.eqb cn en || isFrameInertial cn).
    + apply stable_bind; [apply stable_spherical_harmonics|]. intros m.
      apply stable_ret.
    + apply stable_throw.
  - apply stable_throw.
  - apply stable_throw.
Qed.

Lemma stable_bodyAt (bodyMap : gmap string BodyPtr) (name : string) :
  stable sameGravity (bodyAt bodyMap name).
Proof.
  unfold bodyAt. destruct (bodyMap !! name); [apply stable_ret|apply stable_throw].
Qed.

Lemma stable_buildAccelerationList (platform : Platform)
    (bodyMap : gmap string BodyPtr) (un en : string) (c : BodyPtr) (cn : string)
    (l : list AccelerationSettings) :
  forall map, stable sameGravity
                (buildAccelerationList platform bodyMap un en c cn l map).
Proof.
  induction l as [|settings rest IH]; intros map; cbn [buildAccelerationList].
  - apply stable_ret.
  - apply stable_bind; [apply stable_bodyAt|]. intros u.
    apply stable_bind; [apply stable_bodyAt|]. intros e.
    apply stable_bind; [apply stable_dispatch|]. intros m. apply IH.
Qed.

Lemma stable_buildAccelerationsForBody (platform : Platform)
    (bodyMap : gmap string BodyPtr) (un : string) (c : BodyPtr) (cn : string)
    (inner : list (string * list AccelerationSettings)) :
  forall map, stable sameGravity
                (buildAccelerationsForBody platform bodyMap un c cn inner map).
Proof.
  induction inner as [|[en l] rest IH]; intros map;
    cbn [buildAccelerationsForBody].
  - apply stable_ret.
  - destruct (bodyMap !! en); [|apply stable_throw].
    apply stable_bind; [apply stable_buildAccelerationList|]. intros map'.
    apply IH.
Qed.

Lemma returned_bind_none {A B} (c : Cpp A) (k : A -> Cpp B) (w : World) :
  returned (c w) = None -> returned (bind c k w) = None.
Proof. unfold bind. destruct (c w); [discriminate|reflexivity]. Qed.

Lemma returned_bind_step {A B} (c : Cpp A) (k : A -> Cpp B) (w : World) :
  (forall x w', c w = Returned x w' -> returned (k x w') = None) ->
  returned (bind c k w) = None.
Proof.
  intros H. unfold bind. destruct (c w) as [x w'|x w'] eqn:E; [|reflexivity].
  now apply H.
Qed.

(** A run that contains a request the dispatcher cannot satisfy returns no
    map: either an earlier entry throws, or that request does. *)
Section DoomedRequest.

Variable platform : Platform.
Variable bodyMap : gmap string BodyPtr.
Variable P : World -> Prop.
Hypothesis P_closed : forall w w', sameGravity w w' -> P w -> P w'.
Variables (un en : string) (settings : AccelerationSettings).
Hypothesis doomed :
  forall w u e c cn, P w ->
    bodyMap !! un = Some u -> bodyMap !! en = Some e ->
    returned (createAccelerationModel platform u e settings un en c cn w) = None.

Lemma doomed_list (c : BodyPtr) (cn : string) (l : list AccelerationSettings) :
  In settings l ->
  forall map w, P w ->
    returned (buildAccelerationList platform bodyMap un en c cn l map w) = None.
Proof.
  induction l as [|s rest IH]; intros Hin map w HP; [destruct Hin|].
  cbn [buildAccelerationList]. unfold bodyAt.
  destruct (bodyMap !! un) as [u|] eqn:Hu; [|reflexivity].
  destruct (bodyMap !! en) as [e|] eqn:He; [|reflexivity].
  change (returned
            (bind (createAccelerationModel platform u e s un en c cn)
               (fun model =>
                  buildAccelerationList platform bodyMap un en c cn rest
                    (push_back en model map)) w) = None).
  destruct Hin as [->|Hin].
  - apply returned_bind_none. now apply doomed.
  - apply returned_bind_step. intros m w' Hm. apply IH; [exact Hin|].
    apply (P_closed w); [|exact HP].
    pose proof (stable_dispatch platform u e c s un en cn w) as Hs.
    now rewrite Hm in Hs.
Qed.

Lemma doomed_inner (c : BodyPtr) (cn : string)
    (inner : list (string * list AccelerationSettings))
    (l : list AccelerationSettings) :
  In (en, l) inner -> In settings l ->
  forall map w, P w ->
    returned (buildAccelerationsForBody platform bodyMap un c cn inner map w) = None.
Proof.
  intros Hin Hl. induction inner as [|[en' l'] rest IH]; intros map w HP;
    [destruct Hin|].
  cbn [buildAccelerationsForBody].
  destruct (bodyMap !! en') as [e'|]; [|reflexivity].
  destruct Hin as [Heq|Hin].
  - injection Heq as -> ->. apply returned_bind_none. now apply doomed_list.
  - apply returned_bind_step. intros map' w' Hm. apply IH; [exact Hin|].
    apply (P_closed w); [|exact HP].
    pose proof (stable_buildAccelerationList platform bodyMap un en' c cn l' map w)
      as Hs.
    now rewrite Hm in Hs.
Qed.

End DoomedRequest.

(** One iteration of the loop over the bodies undergoing acceleration. *)
Lemma buildAccelerationModelMap_step (platform : Platform)
    (bodyMap : gmap string BodyPtr) (centralBodies : gmap string string)
    (un : string) (inner : list (string * list AccelerationSettings))
    (rest : list (string * list (string * list AccelerationSettings)))
    (map : gmap string (gmap string (list AccelerationModel))) (w : World) :
  buildAccelerationModelMap platform bodyMap centralBodies ((un, inner) :: rest) map w =
    match centralBodies !! un with
    | None => Thrown out_of_range w
    | Some cn =>
        if negb (isFrameInertial cn) && negb (bool_decide (is_Some (bodyMap !! cn)))
        then Thrown (runtime_error LookupError
                       ("Error, could not find non-inertial central body " +:+
                        cn +:+ " of " +:+ un +:+
                        " when making acceleration model.")) w
        else
          match bodyMap !! un with
          | None =>
              Thrown (runtime_error LookupError
                        ("Error when making acceleration models, requested forces" +:+
                         "acting on body " +:+ un +:+
                         ", but no such body found in map of bodies")) w
          | Some _ =>
              match buildAccelerationsForBody platform bodyMap un
                      (centralBodyPointer bodyMap cn) cn inner ∅ w with
              | Returned m w' =>
                  buildAccelerationModelMap platform bodyMap centralBodies rest
                    (<[un := m]> map) w'
              | Thrown x w' => Thrown x w'
              end
          end
    end.
Proof.
  cbn [buildAccelerationModelMap].
  destruct (centralBodies !! un) as [cn|]; [|reflexivity].
  unfold centralBodyPointer, bind.
  destruct (isFrameInertial cn); cbn [negb andb].
  - unfold ret. destruct (bodyMap !! un); reflexivity.
  - destruct (bodyMap !! cn) as [p|] eqn:Hc.
    + rewrite bool_decide_eq_true_2 by (now exists p). cbn [negb].
      unfold ret. cbn [default]. destruct (bodyMap !! un); reflexivity.
    + rewrite bool_decide_eq_false_2 by (intros [x Hx]; discriminate Hx).
      reflexivity.
Qed.

Lemma stable_buildAccelerationModelMap (platform : Platform)
    (bodyMap : gmap string BodyPtr) (centralBodies : gmap string string)
    (sel : list (string * list (string * list AccelerationSettings))) :
  forall map, stable sameGravity
                (buildAccelerationModelMap platform bodyMap centralBodies sel map).
Proof.
  induction sel as [|[un inner] rest IH]; intros map w.
  - apply sameGravity_refl.
  - rewrite buildAccelerationModelMap_step.
    destruct (centralBodies !! un) as [cn|]; [|apply sameGravity_refl].
    destruct (negb (isFrameInertial cn) && negb (bool_decide (is_Some (bodyMap !! cn))));
      [apply sameGravity_refl|].
    destruct (bodyMap !! un); [|apply sameGravity_refl].
    pose proof (stable_buildAccelerationsForBody platform bodyMap un
                  (centralBodyPointer bodyMap cn) cn inner ∅ w) as Hs.
    destruct (buildAccelerationsForBody platform bodyMap un
                (centralBodyPointer bodyMap cn) cn inner ∅ w) as [m w'|x w'];
      [|exact Hs].
    eapply sameGravity_trans; [exact Hs|apply IH].
Qed.

Lemma doomed_run (platform : Platform) (bodyMap : gmap string BodyPtr)
    (P : World -> Prop)
    (P_closed : forall w w', sameGravity w w' -> P w -> P w')
    (un en : string) (settings : AccelerationSettings)
    (doomed : forall w u e c cn, P w ->
        bodyMap !! un = Some u -> bodyMap !! en = Some e ->
        returned (createAccelerationModel platform u e settings un en c cn w) = None)
    (centralBodies : gmap string string)
    (sel : list (string * list (string * list AccelerationSettings)))
    (inner : list (string * list AccelerationSettings))
    (l : list AccelerationSettings) :
  In (un, inner) sel -> In (en, l) inner -> In settings l ->
  forall map w, P w ->
    returned (buildAccelerationModelMap platform bodyMap centralBodies sel map w)
    = None.
Proof.
  intros Hsel Hinner Hl.
  induction sel as [|[un' inner'] rest IH]; intros map w HP; [destruct Hsel|].
  rewrite buildAccelerationModelMap_step.
  destruct (centralBodies !! un') as [cn|]; [|reflexivity].
  destruct (negb (isFrameInertial cn) && negb (bool_decide (is_Some (bodyMap !! cn))));
    [reflexivity|].
  destruct (bodyMap !! un'); [|reflexivity].
  destruct Hsel as [Heq|Hsel].
  - injection Heq as -> ->.
    pose proof (doomed_inner platform bodyMap P P_closed un en settings doomed
                  (centralBodyPointer bodyMap cn) cn inner l Hinner Hl ∅ w HP) as Hd.
    destruct (buildAccelerationsForBody platform bodyMap un
                (centralBodyPointer bodyMap cn) cn inner ∅ w);
      [discriminate Hd|reflexivity].
  - pose proof (stable_buildAccelerationsForBody platform bodyMap un'
                  (centralBodyPointer bodyMap cn) cn inner' ∅ w) as Hs.
    destruct (buildAccelerationsForBody platform bodyMap un'
                (centralBodyPointer bodyMap cn) cn inner' ∅ w) as [m w'|x w'];
      [|reflexivity].
    apply (IH Hsel). apply (P_closed w); assumption.
Qed.

(** The assembler builds the entries in the order supplied: an exception
    of the first entry of the first pair is the exception of the run. *)
Lemma assembler_builds_first_entry_first
    (platform : Platform) (bodyMap : gmap string BodyPtr)
    (centralBodies : gmap string string) (un en cn : string)
    (s : AccelerationSettings) (rest : list AccelerationSettings)
    (inner : list (string * list AccelerationSettings))
    (sel : list (string * list (string * list AccelerationSettings)))
    (u e : BodyPtr) (w w' : World) (x : Exception) :
  centralBodies !! un = Some cn ->
  isFrameInertial cn = true \/ is_Some (bodyMap !! cn) ->
  bodyMap !! un = Some u -> bodyMap !! en = Some e ->
  createAccelerationModel platform u e s un en (centralBodyPointer bodyMap cn) cn w
    = Thrown x w' ->
  createAccelerationModelsMap platform bodyMap
    ((un, (en, s :: rest) :: inner) :: sel) centralBodies w
    = Thrown x w'.
Proof.
  intros Hcb Hc Hu He Hthrow.
  unfold createAccelerationModelsMap.
  rewrite buildAccelerationModelMap_step, Hcb, Hu.
  assert (Hcheck : negb (isFrameInertial cn)
                   && negb (bool_decide (is_Some (bodyMap !! cn))) = false).
  { destruct Hc as [->|Hc]; [reflexivity|].
    rewrite (bool_decide_eq_true_2 _ Hc). now destruct (isFrameInertial cn). }
  rewrite Hcheck.
  cbn [buildAccelerationsForBody buildAccelerationList]. rewrite He.
  unfold bind at 1 2 3 4. unfold bodyAt. rewrite Hu, He. unfold ret at 1 2.
  rewrite Hthrow. reflexivity.
Qed.

(** ** A missing gravity field *)






Lemma central_missing_field (w : World) (u e : BodyPtr) (un en : string)
    (flag : bool) (eb : Body) :
  pointee w e = Some eb -> gravityFieldModel eb = None ->
  createCentralGravityAcceleratioModel u e un en flag w =
    Thrown (runtime_error MissingCapabilityError
              ("Error, gravity field model not set when making central " +:+
               " gravitational acceleration of " +:+ en +:+ " on " +:+ un)) w.
Proof.
  intros He Hg. unfold createCentralGravityAcceleratioModel, bind.
  rewrite (deref_pointee _ _ _ He), Hg. reflexivity.
Qed.







(** ** Bodies that are not registered *)

Lemma absent_exerting (platform : Platform) (bodyMap : gmap string BodyPtr)
    (un : string) (c : BodyPtr) (cn : string) (en : string)
    (inner : list (string * list AccelerationSettings)) :
  In en (map fst inner) -> bodyMap !! en = None ->
  forall map w,
    returned (buildAccelerationsForBody platform bodyMap un c cn inner map w) = None.
Proof.
  intros Hin Habs. induction inner as [|[en' l'] rest IH]; intros map w;
    [destruct Hin|].
  cbn [buildAccelerationsForBody].
  destruct (bodyMap !! en') as [e'|] eqn:He'; [|reflexivity].
  destruct Hin as [Heq|Hin].
  - cbn in Heq. subst en'. rewrite Habs in He'. discriminate He'.
  - apply returned_bind_step. intros map' w' _. now apply IH.
Qed.

Lemma absent_referenced (platform : Platform) (bodyMap : gmap string BodyPtr)
    (centralBodies : gmap string string)
    (sel : list (string * list (string * list AccelerationSettings)))
    (name : string) :
  In name (referencedBodies centralBodies sel) -> bodyMap !! name = None ->
  forall map w,
    returned (buildAccelerationModelMap platform bodyMap centralBodies sel map w)
    = None.
Proof.
  intros Href Habs. induction sel as [|[un inner] rest IH]; intros map w;
    [destruct Href|].
  rewrite buildAccelerationModelMap_step.
  unfold referencedBodies in Href. cbn [flat_map fst snd] in Href.
  fold (referencedBodies centralBodies rest) in Href.
  destruct (centralBodies !! un) as [cn|] eqn:Hcb; [|reflexivity].
  destruct (negb (isFrameInertial cn) && negb (bool_decide (is_Some (bodyMap !! cn))))
    eqn:Hcheck; [reflexivity|].
  destruct (bodyMap !! un) as [u|] eqn:Hu; [|reflexivity].
  apply in_app_or in Href. destruct Href as [Href|Href].
  - apply in_app_or in Href. destruct Href as [Hc|Hrest].
    + (* the central body *)
      destruct (isFrameInertial cn); [destruct Hc|].
      destruct Hc as [<-|[]]. rewrite Habs in Hcheck.
      rewrite bool_decide_eq_false_2 in Hcheck
        by (intros [x Hx]; discriminate Hx).
      discriminate Hcheck.
    + destruct Hrest as [<-|Hex].
      * rewrite Habs in Hu. discriminate Hu.
      * pose proof (absent_exerting platform bodyMap un
                      (centralBodyPointer bodyMap cn) cn name inner Hex Habs ∅ w)
          as Hd.
        destruct (buildAccelerationsForBody platform bodyMap un
                    (centralBodyPointer bodyMap cn) cn inner ∅ w);
          [discriminate Hd|reflexivity].
  - destruct (buildAccelerationsForBody platform bodyMap un
                (centralBodyPointer bodyMap cn) cn inner ∅ w); [|reflexivity].
    now apply IH.
Qed.

Lemma central_world (w w' : World) (u e : BodyPtr) (un en : string) (flag : bool)
    (m : CentralGravitationalAccelerationModel3d) :
  createCentralGravityAcceleratioModel u e un en flag w = Returned m w' ->
  w' = recordConstruction w.
Proof.
  unfold createCentralGravityAcceleratioModel, bind, deref.
  destruct (pointee w e) as [eb|]; [|discriminate].
  destruct (gravityFieldModel eb) as [g|]; [|discriminate].
  destruct (select_outcome flag u
              (fun _ : unit => getGravitationalParameter g) w) as [[f ->] | ->];
    [|discriminate].
  unfold make_shared. intros H. now injection H as _ <-.
Qed.

Lemma spherical_harmonics_world (w w' : World) (u e : BodyPtr) (un en : string)
    (settings : AccelerationSettings) (flag : bool)
    (m : SphericalHarmonicsGravitationalAccelerationModelXd) :
  createSphericalHarmonicsGravityAcceleration u e un en settings flag w
    = Returned m w' ->
  w' = recordConstruction w.
Proof.
  unfold createSphericalHarmonicsGravityAcceleration, bind, deref.
  destruct (asSphericalHarmonicAccelerationSettings settings) as [[d o]|];
    [|discriminate].
  destruct (pointee w e) as [eb|]; [|discriminate].
  destruct (asSphericalHarmonicsGravityField (gravityFieldModel eb)) as [f|];
    [|discriminate].
  destruct (select_outcome flag u
              (fun _ : unit => sh_gravitationalParameter f) w) as [[g ->] | ->];
    [|discriminate].
  unfold make_shared. intros H. now injection H as _ <-.
Qed.

(** Every model the dispatcher returns has been constructed. *)
Lemma dispatch_constructs (platform : Platform) (w w' : World) (u e c : BodyPtr)
    (settings : AccelerationSettings) (un en cn : string) (m : AccelerationModel) :
  createAccelerationModel platform u e settings un en c cn w = Returned m w' ->
  modelsConstructed w < modelsConstructed w'.
Proof.
  unfold createAccelerationModel, notRecognized, bind, ret, throw.
  destruct (accelerationType_ settings); try discriminate.
  - destruct (String.eqb cn en || isFrameInertial cn).
    + destruct (createCentralGravityAcceleratioModel u e un en _ w)
        as [m0 w0|x w0] eqn:E; [|discriminate].
      intros H. injection H as _ <-. rewrite (central_world _ _ _ _ _ _ _ _ E).
      cbn. lia.
    + unfold createThirdBodyCentralGravityAccelerationModel, bind, make_shared.
      destruct (argumentOrder platform).
      * destruct (createCentralGravityAcceleratioModel u e un en false w)
          as [m1 w1|x w1] eqn:E1; [|discriminate].
        destruct (createCentralGravityAcceleratioModel c e cn en false w1)
          as [m2 w2|x w2] eqn:E2; [|discriminate].
        intros H. injection H as _ <-.
        rewrite (central_world _ _ _ _ _ _ _ _ E2), (central_world _ _ _ _ _ _ _ _ E1).
        cbn. lia.
      * destruct (createCentralGravityAcceleratioModel c e cn en false w)
          as [m2 w1|x w1] eqn:E2; [|discriminate].
        destruct (createCentralGravityAcceleratioModel u e un en false w1)
          as [m1 w2|x w2] eqn:E1; [|discriminate].
        intros H. injection H as _ <-.
        rewrite (central_world _ _ _ _ _ _ _ _ E1), (central_world _ _ _ _ _ _ _ _ E2).
        cbn. lia.
  - destruct u as [a|]; [|discriminate].
    destruct (bodies w !! a) as [ub|] eqn:Hu.
    + rewrite (aerodynamic_builder_outcome platform w a e un en ub Hu).
      destruct (aerodynamicCoefficientInterface ub); [|discriminate].
      destruct (pointee w e) as [eb|]; [|discriminate].
      destruct (atmosphereModel eb); [|discriminate].
      destruct (shapeModel eb); [|discriminate].
      destruct (flightConditions ub).
      * intros H. injection H as _ <-. cbn. lia.
      * destruct (flightConditionsFactoryCheck platform w (Some a) e un en);
          [discriminate|].
        intros H. injection H as _ <-. cbn. lia.
    + unfold createAerodynamicAcceleratioModel, bind, deref. cbn [pointee].
      rewrite Hu. discriminate.
  - destruct (createCannonballRadiationPressureAcceleratioModel u e un en w);
      discriminate.
  - destruct (String.eqb cn en || isFrameInertial cn); [|discriminate].
    destruct (createSphericalHarmonicsGravityAcceleration u e un en settings _ w)
      as [m0 w0|x w0] eqn:E; [|discriminate].
    intros H. injection H as _ <-.
    rewrite (spherical_harmonics_world _ _ _ _ _ _ _ _ _ E). cbn. lia.
Qed.

Lemma buildAccelerationList_constructs (platform : Platform)
    (bodyMap : gmap string BodyPtr) (un en : string) (c : BodyPtr) (cn : string)
    (l : list AccelerationSettings) :
  forall acc w acc' w',
    buildAccelerationList platform bodyMap un en c cn l acc w = Returned acc' w' ->
    modelsConstructed w + length l <= modelsConstructed w'.
Proof.
  induction l as [|s rest IH]; intros acc w acc' w' Hrun.
  - cbn in Hrun. injection Hrun as _ <-. cbn. lia.
  - cbn [buildAccelerationList] in Hrun. unfold bodyAt, bind in Hrun.
    destruct (bodyMap !! un) as [u|]; [|discriminate Hrun].
    cbn [ret] in Hrun.
    destruct (bodyMap !! en) as [e|]; [|discriminate Hrun].
    cbn [ret] in Hrun.
    destruct (createAccelerationModel platform u e s un en c cn w)
      as [model w1|x w1] eqn:Hm; [|discriminate Hrun].
    pose proof (dispatch_constructs _ _ _ _ _ _ _ _ _ _ _ Hm).
    pose proof (IH _ _ _ _ Hrun). cbn [length]. lia.
Qed.

(** The run on one pair of bodies. *)
Lemma assembler_single_pair (platform : Platform) (bodyMap : gmap string BodyPtr)
    (centralBodies : gmap string string) (un en cn : string)
    (l : list AccelerationSettings) (u e : BodyPtr) (w : World) :
  centralBodies !! un = Some cn ->
  isFrameInertial cn = true \/ is_Some (bodyMap !! cn) ->
  bodyMap !! un = Some u -> bodyMap !! en = Some e ->
  createAccelerationModelsMap platform bodyMap [(un, [(en, l)])] centralBodies w =
    match buildAccelerationList platform bodyMap un en
            (centralBodyPointer bodyMap cn) cn l ∅ w with
    | Returned m w1 => Returned {[ un := m ]} w1
    | Thrown x w1 => Thrown x w1
    end.
Proof.
  intros Hcb Hc Hu He. unfold createAccelerationModelsMap.
  rewrite buildAccelerationModelMap_step, Hcb.
  assert (Hcheck : negb (isFrameInertial cn)
                   && negb (bool_decide (is_Some (bodyMap !! cn))) = false).
  { destruct Hc as [->|Hc]; [reflexivity|].
    rewrite (bool_decide_eq_true_2 _ Hc). now rewrite andb_false_r. }
  rewrite Hcheck, Hu. cbn [buildAccelerationsForBody]. rewrite He.
  unfold bind.
  destruct (buildAccelerationList platform bodyMap un en
              (centralBodyPointer bodyMap cn) cn l ∅ w); reflexivity.
Qed.

(** The run on a selection whose second exerting body is not registered. *)
Lemma assembler_absent_second_exerting (platform : Platform)
    (bodyMap : gmap string BodyPtr) (centralBodies : gmap string string)
    (un en1 en2 cn : string) (l1 l2 : list AccelerationSettings)
    (inner : list (string * list AccelerationSettings))
    (rest : list (string * list (string * list AccelerationSettings)))
    (u e1 : BodyPtr) (w : World) :
  centralBodies !! un = Some cn ->
  isFrameInertial cn = true \/ is_Some (bodyMap !! cn) ->
  bodyMap !! un = Some u -> bodyMap !! en1 = Some e1 -> bodyMap !! en2 = None ->
  createAccelerationModelsMap platform bodyMap
    ((un, (en1, l1) :: (en2, l2) :: inner) :: rest) centralBodies w =
    match buildAccelerationList platform bodyMap un en1
            (centralBodyPointer bodyMap cn) cn l1 ∅ w with
    | Returned m w1 =>
        Thrown (runtime_error LookupError
                  ("Error when making acceleration models, requested forces " +:+
                   "acting on body " +:+ un +:+ " due to body " +:+ en2 +:+
                   ", but no such body found in map of bodies")) w1
    | Thrown x w1 => Thrown x w1
    end.
Proof.
  intros Hcb Hc Hu He1 He2. unfold createAccelerationModelsMap.
  rewrite buildAccelerationModelMap_step, Hcb.
  assert (Hcheck : negb (isFrameInertial cn)
                   && negb (bool_decide (is_Some (bodyMap !! cn))) = false).
  { destruct Hc as [->|Hc]; [reflexivity|].
    rewrite (bool_decide_eq_true_2 _ Hc). now rewrite andb_false_r. }
  rewrite Hcheck, Hu. cbn [buildAccelerationsForBody]. rewrite He1, He2.
  unfold bind.
  destruct (buildAccelerationList platform bodyMap un en1
              (centralBodyPointer bodyMap cn) cn l1 ∅ w); reflexivity.
Qed.

(** C6 (as amended): when a referenced body name is absent from the
    registry the assembler returns no acceleration map.  The registry is
    consulted as the iteration reaches each name, interleaved with
    building.  When a central body is declared for the first body
    undergoing acceleration and the absent name is that central body, that
    body itself or its first exerting body, the run throws the lookup
    error before anything is constructed.  When no central body is
    declared for the first body undergoing acceleration the run throws
    [std::out_of_range] instead, also with nothing constructed.  When the
    absent name is the second exerting body of the first body undergoing
    acceleration, the run does what the run on the first pair alone does
    up to the lookup: if that run throws, the whole run throws the same
    exception in the same world and no lookup error is raised; if it
    returns, the whole run throws the lookup error in the world that run
    leaves, in which at least one model for every settings entry of the
    first pair has been constructed. *)
Theorem absent_body_aborts_assembly
    (platform : Platform) (bodyMap : gmap string BodyPtr)
    (centralBodies : gmap string string)
    (sel : list (string * list (string * list AccelerationSettings)))
    (w : World) (name : string)
    (Href : In name (referencedBodies centralBodies sel))
    (Habs : bodyMap !! name = None) :
  returned (createAccelerationModelsMap platform bodyMap sel centralBodies w) = None
  /\ (forall un inner rest cn,
        sel = (un, inner) :: rest ->
        centralBodies !! un = Some cn ->
        (isFrameInertial cn = false /\ bodyMap !! cn = None)
        \/ bodyMap !! un = None
        \/ (exists en l inner', inner = (en, l) :: inner' /\ bodyMap !! en = None) ->
        thrownKind (createAccelerationModelsMap platform bodyMap sel centralBodies w)
          = Some LookupError
        /\ worldOf (createAccelerationModelsMap platform bodyMap sel centralBodies w)
           = w)
  /\ (forall un inner rest,
        sel = (un, inner) :: rest ->
        centralBodies !! un = None ->
        createAccelerationModelsMap platform bodyMap sel centralBodies w
        = Thrown out_of_range w)
  /\ (forall un en1 l1 en2 l2 inner rest cn u e1,
        sel = (un, (en1, l1) :: (en2, l2) :: inner) :: rest ->
        centralBodies !! un = Some cn ->
        isFrameInertial cn = true \/ is_Some (bodyMap !! cn) ->
        bodyMap !! un = Some u -> bodyMap !! en1 = Some e1 ->
        bodyMap !! en2 = None ->
        match createAccelerationModelsMap platform bodyMap [(un, [(en1, l1)])]
                centralBodies w with
        | Returned _ w1 =>
            thrownKind (createAccelerationModelsMap platform bodyMap sel
                          centralBodies w) = Some LookupError
            /\ worldOf (createAccelerationModelsMap platform bodyMap sel
                          centralBodies w) = w1
            /\ modelsConstructed w + length l1 <= modelsConstructed w1
        | Thrown x w1 =>
            createAccelerationModelsMap platform bodyMap sel centralBodies w
            = Thrown x w1
        end).
Proof.
  split; [|split; [|split]].
  - now apply (absent_referenced platform bodyMap centralBodies sel name).
  - intros un inner rest cn -> Hcb Hcases.
    unfold createAccelerationModelsMap.
    rewrite buildAccelerationModelMap_step, Hcb.
    destruct (negb (isFrameInertial cn) && negb (bool_decide (is_Some (bodyMap !! cn))))
      eqn:Hcheck; [split; reflexivity|].
    destruct (bodyMap !! un) as [u|] eqn:Hu; [|split; reflexivity].
    destruct Hcases as [[Hni Hc]|[Hun|(en & l & inner' & -> & Hen)]].
    + rewrite Hni, Hc in Hcheck.
      rewrite bool_decide_eq_false_2 in Hcheck
        by (intros [x Hx]; discriminate Hx).
      discriminate Hcheck.
    + discriminate Hun.
    + cbn [buildAccelerationsForBody]. rewrite Hen. split; reflexivity.
  - intros un inner rest -> Hcb. unfold createAccelerationModelsMap.
    now rewrite buildAccelerationModelMap_step, Hcb.
  - intros un en1 l1 en2 l2 inner rest cn u e1 -> Hcb Hc Hu He1 He2.
    rewrite (assembler_single_pair platform bodyMap centralBodies un en1 cn l1 u e1 w
               Hcb Hc Hu He1).
    rewrite (assembler_absent_second_exerting platform bodyMap centralBodies
               un en1 en2 cn l1 l2 inner rest u e1 w Hcb Hc Hu He1 He2).
    destruct (buildAccelerationList platform bodyMap un en1
                (centralBodyPointer bodyMap cn) cn l1 ∅ w) as [m w1|x w1] eqn:E;
      [|reflexivity].
    split; [reflexivity|]. split; [reflexivity|].
    exact (buildAccelerationList_constructs _ _ _ _ _ _ _ _ _ _ _ E).
Qed.

(** C6 (counterexample): "Ghost" is not registered, yet by the time the
    lookup error is thrown the aerodynamic model of the pair before it has
    been constructed and flight conditions have been attached to the
    Satellite. *)
Lemma absent_body_detected_after_construction :
  In "Ghost" (referencedBodies Scenario.centralBodies Scenario.ghostRun)
  /\ Scenario.bodyMap !! "Ghost" = None
  /\ String.ltb "Earth" "Ghost" = true
  /\ let o := createAccelerationModelsMap (Scenario.platform LeftToRight)
                Scenario.bodyMap Scenario.ghostRun Scenario.centralBodies
                Scenario.world in
     thrownKind o = Some LookupError
     /\ modelsConstructed Scenario.world = 0
     /\ modelsConstructed (worldOf o) = 1
     /\ (flightConditions <$> bodies Scenario.world !! 5%positive) = Some None
     /\ (flightConditions <$> bodies (worldOf o) !! 5%positive) = Some (Some 1).
Proof.
  split; [vm_compute; tauto|].
  split; [vm_compute; reflexivity|].
  split; [vm_compute; reflexivity|].
  repeat split; vm_compute; reflexivity.
Qed.

(** ** Ordering of aerodynamic and thrust entries *)

Lemma AvailableAcceleration_eqb_eq (a b : AvailableAcceleration) :
  AvailableAcceleration_eqb a b = true <-> a = b.
Proof. destruct a, b; cbn; split; intros H; try reflexivity; discriminate H. Qed.

Lemma collectIndices_spec (l : list AccelerationSettings) :
  forall i aero thrust,
    Revised.collectIndices i l aero thrust =
      ((aero ++ indicesOfType aerodynamic i l)%list,
       (thrust ++ indicesOfType thrust_acceleration i l)%list).
Proof.
  induction l as [|s rest IH]; intros i aero thrust;
    cbn [Revised.collectIndices indicesOfType].
  - now rewrite !app_nil_r.
  - destruct (accelerationType_ s); cbn [AvailableAcceleration_eqb];
      rewrite IH; rewrite <- ?app_assoc; reflexivity.
Qed.

Lemma indicesOfType_In (t : AvailableAcceleration) (l : list AccelerationSettings) :
  forall i k,
    In k (indicesOfType t i l) <->
    (i <= k /\ hasTypeAt t l (k - i)).
Proof.
  unfold hasTypeAt.
  induction l as [|s rest IH]; intros i k; cbn [indicesOfType].
  - split; [intros []|]. intros (_ & x & Hx & _). discriminate Hx.
  - assert (Hrest : In k (indicesOfType t (S i) rest) <->
                    (i < k /\ exists x, (s :: rest) !! (k - i) = Some x
                                        /\ accelerationType_ x = t)).
    { rewrite IH. split.
      - intros (Hle & x & Hx & Ht). split; [lia|]. exists x. split; [|exact Ht].
        replace (k - i) with (S (k - S i)) by lia. exact Hx.
      - intros (Hlt & x & Hx & Ht). split; [lia|]. exists x. split; [|exact Ht].
        replace (k - i) with (S (k - S i)) in Hx by lia. exact Hx. }
    destruct (AvailableAcceleration_eqb (accelerationType_ s) t) eqn:E.
    + apply AvailableAcceleration_eqb_eq in E. cbn [In]. rewrite Hrest. split.
      * intros [<-|(Hlt & Hx)].
        -- split; [lia|]. exists s. rewrite Nat.sub_diag. now split.
        -- split; [lia|exact Hx].
      * intros (Hle & Hx). destruct (decide (i = k)) as [->|Hne]; [now left|].
        right. split; [lia|exact Hx].
    + rewrite Hrest. split.
      * intros (Hlt & Hx). split; [lia|exact Hx].
      * intros (Hle & x & Hx & Ht). split; [|now exists x].
        destruct (decide (i = k)) as [->|Hne]; [|lia].
        rewrite Nat.sub_diag in Hx. cbn in Hx. injection Hx as ->.
        apply AvailableAcceleration_eqb_eq in Ht. rewrite Ht in E. discriminate E.
Qed.

Lemma indicesOfType_head (t : AvailableAcceleration) (l : list AccelerationSettings) :
  forall i x rest,
    indicesOfType t i l = x :: rest -> forall y, In y rest -> x < y.
Proof.
  induction l as [|s tail IH]; intros i x rest Heq y Hy; cbn [indicesOfType] in Heq;
    [discriminate Heq|].
  destruct (AvailableAcceleration_eqb (accelerationType_ s) t).
  - injection Heq as <- <-. apply indicesOfType_In in Hy. lia.
  - exact (IH (S i) x rest Heq y Hy).
Qed.

Lemma indicesOfType_last (t : AvailableAcceleration) (l : list AccelerationSettings) :
  forall i z,
    last (indicesOfType t i l) = Some z ->
    forall y, In y (indicesOfType t i l) -> y <= z.
Proof.
  induction l as [|s tail IH]; intros i z Hlast y Hy; cbn [indicesOfType] in *;
    [destruct Hy|].
  destruct (AvailableAcceleration_eqb (accelerationType_ s) t).
  - destruct (indicesOfType t (S i) tail) as [|x rest] eqn:E.
    + cbn in Hlast. injection Hlast as <-. destruct Hy as [<-|[]]. lia.
    + change (last (x :: rest) = Some z) in Hlast.
      rewrite <- E in Hlast. destruct Hy as [<-|Hy].
      * assert (Hz : In z (indicesOfType t (S i) tail)).
        { rewrite E. apply list_elem_of_In. apply last_Some_elem_of.
          now rewrite <- E. }
        apply indicesOfType_In in Hz. lia.
      * rewrite <- E in Hy. exact (IH (S i) z Hlast y Hy).
  - exact (IH (S i) z Hlast y Hy).
Qed.

Lemma indicesOfType_In0 (t : AvailableAcceleration) (l : list AccelerationSettings)
    (k : nat) :
  In k (indicesOfType t 0 l) <-> hasTypeAt t l k.
Proof.
  rewrite indicesOfType_In, Nat.sub_0_r. split; [tauto|]. split; [lia|assumption].
Qed.

Lemma indices_first (t : AvailableAcceleration) (l : list AccelerationSettings)
    (x : nat) :
  hasTypeAt t l x -> (forall i, hasTypeAt t l i -> x <= i) ->
  exists rest, indicesOfType t 0 l = x :: rest.
Proof.
  intros Hx Hmin.
  destruct (indicesOfType t 0 l) as [|y rest] eqn:E.
  - apply indicesOfType_In0 in Hx. rewrite E in Hx. destruct Hx.
  - exists rest. f_equal.
    assert (Hy : hasTypeAt t l y).
    { apply indicesOfType_In0. rewrite E. now left. }
    apply Hmin in Hy.
    apply indicesOfType_In0 in Hx. rewrite E in Hx.
    destruct Hx as [Heq|Hin]; [exact Heq|].
    pose proof (indicesOfType_head t l 0 y rest E x Hin). lia.
Qed.

Lemma indices_final (t : AvailableAcceleration) (l : list AccelerationSettings)
    (z : nat) :
  hasTypeAt t l z -> (forall i, hasTypeAt t l i -> i <= z) ->
  last (indicesOfType t 0 l) = Some z.
Proof.
  intros Hz Hmax.
  destruct (last (indicesOfType t 0 l)) as [y|] eqn:E.
  - f_equal.
    assert (Hy : hasTypeAt t l y).
    { apply indicesOfType_In0. apply list_elem_of_In.
      now apply last_Some_elem_of. }
    apply Hmax in Hy.
    apply indicesOfType_In0 in Hz.
    pose proof (indicesOfType_last t l 0 y E z Hz). lia.
  - apply last_None in E. apply indicesOfType_In0 in Hz.
    rewrite E in Hz. destruct Hz.
Qed.

Lemma indices_singleton (t : AvailableAcceleration) (l : list AccelerationSettings)
    (a : nat) :
  hasTypeAt t l a -> (forall i, hasTypeAt t l i -> i = a) ->
  indicesOfType t 0 l = [a].
Proof.
  intros Ha Huniq.
  destruct (indices_first t l a Ha) as [rest E].
  { intros i Hi. rewrite (Huniq i Hi). lia. }
  rewrite E. f_equal. destruct rest as [|y rest']; [reflexivity|].
  assert (Hy : In y (y :: rest')) by now left.
  pose proof (indicesOfType_head t l 0 a (y :: rest') E y Hy) as Hlt.
  assert (Hty : hasTypeAt t l y).
  { apply indicesOfType_In0. rewrite E. right. now left. }
  apply Huniq in Hty. lia.
Qed.

Lemma at_last {A} (v : list A) (z : A) :
  last v = Some z -> Revised.at_ v (length v - 1) = inr z.
Proof.
  intros H. unfold Revised.at_.
  rewrite Nat.sub_1_r, <- last_lookup, H. reflexivity.
Qed.

(** The rule of the ordering function of the later revision, for the list
    of one pair. *)
Lemma order_single_aerodynamic (l : list AccelerationSettings)
    (a tFirst tLast : nat) :
  hasTypeAt aerodynamic l a ->
  (forall i, hasTypeAt aerodynamic l i -> i = a) ->
  hasTypeAt thrust_acceleration l tFirst ->
  (forall i, hasTypeAt thrust_acceleration l i -> tFirst <= i) ->
  hasTypeAt thrust_acceleration l tLast ->
  (forall i, hasTypeAt thrust_acceleration l i -> i <= tLast) ->
  tFirst < a ->
  Revised.orderAccelerationList l = inr (Revised.iter_swap l a tLast).
Proof.
  intros Ha Huniq Hf Hmin Hl Hmax Hlt.
  unfold Revised.orderAccelerationList.
  rewrite collectIndices_spec. cbn [app].
  rewrite (indices_singleton aerodynamic l a Ha Huniq).
  destruct (indices_first thrust_acceleration l tFirst Hf Hmin) as [rest E].
  pose proof (indices_final thrust_acceleration l tLast Hl Hmax) as Hlast.
  rewrite (at_last _ _ Hlast).
  rewrite E. cbn [length Nat.ltb Nat.leb andb Nat.sub Revised.at_ lookup list_lookup].
  cbn.
  destruct a as [|a']; [lia|].
  rewrite (proj2 (Nat.leb_le tFirst a')) by lia. reflexivity.
Qed.

Lemma order_several_aerodynamic (l : list AccelerationSettings)
    (a1 a2 a t : nat) :
  hasTypeAt aerodynamic l a1 -> hasTypeAt aerodynamic l a2 -> a1 <> a2 ->
  hasTypeAt thrust_acceleration l t -> hasTypeAt aerodynamic l a -> t < a ->
  Revised.orderAccelerationList l =
    inl (runtime_error ConfigurationError
           "Error when ordering accelerations, cannot yet handle multple aerodynamic and thrust accelerations").
Proof.
  intros H1 H2 Hne Ht Ha Hlt.
  unfold Revised.orderAccelerationList.
  rewrite collectIndices_spec. cbn [app].
  apply indicesOfType_In0 in H1, H2, Ht, Ha.
  destruct (indicesOfType thrust_acceleration 0 l) as [|t0 T] eqn:ET;
    [destruct Ht|].
  destruct (indicesOfType aerodynamic 0 l) as [|x A] eqn:EA; [destruct Ha|].
  destruct A as [|y A'].
  { destruct H1 as [<-|[]]. destruct H2 as [<-|[]]. contradiction. }
  destruct (last (x :: y :: A')) as [z|] eqn:Hz;
    [|apply last_None in Hz; discriminate Hz].
  rewrite <- EA in Hz.
  pose proof (indicesOfType_last aerodynamic l 0 z Hz a) as Hmax.
  rewrite EA in Hmax. specialize (Hmax Ha).
  rewrite EA in Hz.
  rewrite (at_last _ _ Hz).
  assert (Ht0 : t0 <= t).
  { destruct Ht as [->|Hin]; [lia|].
    pose proof (indicesOfType_head thrust_acceleration l 0 t0 T ET t Hin). lia. }
  cbn [length Nat.ltb Nat.leb andb Revised.at_ lookup list_lookup].
  cbn.
  destruct z as [|z']; [lia|].
  rewrite (proj2 (Nat.leb_le t0 z')) by lia. reflexivity.
Qed.

Lemma thrust_not_recognized (platform : Platform) (w : World) (u e c : BodyPtr)
    (settings : AccelerationSettings) (un en cn : string) :
  accelerationType_ settings = thrust_acceleration ->
  createAccelerationModel platform u e settings un en c cn w =
    Thrown (runtime_error ConfigurationError
              ("Error, acceleration model " +:+
               lexical_cast platform thrust_acceleration +:+
               " not recognized when making acceleration model of" +:+
               en +:+ " on " +:+ un)) w.
Proof.
  intros Ht. unfold createAccelerationModel, notRecognized. rewrite Ht.
  reflexivity.
Qed.

(** C2 (as amended): the reordering is what [orderSelectedAccelerationMap]
    of the later revision does to the list of one pair: when the single
    aerodynamic entry lies behind the first thrust entry it is swapped
    with the last thrust entry (so [thrust, aerodynamic] becomes
    [aerodynamic, thrust]), and with more than one aerodynamic entry in
    that situation it throws the configuration error.  The assembler of
    this revision builds the entries of a pair in the order supplied; a
    thrust entry is not a type its dispatcher recognises, and a run that
    contains one returns no map. *)
Theorem ordering_rule_and_unordered_assembly :
  (forall l a tFirst tLast,
      hasTypeAt aerodynamic l a ->
      (forall i, hasTypeAt aerodynamic l i -> i = a) ->
      hasTypeAt thrust_acceleration l tFirst ->
      (forall i, hasTypeAt thrust_acceleration l i -> tFirst <= i) ->
      hasTypeAt thrust_acceleration l tLast ->
      (forall i, hasTypeAt thrust_acceleration l i -> i <= tLast) ->
      tFirst < a ->
      Revised.orderAccelerationList l = inr (Revised.iter_swap l a tLast))
  /\ (forall l a1 a2 a t,
        hasTypeAt aerodynamic l a1 -> hasTypeAt aerodynamic l a2 -> a1 <> a2 ->
        hasTypeAt thrust_acceleration l t -> hasTypeAt aerodynamic l a -> t < a ->
        exists msg, Revised.orderAccelerationList l
                    = inl (runtime_error ConfigurationError msg))
  /\ (forall thrust aero,
        accelerationType_ thrust = thrust_acceleration ->
        accelerationType_ aero = aerodynamic ->
        Revised.orderAccelerationList [thrust; aero] = inr [aero; thrust])
  /\ (forall platform bodyMap centralBodies un en cn s rest inner sel u e w w' x,
        centralBodies !! un = Some cn ->
        isFrameInertial cn = true \/ is_Some (bodyMap !! cn) ->
        bodyMap !! un = Some u -> bodyMap !! en = Some e ->
        createAccelerationModel platform u e s un en
          (centralBodyPointer bodyMap cn) cn w = Thrown x w' ->
        createAccelerationModelsMap platform bodyMap
          ((un, (en, s :: rest) :: inner) :: sel) centralBodies w = Thrown x w')
  /\ (forall platform bodyMap centralBodies sel un inner en l settings w,
        In (un, inner) sel -> In (en, l) inner -> In settings l ->
        accelerationType_ settings = thrust_acceleration ->
        (forall u e c cn w',
            thrownKind (createAccelerationModel platform u e settings un en c cn w')
            = Some ConfigurationError)
        /\ returned (createAccelerationModelsMap platform bodyMap sel centralBodies w)
           = None).
Proof.
  split; [exact order_single_aerodynamic|].
  split.
  { intros l a1 a2 a t H1 H2 Hne Ht Ha Hlt. eexists.
    exact (order_several_aerodynamic l a1 a2 a t H1 H2 Hne Ht Ha Hlt). }
  split.
  { intros thrust aero Ht Ha.
    rewrite (order_single_aerodynamic [thrust; aero] 1 0 0).
    - reflexivity.
    - exists aero. now split.
    - intros i (s & Hs & Hty). destruct i as [|[|i]]; [|reflexivity|discriminate Hs].
      cbn in Hs. injection Hs as <-. rewrite Ht in Hty. discriminate Hty.
    - exists thrust. now split.
    - intros i _. lia.
    - exists thrust. now split.
    - intros i (s & Hs & Hty). destruct i as [|[|i]]; [lia| |discriminate Hs].
      cbn in Hs. injection Hs as <-. rewrite Ha in Hty. discriminate Hty.
    - lia. }
  split; [exact assembler_builds_first_entry_first|].
  intros platform bodyMap centralBodies sel un inner en l settings w
    Hsel Hinner Hl Ht.
  split.
  - intros u e c cn w'. now rewrite (thrust_not_recognized platform w' u e c settings un en cn Ht).
  - unfold createAccelerationModelsMap.
    apply (doomed_run platform bodyMap (fun _ => True) (fun _ _ _ _ => I)
             un en settings) with (inner := inner) (l := l);
      try assumption; [|exact I].
    intros w' u e c cn _ _ _.
    now rewrite (thrust_not_recognized platform w' u e c settings un en cn Ht).
Qed.

(** C2 (counterexample): the pair's list is [thrust, aerodynamic].  The
    run stops at the thrust entry with nothing built; had the aerodynamic
    entry been built first, as in the run on [aerodynamic, thrust], the
    Satellite would carry flight conditions and one model would have been
    constructed. *)
Lemma thrust_before_aerodynamic_not_reordered :
  let run := fun sel =>
    createAccelerationModelsMap (Scenario.platform LeftToRight)
      Scenario.bodyMap sel Scenario.centralBodies Scenario.world in
  thrownKind (run Scenario.thrustFirstRun) = Some ConfigurationError
  /\ worldOf (run Scenario.thrustFirstRun) = Scenario.world
  /\ modelsConstructed (worldOf (run Scenario.aerodynamicFirstRun)) = 1
  /\ (flightConditions <$> bodies (worldOf (run Scenario.aerodynamicFirstRun)) !! 5%positive)
     = Some (Some 1)
  /\ run Scenario.thrustFirstRun <> run Scenario.aerodynamicFirstRun.
Proof.
  cbv zeta.
  split; [vm_compute; reflexivity|].
  split; [vm_compute; reflexivity|].
  split; [vm_compute; reflexivity|].
  split; [vm_compute; reflexivity|].
  intros H.
  apply (f_equal (fun o => modelsConstructed (worldOf o))) in H.
  vm_compute in H. discriminate H.
Qed.

(** ** The theorems at concrete inputs *)

(** Scenario B: central gravity of the Moon on the Satellite, whose central
    body is the Earth, is the third-body composite. *)
Lemma central_gravity_dispatch_scenario_B :
  exists m w',
    createAccelerationModel (Scenario.platform LeftToRight)
      Scenario.pSatellite Scenario.pMoon (BaseAccelerationSettings central_gravity)
      "Satellite" "Moon" Scenario.pEarth "Earth" Scenario.world = Returned m w'
    /\ isThirdBodyCentralGravity m = true
    /\ isDirectCentralGravity m = false.
Proof.
  destruct (central_gravity_dispatch (Scenario.platform LeftToRight)
              (fun _ => (0%float, 0%float, 0%float))
              Scenario.world Scenario.pSatellite Scenario.pMoon Scenario.pEarth
              (BaseAccelerationSettings central_gravity)
              "Satellite" "Moon" "Earth" Scenario.Satellite Scenario.Moon
              (PointMassGravityField 4902.75%float))
    as (m & w' & Hrun & Hdirect & Hthird & _).
  - reflexivity.
  - vm_compute; reflexivity.
  - vm_compute; reflexivity.
  - reflexivity.
  - exists m, w'. split; [exact Hrun|]. split.
    + rewrite Hthird. vm_compute; reflexivity.
    + rewrite Hdirect. vm_compute; reflexivity.
Defined.

(** The Moon (own gravity field) in the frame of the Earth: the summed
    parameter; the Satellite (no gravity field): the Earth's alone. *)
Lemma gravitational_parameter_resolution_Earth :
  centralGravityParameter
    (createCentralGravityAcceleratioModel Scenario.pMoon Scenario.pEarth
       "Moon" "Earth" true Scenario.world)
  = Some (PrimFloat.add 398600.5%float 4902.75%float)
  /\ centralGravityParameter
       (createCentralGravityAcceleratioModel Scenario.pSatellite Scenario.pEarth
          "Satellite" "Earth" true Scenario.world)
     = Some 398600.5%float
  /\ sphericalHarmonicsParameter
       (createSphericalHarmonicsGravityAcceleration Scenario.pMoon Scenario.pEarth
          "Moon" "Earth" (SphericalHarmonicAccelerationSettings 4 4) false
          Scenario.world)
     = Some 398600.5%float.
Proof.
  assert (HeM : pointee Scenario.world Scenario.pEarth = Some Scenario.Earth)
    by (vm_compute; reflexivity).
  assert (HM : pointee Scenario.world Scenario.pMoon = Some Scenario.Moon)
    by (vm_compute; reflexivity).
  assert (HS : pointee Scenario.world Scenario.pSatellite = Some Scenario.Satellite)
    by (vm_compute; reflexivity).
  destruct (gravitational_parameter_resolution Scenario.world
              Scenario.pMoon Scenario.pEarth "Moon" "Earth" Scenario.Earth
              (SphericalHarmonicsField Scenario.earthField) HeM eq_refl)
    as (_ & _ & Hsum & Hsh).
  destruct (gravitational_parameter_resolution Scenario.world
              Scenario.pSatellite Scenario.pEarth "Satellite" "Earth" Scenario.Earth
              (SphericalHarmonicsField Scenario.earthField) HeM eq_refl)
    as (_ & Halone & _ & _).
  split; [exact (Hsum Scenario.Moon (PointMassGravityField 4902.75%float) HM eq_refl)|].
  split; [exact (Halone true Scenario.Satellite HS eq_refl)|].
  destruct (Hsh Scenario.earthField 4 4 eq_refl) as (Hoff & _). exact Hoff.
Defined.

(** C5 (counterexample): spherical-harmonic gravity of Mars on the
    Satellite, whose central body is the Earth (not Mars, not inertial):
    no model is produced. *)
Lemma third_body_spherical_harmonics_not_built :
  isFrameInertial "Earth" = false
  /\ String.eqb "Earth" "Mars" = false
  /\ accelerationType_ (SphericalHarmonicAccelerationSettings 4 4)
     = spherical_harmonic_gravity
  /\ returned
       (createAccelerationModel (Scenario.platform LeftToRight)
          Scenario.pSatellite Scenario.pMars
          (SphericalHarmonicAccelerationSettings 4 4)
          "Satellite" "Mars" Scenario.pEarth "Earth" Scenario.world) = None.
Proof. repeat split; vm_compute; reflexivity. Qed.

Lemma third_body_spherical_harmonics_rejected_Mars :
  createAccelerationModel (Scenario.platform LeftToRight)
    Scenario.pSatellite Scenario.pMars
    (SphericalHarmonicAccelerationSettings 4 4)
    "Satellite" "Mars" Scenario.pEarth "Earth" Scenario.world
  = Thrown (runtime_error ConfigurationError
              "Error, cannot yet make third body spherical harmonic acceleration.")
           Scenario.world.
Proof.
  apply (third_body_spherical_harmonics_rejected (Scenario.platform LeftToRight)
           Scenario.world Scenario.pSatellite Scenario.pMars Scenario.pEarth
           (SphericalHarmonicAccelerationSettings 4 4) "Satellite" "Mars" "Earth").
  - reflexivity.
  - vm_compute; reflexivity.
  - vm_compute; reflexivity.
Defined.

(** Two aerodynamic builds for the Satellite, on the Earth and on Mars:
    both return, one flight-conditions object is created, and both models
    read the same instance. *)
Lemma aerodynamic_flight_conditions_shared_Satellite :
  exists m1 w1 m2 w2,
    createAerodynamicAcceleratioModel (Scenario.platform LeftToRight)
      Scenario.pSatellite Scenario.pEarth "Satellite" "Earth" Scenario.world
      = Returned m1 w1
    /\ createAerodynamicAcceleratioModel (Scenario.platform LeftToRight)
         Scenario.pSatellite Scenario.pMars "Satellite" "Mars" w1
       = Returned m2 w2
    /\ flightConditionsCreated w1 = 1
    /\ flightConditionsCreated w2 = 1
    /\ aero_densityFrom m1 = 1
    /\ aero_densityFrom m2 = 1.
Proof.
  pose proof (aerodynamic_flight_conditions_attached_once
                (Scenario.platform LeftToRight) Scenario.world 5%positive
                Scenario.pEarth "Satellite" "Earth" Scenario.Satellite eq_refl)
    as H.
  cbv zeta in H. destruct H as (_ & _ & _ & Hnew & _ & Hagain).
  destruct (createAerodynamicAcceleratioModel (Scenario.platform LeftToRight)
              (Some 5%positive) Scenario.pEarth "Satellite" "Earth" Scenario.world)
    as [m1 w1|x w1] eqn:E1; [|vm_compute in E1; discriminate E1].
  destruct (createAerodynamicAcceleratioModel (Scenario.platform LeftToRight)
              (Some 5%positive) Scenario.pMars "Satellite" "Mars" w1)
    as [m2 w2|x w2] eqn:E2.
  - destruct (Hnew eq_refl m1 w1 eq_refl) as (Hc1 & _ & Hd1 & _).
    destruct (Hagain m1 w1 eq_refl Scenario.pMars "Mars" m2 w2 E2)
      as (_ & Hc2 & Hd2 & _).
    exists m1, w1, m2, w2.
    split; [exact E1|]. split; [exact E2|].
    split; [exact Hc1|]. split; [now rewrite Hc2|].
    split; [exact Hd1|]. now rewrite Hd2.
  - vm_compute in E1. injection E1 as <- <-. vm_compute in E2. discriminate E2.
Defined.


(** "Ghost" is not registered: the run returns no map; the lookup error
    is thrown after the aerodynamic model of the pair before it has been
    constructed. *)
Lemma absent_body_aborts_ghost_run :
  returned (createAccelerationModelsMap (Scenario.platform LeftToRight)
              Scenario.bodyMap Scenario.ghostRun Scenario.centralBodies
              Scenario.world) = None
  /\ thrownKind (createAccelerationModelsMap (Scenario.platform LeftToRight)
                   Scenario.bodyMap Scenario.ghostRun Scenario.centralBodies
                   Scenario.world) = Some LookupError
  /\ 1 <= modelsConstructed
            (worldOf (createAccelerationModelsMap (Scenario.platform LeftToRight)
                        Scenario.bodyMap Scenario.ghostRun Scenario.centralBodies
                        Scenario.world)).
Proof.
  destruct (absent_body_aborts_assembly (Scenario.platform LeftToRight)
              Scenario.bodyMap Scenario.centralBodies Scenario.ghostRun
              Scenario.world "Ghost") as (Hrun & _ & _ & Hsecond).
  - vm_compute. tauto.
  - vm_compute; reflexivity.
  - split; [exact Hrun|].
    specialize (Hsecond "Satellite" "Earth" [BaseAccelerationSettings aerodynamic]
                  "Ghost" [BaseAccelerationSettings central_gravity] [] []
                  "Earth" Scenario.pSatellite Scenario.pEarth eq_refl).
    destruct (createAccelerationModelsMap (Scenario.platform LeftToRight)
                Scenario.bodyMap
                [("Satellite", [("Earth", [BaseAccelerationSettings aerodynamic])])]
                Scenario.centralBodies Scenario.world) as [m w1|x w1] eqn:E.
    + destruct Hsecond as (Hkind & Hworld & Hcount).
      * vm_compute; reflexivity.
      * right. vm_compute. eexists. reflexivity.
      * vm_compute; reflexivity.
      * vm_compute; reflexivity.
      * vm_compute; reflexivity.
      * split; [exact Hkind|]. rewrite Hworld. exact Hcount.
    + vm_compute in E. discriminate E.
Defined.

(** The ordering function on [thrust, aerodynamic]. *)
Lemma ordering_rule_thrust_aerodynamic :
  Revised.orderAccelerationList
    [BaseAccelerationSettings thrust_acceleration;
     BaseAccelerationSettings aerodynamic]
  = inr [BaseAccelerationSettings aerodynamic;
         BaseAccelerationSettings thrust_acceleration].
Proof.
  destruct ordering_rule_and_unordered_assembly as (_ & _ & HC & _).
  apply HC; reflexivity.
Defined.

(** Mars: frames "IAU_Earth" and "IAU_Mars". *)
Lemma frame_consistency_Mars :
  hasReturned
    (createSphericalHarmonicsGravityAcceleration
       Scenario.pSatellite Scenario.pMars "Satellite" "Mars"
       (SphericalHarmonicAccelerationSettings 4 4) true Scenario.world) = true
  /\ thrownKind
       (Revised.createSphericalHarmonicsGravityAcceleration
          Scenario.pSatellite Scenario.pMars "Satellite" "Mars"
          (SphericalHarmonicAccelerationSettings 4 4) true Scenario.world)
     = Some FrameMismatchError.
Proof.
  destruct (frame_consistency_checked_only_by_later_revision
              Scenario.world Scenario.pSatellite Scenario.pMars
              "Satellite" "Mars" 4 4 true Scenario.Satellite Scenario.Mars
              Scenario.marsField {| targetFrameOrientation := "IAU_Earth" |})
    as ([m Hm] & _ & Hiff).
  - vm_compute; reflexivity.
  - vm_compute; reflexivity.
  - reflexivity.
  - reflexivity.
  - split.
    + rewrite Hm. reflexivity.
    + apply Hiff. cbn. discriminate.
Defined.

(** * Further properties *)

(** ** Ephemeris update order *)

Lemma find_Some (v : list string) (x : string) :
  forall i, Propagators.find v x = Some i -> v !! i = Some x.
Proof.
  induction v as [|y rest IH]; intros i; cbn [Propagators.find]; [discriminate|].
  destruct (String.eqb_spec y x) as [->|Hne].
  - intros H. injection H as <-. reflexivity.
  - destruct (Propagators.find rest x) as [j|]; cbn; [|discriminate].
    intros H. injection H as <-. cbn. now apply IH.
Qed.

Lemma find_None (v : list string) (x : string) :
  Propagators.find v x = None <-> ~ In x v.
Proof.
  split.
  - intros Hnone. induction v as [|y rest IH]; [intros []|].
    cbn [Propagators.find] in Hnone.
    destruct (String.eqb_spec y x) as [->|Hne]; [discriminate Hnone|].
    destruct (Propagators.find rest x) as [i|]; [discriminate Hnone|].
    intros [Heq|Hin]; [contradiction|]. now apply IH.
  - intros Hnot. destruct (Propagators.find v x) as [i|] eqn:E; [|reflexivity].
    exfalso. apply Hnot. apply find_Some in E.
    apply list_elem_of_In. apply list_elem_of_lookup. now exists i.
Qed.

Lemma at_inr {A} (v : list A) (i : nat) (x : A) :
  Revised.at_ v i = inr x <-> v !! i = Some x.
Proof.
  unfold Revised.at_. destruct (v !! i); split; intros H;
    try discriminate H; now injection H as ->.
Qed.

(** What one pass does when it does not throw. *)
Lemma handleCurrentIndex_inr (s s' : Propagators.LoopState) :
  Propagators.handleCurrentIndex s = inr s' ->
  (exists body central origin,
      Propagators.integratedBodies s !! Propagators.currentIndex s = Some body
      /\ Propagators.centralBodies s !! Propagators.currentIndex s = Some central
      /\ Propagators.ephemerisOrigins s !! Propagators.currentIndex s = Some origin
      /\ ~ In central (Propagators.integratedBodies s)
      /\ ~ In origin (Propagators.integratedBodies s)
      /\ s' = Propagators.addToUpdateOrder s body)
  \/ (exists i, is_Some (Propagators.integratedBodies s !! i)
                /\ s' = Propagators.setCurrentIndex s i).
Proof.
  unfold Propagators.handleCurrentIndex.
  destruct (Revised.at_ (Propagators.centralBodies s) (Propagators.currentIndex s))
    as [e|central] eqn:Hc; [discriminate|].
  destruct (Revised.at_ (Propagators.ephemerisOrigins s) (Propagators.currentIndex s))
    as [e|origin] eqn:Ho; [discriminate|].
  apply at_inr in Hc, Ho.
  destruct (Propagators.find (Propagators.integratedBodies s) central) as [i|] eqn:Hfc;
    destruct (Propagators.find (Propagators.integratedBodies s) origin) as [j|] eqn:Hfo.
  - intros H. injection H as <-. right. exists (Nat.min i j). split; [|reflexivity].
    apply find_Some in Hfc, Hfo.
    destruct (Nat.min_spec i j) as [[_ ->]|[_ ->]]; eauto.
  - intros H. injection H as <-. right. exists i. split; [|reflexivity].
    apply find_Some in Hfc. eauto.
  - intros H. injection H as <-. right. exists j. split; [|reflexivity].
    apply find_Some in Hfo. eauto.
  - destruct (Revised.at_ (Propagators.integratedBodies s) (Propagators.currentIndex s))
      as [e|body] eqn:Hb; [discriminate|].
    apply at_inr in Hb. intros H. injection H as <-. left.
    exists body, central, origin.
    repeat split; try assumption; now apply find_None.
Qed.

Lemma loopBody_inr (s s' : Propagators.LoopState) :
  Propagators.loopBody s = inr s' ->
  exists s1,
    Propagators.handleCurrentIndex s = inr s1
    /\ S (Propagators.counter s1) <= Propagators.iterationLimit
    /\ s' = Propagators.incrementCounter s1.
Proof.
  unfold Propagators.loopBody.
  destruct (Propagators.handleCurrentIndex s) as [e|s1]; [discriminate|].
  destruct (Nat.ltb_spec Propagators.iterationLimit (S (Propagators.counter s1)))
    as [Hlt|Hle]; [discriminate|].
  intros Heq. injection Heq as <-. exists s1.
  split; [reflexivity|]. split; [exact Hle|reflexivity].
Qed.

(** A property kept by every pass holds in the state the loop ends in. *)
Lemma whileNotFinished_invariant (Inv : Propagators.LoopState -> Prop) :
  (forall s s', Inv s -> Propagators.isFinished s = false ->
                Propagators.loopBody s = inr s' -> Inv s') ->
  forall fuel s order,
    Inv s -> Propagators.whileNotFinished fuel s = inr order ->
    exists final, Inv final /\ Propagators.isFinished final = true
                  /\ Propagators.updateOrder final = order.
Proof.
  intros Hstep. induction fuel as [|fuel IH]; intros s order HI Hrun;
    cbn [Propagators.whileNotFinished] in Hrun;
    destruct (Propagators.isFinished s) eqn:Hfin.
  - injection Hrun as <-. now exists s.
  - discriminate Hrun.
  - injection Hrun as <-. now exists s.
  - destruct (Propagators.loopBody s) as [e|s'] eqn:Hbody; [discriminate|].
    apply (IH s' order); [|exact Hrun]. now apply (Hstep s s').
Qed.

Lemma In_delete {A} (l : list A) (k : nat) (x : A) :
  In x (delete k l) -> In x l.
Proof.
  revert k. induction l as [|y rest IH]; intros k; [destruct k; intros []|].
  destruct k as [|k]; cbn.
  - intros H. now right.
  - intros [->|H]; [now left|]. right. now apply (IH k).
Qed.

Lemma zip_delete {A B} (a : list A) (b : list B) (k : nat) :
  is_Some (a !! k) -> is_Some (b !! k) ->
  zip (delete k a) (delete k b) = delete k (zip a b).
Proof.
  revert a b. induction k as [|k IH]; intros [|x a] [|y b] [? Ha] [? Hb];
    try discriminate Ha; try discriminate Hb; cbn.
  - reflexivity.
  - f_equal. apply IH; eauto.
Qed.

(** The part of the state that every pass keeps up: the bodies handled
    so far and the bodies still to handle are the bodies given; the loop
    finishes only with no body left; every pass but the handling of a body
    costs one count. *)
Lemma update_order_step (bodies0 : list string) (s s' : Propagators.LoopState) :
  Propagators.isFinished s = false ->
  Propagators.loopBody s = inr s' ->
  (Propagators.updateOrder s ++ Propagators.integratedBodies s)%list ≡ₚ bodies0 ->
  length bodies0 <= Propagators.counter s + length (Propagators.integratedBodies s) ->
  ((Propagators.updateOrder s' ++ Propagators.integratedBodies s')%list ≡ₚ bodies0)
  /\ (Propagators.isFinished s' = true -> Propagators.integratedBodies s' = [])
  /\ length bodies0 <= Propagators.counter s' + length (Propagators.integratedBodies s')
  /\ Propagators.counter s' <= Propagators.iterationLimit.
Proof.
  intros Hfin Hbody Hperm Hlen.
  destruct (loopBody_inr s s' Hbody) as (s1 & Hhandle & Hlimit & ->).
  destruct (handleCurrentIndex_inr s s1 Hhandle)
    as [(body & central & origin & Hb & _ & _ & _ & _ & ->)|(i & _ & ->)].
  - cbn [Propagators.incrementCounter Propagators.addToUpdateOrder
           Propagators.updateOrder Propagators.integratedBodies
           Propagators.isFinished Propagators.counter] in *.
    pose proof (delete_Permutation _ _ _ Hb) as Hdel.
    assert (Hl : length (Propagators.integratedBodies s) =
                 S (length (delete (Propagators.currentIndex s)
                              (Propagators.integratedBodies s)))).
    { now rewrite Hdel at 1. }
    split; [|split; [|split]].
    + rewrite <- Hperm, <- app_assoc. apply Permutation_app_head.
      cbn. now symmetry.
    + rewrite Hfin.
      destruct (delete (Propagators.currentIndex s) (Propagators.integratedBodies s));
        [reflexivity|discriminate].
    + lia.
    + exact Hlimit.
  - cbn [Propagators.incrementCounter Propagators.setCurrentIndex
           Propagators.updateOrder Propagators.integratedBodies
           Propagators.isFinished Propagators.counter] in *.
    split; [exact Hperm|]. split; [rewrite Hfin; discriminate|].
    split; [lia|exact Hlimit].
Qed.

Lemma update_order_returned (bodies_ centrals origins order : list string) :
  Propagators.determineEphemerisUpdateorder bodies_ centrals origins = inr order ->
  order ≡ₚ bodies_ /\ length bodies_ <= Propagators.iterationLimit.
Proof.
  intros Hrun. unfold Propagators.determineEphemerisUpdateorder in Hrun.
  destruct (whileNotFinished_invariant
              (fun s =>
                 ((Propagators.updateOrder s ++ Propagators.integratedBodies s)%list
                    ≡ₚ bodies_)
                 /\ (Propagators.isFinished s = true ->
                     Propagators.integratedBodies s = []
                     /\ Propagators.counter s <= Propagators.iterationLimit)
                 /\ length bodies_ <=
                    Propagators.counter s + length (Propagators.integratedBodies s))
              ) with (fuel := S Propagators.iterationLimit)
                     (s := Propagators.initialState bodies_ centrals origins)
                     (order := order)
    as (final & (Hperm & Hdone & Hlen) & Hfin & <-).
  - intros s s' (Hperm & _ & Hlen) Hfin Hbody.
    destruct (update_order_step bodies_ s s' Hfin Hbody Hperm Hlen)
      as (H1 & H2 & H3 & H4).
    split; [exact H1|]. split; [|exact H3]. intros Hf. split; [now apply H2|exact H4].
  - cbn. split; [reflexivity|]. split; [discriminate|]. cbn. lia.
  - exact Hrun.
  - destruct (Hdone Hfin) as [Hnil Hcount]. rewrite Hnil in Hperm, Hlen.
    rewrite app_nil_r in Hperm. split; [exact Hperm|]. cbn in Hlen. lia.
Qed.

(** With no integrated body the first pass throws [std::out_of_range]:
    from [centralBodies.at( 0 )], from [ephemerisOrigins.at( 0 )] or from
    [integratedBodies.at( 0 )]. *)
Lemma update_order_empty (centrals origins : list string) :
  Propagators.determineEphemerisUpdateorder [] centrals origins = inl out_of_range.
Proof.
  unfold Propagators.determineEphemerisUpdateorder.
  cbn [Propagators.whileNotFinished Propagators.initialState Propagators.isFinished].
  unfold Propagators.loopBody, Propagators.handleCurrentIndex.
  cbn [Propagators.initialState Propagators.centralBodies Propagators.ephemerisOrigins
         Propagators.integratedBodies Propagators.currentIndex].
  destruct centrals as [|c centrals]; [reflexivity|].
  destruct origins as [|o origins]; reflexivity.
Qed.

(** X1: when [determineEphemerisUpdateorder] returns, the update order
    holds exactly the integrated bodies, each as often as it was given. *)
Theorem update_order_is_permutation
    (bodies_ centrals origins order : list string)
    (Hrun : Propagators.determineEphemerisUpdateorder bodies_ centrals origins
            = inr order) :
  order ≡ₚ bodies_ /\ length order = length bodies_.
Proof.
  destruct (update_order_returned bodies_ centrals origins order Hrun) as [Hperm _].
  split; [exact Hperm|]. now rewrite Hperm.
Qed.

(** X2: [determineEphemerisUpdateorder] returns only for at least one and
    at most 10000 integrated bodies: with none the first pass throws
    [std::out_of_range], and every body costs a pass of the loop, whose
    10001st pass throws. *)
Theorem update_order_size_bounds (bodies_ centrals origins : list string) :
  (bodies_ = [] ->
   Propagators.determineEphemerisUpdateorder bodies_ centrals origins
   = inl out_of_range)
  /\ (forall order,
        Propagators.determineEphemerisUpdateorder bodies_ centrals origins = inr order ->
        1 <= length bodies_ <= Propagators.iterationLimit).
Proof.
  split.
  - intros ->. apply update_order_empty.
  - intros order Hrun.
    destruct (update_order_returned bodies_ centrals origins order Hrun) as [_ Hle].
    split.
    + destruct bodies_; [|cbn; lia].
      rewrite update_order_empty in Hrun. discriminate Hrun.
    + exact Hle.
Qed.

Lemma resolved_snoc (done : list (string * (string * string)))
    (remaining : list string) (k : nat) (body central origin : string) :
  Propagators.resolved done remaining ->
  remaining !! k = Some body ->
  ~ In central remaining -> ~ In origin remaining ->
  Propagators.resolved (done ++ [(body, (central, origin))]) (delete k remaining).
Proof.
  intros Hres Hk Hc Ho i t Hi x Hx.
  assert (Hbody : In body remaining).
  { apply list_elem_of_In, list_elem_of_lookup. now exists k. }
  destruct (decide (i < length done)) as [Hlt|Hge].
  - rewrite lookup_app_l in Hi by exact Hlt.
    apply (Hres i t Hi x).
    rewrite drop_app_le in Hx by lia. rewrite map_app, in_app_iff in Hx.
    destruct Hx as [[Hx|Hx]|Hx].
    + now left.
    + cbn in Hx. destruct Hx as [<-|[]]. now right.
    + right. now apply (In_delete _ k).
  - assert (i = length done).
    { apply lookup_lt_Some in Hi. rewrite length_app in Hi. cbn in Hi. lia. }
    subst i. rewrite list_lookup_middle in Hi by reflexivity.
    injection Hi as <-. cbn [fst snd].
    assert (Hin : In x remaining).
    { rewrite drop_app_length in Hx. cbn in Hx.
      destruct Hx as [[<-|[]]|Hx]; [exact Hbody|now apply (In_delete _ k)]. }
    split; intros ->; contradiction.
Qed.

(** The order in which the entries are handled. *)
Lemma update_order_entries (bodies_ centrals origins order : list string) :
  Propagators.determineEphemerisUpdateorder bodies_ centrals origins = inr order ->
  exists l,
    l ≡ₚ Propagators.entries bodies_ centrals origins
    /\ map fst l = order
    /\ Propagators.resolved l [].
Proof.
  intros Hrun. unfold Propagators.determineEphemerisUpdateorder in Hrun.
  destruct (whileNotFinished_invariant
              (fun s =>
                 (Propagators.isFinished s = true ->
                  Propagators.integratedBodies s = [])
                 /\ exists done,
                      map fst done = Propagators.updateOrder s
                      /\ (done ++ Propagators.entries (Propagators.integratedBodies s)
                                    (Propagators.centralBodies s)
                                    (Propagators.ephemerisOrigins s))%list
                         ≡ₚ Propagators.entries bodies_ centrals origins
                      /\ Propagators.resolved done (Propagators.integratedBodies s)))
    with (fuel := S Propagators.iterationLimit)
         (s := Propagators.initialState bodies_ centrals origins)
         (order := order)
    as (final & (Hdone & l & Hmap & Hperm & Hres) & Hfin & <-).
  - intros s s' (_ & done & Hmap & Hperm & Hres) Hfin Hbody.
    destruct (loopBody_inr s s' Hbody) as (s1 & Hhandle & _ & ->).
    destruct (handleCurrentIndex_inr s s1 Hhandle)
      as [(body & central & origin & Hb & Hc & Ho & Hnc & Hno & ->)|(i & _ & ->)].
    + cbn [Propagators.incrementCounter Propagators.addToUpdateOrder
             Propagators.updateOrder Propagators.integratedBodies
             Propagators.centralBodies Propagators.ephemerisOrigins
             Propagators.isFinished].
      split.
      { rewrite Hfin.
        destruct (delete (Propagators.currentIndex s) (Propagators.integratedBodies s));
          [reflexivity|discriminate]. }
      exists (done ++ [(body, (central, origin))])%list.
      split; [now rewrite map_app, Hmap|]. split.
      * unfold Propagators.entries in *.
        rewrite (zip_delete (Propagators.centralBodies s)
                   (Propagators.ephemerisOrigins s)) by eauto.
        rewrite zip_delete;
          [|eauto|exists (central, origin); apply lookup_zip_Some; now split].
        rewrite <- Hperm, <- app_assoc. apply Permutation_app_head. cbn.
        symmetry. apply delete_Permutation. apply lookup_zip_Some. split; [exact Hb|].
        apply lookup_zip_Some. now split.
      * now apply resolved_snoc.
    + cbn [Propagators.incrementCounter Propagators.setCurrentIndex
             Propagators.updateOrder Propagators.integratedBodies
             Propagators.centralBodies Propagators.ephemerisOrigins
             Propagators.isFinished].
      split; [rewrite Hfin; discriminate|]. exists done.
      split; [exact Hmap|]. split; [exact Hperm|exact Hres].
  - split; [discriminate|]. exists [].
    cbn [Propagators.initialState Propagators.updateOrder
           Propagators.integratedBodies Propagators.centralBodies
           Propagators.ephemerisOrigins map app].
    split; [reflexivity|].
    split; [reflexivity|]. intros i t Hi. discriminate Hi.
  - exact Hrun.
  - exists l. rewrite (Hdone Hfin) in Hperm, Hres.
    unfold Propagators.entries in Hperm at 1. cbn [zip zip_with] in Hperm.
    rewrite app_nil_r in Hperm.
    split; [exact Hperm|]. split; [exact Hmap|exact Hres].
Qed.

(** X3: the order returned handles every body after its central body and
    after its ephemeris origin, whenever those are integrated bodies: the
    entries are handled in an order in which no entry's central body or
    ephemeris origin is that entry's own body or the body of an entry
    handled later. *)
Theorem update_order_respects_dependencies
    (bodies_ centrals origins order : list string)
    (Hrun : Propagators.determineEphemerisUpdateorder bodies_ centrals origins
            = inr order) :
  exists l,
    l ≡ₚ Propagators.entries bodies_ centrals origins
    /\ map fst l = order
    /\ (forall i body central origin,
          l !! i = Some (body, (central, origin)) ->
          ~ In central (drop i order) /\ ~ In origin (drop i order)).
Proof.
  destruct (update_order_entries bodies_ centrals origins order Hrun)
    as (l & Hperm & Hmap & Hres).
  exists l. split; [exact Hperm|]. split; [exact Hmap|].
  intros i body central origin Hi. rewrite <- Hmap, skipn_map.
  split; intros Hin.
  - destruct (Hres i _ Hi central (or_introl Hin)) as [H _]. now apply H.
  - destruct (Hres i _ Hi origin (or_introl Hin)) as [_ H]. now apply H.
Qed.

(** For vectors of equal length, a pass that starts at a valid index
    either ends in such a state again or is the pass that throws at the
    iteration limit. *)
Lemma loopBody_aligned (s : Propagators.LoopState) :
  length (Propagators.centralBodies s) = length (Propagators.integratedBodies s) ->
  length (Propagators.ephemerisOrigins s) = length (Propagators.integratedBodies s) ->
  Propagators.currentIndex s < length (Propagators.integratedBodies s) ->
  Propagators.counter s <= Propagators.iterationLimit ->
  (exists s',
      Propagators.loopBody s = inr s'
      /\ length (Propagators.centralBodies s') = length (Propagators.integratedBodies s')
      /\ length (Propagators.ephemerisOrigins s') = length (Propagators.integratedBodies s')
      /\ (Propagators.isFinished s' = false ->
          Propagators.currentIndex s' < length (Propagators.integratedBodies s'))
      /\ Propagators.counter s' = S (Propagators.counter s)
      /\ Propagators.counter s' <= Propagators.iterationLimit)
  \/ Propagators.loopBody s
     = inl (Propagators.iterationLimitError (S Propagators.iterationLimit)).
Proof.
  intros Hlc Hlo Hidx Hcount.
  destruct (lookup_lt_is_Some_2 (Propagators.integratedBodies s) _ Hidx) as [body Hb].
  destruct (lookup_lt_is_Some_2 (Propagators.centralBodies s)
              (Propagators.currentIndex s)) as [central Hc]; [lia|].
  destruct (lookup_lt_is_Some_2 (Propagators.ephemerisOrigins s)
              (Propagators.currentIndex s)) as [origin Ho]; [lia|].
  assert (Hhandle : exists s1,
             Propagators.handleCurrentIndex s = inr s1
             /\ length (Propagators.centralBodies s1) = length (Propagators.integratedBodies s1)
             /\ length (Propagators.ephemerisOrigins s1) = length (Propagators.integratedBodies s1)
             /\ (Propagators.isFinished s1 = false ->
                 Propagators.currentIndex s1 < length (Propagators.integratedBodies s1))
             /\ Propagators.counter s1 = Propagators.counter s).
  { unfold Propagators.handleCurrentIndex.
    rewrite (proj2 (at_inr _ _ _) Hc), (proj2 (at_inr _ _ _) Ho).
    destruct (Propagators.find (Propagators.integratedBodies s) central) as [i|] eqn:Hfc;
      destruct (Propagators.find (Propagators.integratedBodies s) origin) as [j|] eqn:Hfo.
    - eexists. split; [reflexivity|]. cbn. repeat split; try assumption.
      intros _. apply find_Some, lookup_lt_Some in Hfc.
      apply find_Some, lookup_lt_Some in Hfo. lia.
    - eexists. split; [reflexivity|]. cbn. repeat split; try assumption.
      intros _. now apply find_Some, lookup_lt_Some in Hfc.
    - eexists. split; [reflexivity|]. cbn. repeat split; try assumption.
      intros _. now apply find_Some, lookup_lt_Some in Hfo.
    - rewrite (proj2 (at_inr _ _ _) Hb). eexists. split; [reflexivity|].
      cbn [Propagators.addToUpdateOrder Propagators.centralBodies
             Propagators.ephemerisOrigins Propagators.integratedBodies
             Propagators.isFinished Propagators.currentIndex Propagators.counter].
      rewrite !length_delete by eauto.
      split; [lia|]. split; [lia|]. split; [|reflexivity].
      destruct (length (Propagators.integratedBodies s) - 1) eqn:E;
        cbn [Nat.eqb]; [discriminate|lia]. }
  destruct Hhandle as (s1 & Hh & H1 & H2 & H3 & H4).
  unfold Propagators.loopBody. rewrite Hh.
  destruct (Nat.ltb_spec Propagators.iterationLimit (S (Propagators.counter s1)))
    as [Hlt|Hle].
  - right. do 2 f_equal. lia.
  - left. eexists. split; [reflexivity|].
    cbn [Propagators.incrementCounter Propagators.centralBodies
           Propagators.ephemerisOrigins Propagators.integratedBodies
           Propagators.isFinished Propagators.currentIndex Propagators.counter].
    repeat split; try assumption; lia.
Qed.

Lemma whileNotFinished_aligned :
  forall fuel s,
    length (Propagators.centralBodies s) = length (Propagators.integratedBodies s) ->
    length (Propagators.ephemerisOrigins s) = length (Propagators.integratedBodies s) ->
    (Propagators.isFinished s = false ->
     Propagators.currentIndex s < length (Propagators.integratedBodies s)) ->
    Propagators.counter s <= Propagators.iterationLimit ->
    Propagators.counter s + fuel = S Propagators.iterationLimit ->
    (exists order, Propagators.whileNotFinished fuel s = inr order)
    \/ Propagators.whileNotFinished fuel s
       = inl (Propagators.iterationLimitError (S Propagators.iterationLimit)).
Proof.
  induction fuel as [|fuel IH]; intros s Hlc Hlo Hidx Hcount Hfuel;
    cbn [Propagators.whileNotFinished];
    destruct (Propagators.isFinished s) eqn:Hfin;
    try (left; eexists; reflexivity).
  - exfalso. lia.
  - destruct (loopBody_aligned s Hlc Hlo (Hidx eq_refl) Hcount)
      as [(s' & -> & H1 & H2 & H3 & H4 & H5)| ->]; [|now right].
    apply IH; try assumption. lia.
Qed.

Lemma update_order_only_iteration_limit_aux
    (bodies_ centrals origins : list string)
    (Hc : length centrals = length bodies_)
    (Ho : length origins = length bodies_)
    (Hne : bodies_ <> []) :
  (exists order,
      Propagators.determineEphemerisUpdateorder bodies_ centrals origins = inr order)
  \/ Propagators.determineEphemerisUpdateorder bodies_ centrals origins
     = inl (runtime_error ConfigurationError
              "Warning, ephemeris update order determination now at iteration 10001").
Proof.
  unfold Propagators.determineEphemerisUpdateorder.
  destruct (whileNotFinished_aligned (S Propagators.iterationLimit)
              (Propagators.initialState bodies_ centrals origins))
    as [H|H]; try assumption.
  - intros _. cbn. destruct bodies_; [contradiction|cbn; lia].
  - cbn [Propagators.initialState Propagators.counter]. lia.
  - reflexivity.
  - now left.
  - right. rewrite H. vm_compute. reflexivity.
Qed.

(** X4: for three vectors of the same length that hold at least one body,
    [determineEphemerisUpdateorder] never throws [std::out_of_range]: it
    returns an order, or it throws the [runtime_error] of the iteration
    check with the count 10001. *)
Theorem update_order_only_iteration_limit
    (bodies_ centrals origins : list string)
    (Hc : length centrals = length bodies_)
    (Ho : length origins = length bodies_)
    (Hne : bodies_ <> []) :
  (exists order,
      Propagators.determineEphemerisUpdateorder bodies_ centrals origins = inr order)
  \/ Propagators.determineEphemerisUpdateorder bodies_ centrals origins
     = inl (runtime_error ConfigurationError
              "Warning, ephemeris update order determination now at iteration 10001").
Proof.
  exact (update_order_only_iteration_limit_aux bodies_ centrals origins Hc Ho Hne).
Qed.

Lemma lookup_in_drop {A} (l : list A) (i j : nat) (x : A) :
  l !! j = Some x -> i <= j -> In x (drop i l).
Proof.
  intros Hj Hle. apply list_elem_of_In, list_elem_of_lookup. exists (j - i).
  rewrite lookup_drop. now replace (i + (j - i)) with j by lia.
Qed.

(** Two entries whose bodies need each other (or one entry that needs its
    own body) are never both handled. *)
Lemma update_order_cycle_not_returned
    (bodies_ centrals origins : list string)
    (a ca oa b cb ob : string) :
  In (a, (ca, oa)) (Propagators.entries bodies_ centrals origins) ->
  In (b, (cb, ob)) (Propagators.entries bodies_ centrals origins) ->
  ca = b \/ oa = b -> cb = a \/ ob = a ->
  forall order,
    Propagators.determineEphemerisUpdateorder bodies_ centrals origins <> inr order.
Proof.
  intros Ha Hb Hab Hba order Hrun.
  destruct (update_order_entries bodies_ centrals origins order Hrun)
    as (l & Hperm & _ & Hres).
  apply list_elem_of_In in Ha, Hb. rewrite <- Hperm in Ha, Hb.
  apply list_elem_of_lookup in Ha, Hb. destruct Ha as [i Hi]. destruct Hb as [j Hj].
  destruct (decide (i <= j)) as [Hle|Hgt].
  - assert (Hin : In b (map fst (drop i l))).
    { apply (in_map fst _ (b, (cb, ob))). exact (lookup_in_drop l i j _ Hj Hle). }
    destruct (Hres i _ Hi b (or_introl Hin)) as [H1 H2]. cbn in H1, H2.
    destruct Hab as [<-|<-]; contradiction.
  - assert (Hin : In a (map fst (drop j l))).
    { apply (in_map fst _ (a, (ca, oa))). apply (lookup_in_drop l j i _ Hi). lia. }
    destruct (Hres j _ Hj a (or_introl Hin)) as [H1 H2]. cbn in H1, H2.
    destruct Hba as [<-|<-]; contradiction.
Qed.

(** X5: a body that is its own central body or ephemeris origin, or two
    bodies each of which has the other as central body or ephemeris
    origin, make [determineEphemerisUpdateorder] throw: for vectors of the
    same length the exception is the [runtime_error] of the iteration
    check, raised in pass 10001. *)
Theorem update_order_circular_dependency_throws
    (bodies_ centrals origins : list string)
    (a ca oa b cb ob : string)
    (Hc : length centrals = length bodies_)
    (Ho : length origins = length bodies_)
    (Ha : In (a, (ca, oa)) (Propagators.entries bodies_ centrals origins))
    (Hb : In (b, (cb, ob)) (Propagators.entries bodies_ centrals origins))
    (Hab : ca = b \/ oa = b)
    (Hba : cb = a \/ ob = a) :
  Propagators.determineEphemerisUpdateorder bodies_ centrals origins
  = inl (runtime_error ConfigurationError
           "Warning, ephemeris update order determination now at iteration 10001").
Proof.
  assert (Hne : bodies_ <> []).
  { intros ->. destruct Ha. }
  destruct (update_order_only_iteration_limit_aux bodies_ centrals origins Hc Ho Hne)
    as [[order Hrun]|H]; [|exact H].
  exfalso.
  exact (update_order_cycle_not_returned bodies_ centrals origins
           a ca oa b cb ob Ha Hb Hab Hba order Hrun).
Qed.

Lemma independent_bodies_run :
  forall bodies_ centrals origins order count fuel,
    length centrals = length bodies_ ->
    length origins = length bodies_ ->
    bodies_ <> [] ->
    (forall x, In x centrals -> ~ In x bodies_) ->
    (forall x, In x origins -> ~ In x bodies_) ->
    count + length bodies_ <= Propagators.iterationLimit ->
    length bodies_ <= fuel ->
    Propagators.whileNotFinished fuel
      {| Propagators.integratedBodies := bodies_;
         Propagators.centralBodies := centrals;
         Propagators.ephemerisOrigins := origins;
         Propagators.updateOrder := order;
         Propagators.isFinished := false;
         Propagators.currentIndex := 0;
         Propagators.counter := count |}
    = inr (order ++ bodies_)%list.
Proof.
  induction bodies_ as [|b rest IH];
    intros centrals origins order count fuel Hc Ho Hne Hic Hio Hcount Hfuel;
    [contradiction|].
  destruct centrals as [|c centrals]; [discriminate Hc|].
  destruct origins as [|o origins]; [discriminate Ho|].
  destruct fuel as [|fuel]; [cbn in Hfuel; lia|].
  cbn [Propagators.whileNotFinished Propagators.isFinished].
  unfold Propagators.loopBody, Propagators.handleCurrentIndex.
  cbn [Propagators.centralBodies Propagators.ephemerisOrigins
         Propagators.integratedBodies Propagators.currentIndex].
  change (Revised.at_ (c :: centrals) 0) with (@inr Exception string c).
  change (Revised.at_ (o :: origins) 0) with (@inr Exception string o).
  change (Revised.at_ (b :: rest) 0) with (@inr Exception string b).
  cbv beta iota zeta.
  rewrite (proj2 (find_None (b :: rest) c)) by (apply Hic; now left).
  rewrite (proj2 (find_None (b :: rest) o)) by (apply Hio; now left).
  unfold Propagators.addToUpdateOrder.
  cbn [Propagators.centralBodies Propagators.ephemerisOrigins
         Propagators.integratedBodies Propagators.currentIndex
         Propagators.updateOrder Propagators.isFinished Propagators.counter
         delete list_delete].
  cbn [length] in Hcount, Hfuel, Hc, Ho.
  destruct (Nat.ltb_spec Propagators.iterationLimit (S count)) as [Hlt|Hle]; [lia|].
  unfold Propagators.incrementCounter.
  cbn [Propagators.centralBodies Propagators.ephemerisOrigins
         Propagators.integratedBodies Propagators.currentIndex
         Propagators.updateOrder Propagators.isFinished Propagators.counter].
  destruct rest as [|b' rest'].
  - cbn [length Nat.eqb]. destruct fuel; cbn [Propagators.whileNotFinished Propagators.isFinished];
      reflexivity.
  - cbn [length Nat.eqb].
    rewrite (IH centrals origins (order ++ [b])%list (S count) fuel).
    + now rewrite <- app_assoc.
    + cbn [length] in *. lia.
    + cbn [length] in *. lia.
    + discriminate.
    + intros x Hx Hin. apply (Hic x); [now right|now right].
    + intros x Hx Hin. apply (Hio x); [now right|now right].
    + cbn [length] in *. lia.
    + cbn [length] in *. lia.
Qed.

(** X6: when no central body and no ephemeris origin is itself an
    integrated body, the update order is the order in which the bodies
    were given (for at least one and at most 10000 bodies and vectors of
    the same length). *)
Theorem update_order_of_independent_bodies
    (bodies_ centrals origins : list string)
    (Hc : length centrals = length bodies_)
    (Ho : length origins = length bodies_)
    (Hne : bodies_ <> [])
    (Hmax : length bodies_ <= Propagators.iterationLimit)
    (Hic : forall x, In x centrals -> ~ In x bodies_)
    (Hio : forall x, In x origins -> ~ In x bodies_) :
  Propagators.determineEphemerisUpdateorder bodies_ centrals origins = inr bodies_.
Proof.
  unfold Propagators.determineEphemerisUpdateorder, Propagators.initialState.
  rewrite (independent_bodies_run bodies_ centrals origins [] 0
             (S Propagators.iterationLimit)); try assumption.
  - reflexivity.
  - lia.
Qed.

(** The Moon about the Earth, the Earth about the Sun, a satellite about
    the Moon. *)
Lemma update_order_Earth_Moon_satellite :
  Propagators.determineEphemerisUpdateorder
    ["Moon"; "Earth"; "Satellite"] ["Earth"; "Sun"; "Moon"] ["SSB"; "SSB"; "SSB"]
  = inr ["Earth"; "Moon"; "Satellite"].
Proof. vm_compute. reflexivity. Qed.

Lemma update_order_is_permutation_witness :
  ["Earth"; "Moon"; "Satellite"] ≡ₚ ["Moon"; "Earth"; "Satellite"]
  /\ length ["Earth"; "Moon"; "Satellite"] = length ["Moon"; "Earth"; "Satellite"].
Proof.
  apply (update_order_is_permutation
           ["Moon"; "Earth"; "Satellite"] ["Earth"; "Sun"; "Moon"]
           ["SSB"; "SSB"; "SSB"] ["Earth"; "Moon"; "Satellite"]).
  vm_compute. reflexivity.
Defined.

Lemma update_order_respects_dependencies_witness :
  exists l,
    l ≡ₚ Propagators.entries ["Moon"; "Earth"; "Satellite"]
           ["Earth"; "Sun"; "Moon"] ["SSB"; "SSB"; "SSB"]
    /\ map fst l = ["Earth"; "Moon"; "Satellite"]
    /\ (forall i body central origin,
          l !! i = Some (body, (central, origin)) ->
          ~ In central (drop i ["Earth"; "Moon"; "Satellite"])
          /\ ~ In origin (drop i ["Earth"; "Moon"; "Satellite"])).
Proof.
  apply (update_order_respects_dependencies
           ["Moon"; "Earth"; "Satellite"] ["Earth"; "Sun"; "Moon"]
           ["SSB"; "SSB"; "SSB"] ["Earth"; "Moon"; "Satellite"]).
  vm_compute. reflexivity.
Defined.

Lemma update_order_only_iteration_limit_witness :
  (exists order,
      Propagators.determineEphemerisUpdateorder
        ["Moon"; "Earth"] ["Earth"; "Moon"] ["SSB"; "SSB"] = inr order)
  \/ Propagators.determineEphemerisUpdateorder
       ["Moon"; "Earth"] ["Earth"; "Moon"] ["SSB"; "SSB"]
     = inl (runtime_error ConfigurationError
              "Warning, ephemeris update order determination now at iteration 10001").
Proof.
  apply (update_order_only_iteration_limit
           ["Moon"; "Earth"] ["Earth"; "Moon"] ["SSB"; "SSB"]).
  - reflexivity.
  - reflexivity.
  - discriminate.
Defined.

(** The Moon about the Earth and the Earth about the Moon. *)
Lemma update_order_circular_dependency_witness :
  Propagators.determineEphemerisUpdateorder
    ["Moon"; "Earth"] ["Earth"; "Moon"] ["SSB"; "SSB"]
  = inl (runtime_error ConfigurationError
           "Warning, ephemeris update order determination now at iteration 10001").
Proof.
  apply (update_order_circular_dependency_throws
           ["Moon"; "Earth"] ["Earth"; "Moon"] ["SSB"; "SSB"]
           "Moon" "Earth" "SSB" "Earth" "Moon" "SSB").
  - reflexivity.
  - reflexivity.
  - cbn. now left.
  - cbn. right. now left.
  - now left.
  - now left.
Defined.

Lemma update_order_of_independent_bodies_witness :
  Propagators.determineEphemerisUpdateorder
    ["Moon"; "Earth"] ["SSB"; "SSB"] ["Sun"; "Sun"] = inr ["Moon"; "Earth"].
Proof.
  apply (update_order_of_independent_bodies
           ["Moon"; "Earth"] ["SSB"; "SSB"] ["Sun"; "Sun"]).
  - reflexivity.
  - reflexivity.
  - discriminate.
  - unfold Propagators.iterationLimit. cbn [length]. lia.
  - intros x [<-|[<-|[]]] [H|[H|[]]]; discriminate H.
  - intros x [<-|[<-|[]]] [H|[H|[]]]; discriminate H.
Defined.

(** ** What the builders leave behind, in general *)

Section StableBuilders.

Variable R : World -> World -> Prop.
Hypothesis R_refl : forall w, R w w.
Hypothesis R_trans : forall w1 w2 w3, R w1 w2 -> R w2 w3 -> R w1 w3.
Hypothesis R_construct : forall w, R w (recordConstruction w).

Lemma kept_bind {A B} (c : Cpp A) (k : A -> Cpp B) :
  stable R c -> (forall x, stable R (k x)) -> stable R (bind c k).
Proof.
  intros Hc Hk w. unfold bind. specialize (Hc w).
  destruct (c w) as [x w'|x w']; [|exact Hc].
  eapply R_trans; [exact Hc|apply Hk].
Qed.

Lemma kept_ret {A} (x : A) : stable R (ret x).
Proof. intros w. apply R_refl. Qed.

Lemma kept_throw {A} (x : Exception) : stable R (@throw A x).
Proof. intros w. apply R_refl. Qed.

Lemma kept_deref (p : BodyPtr) : stable R (deref p).
Proof. intros w. unfold deref. destruct (pointee w p); apply R_refl. Qed.

Lemma kept_make_shared {A} (x : A) : stable R (make_shared x).
Proof. intros w. apply R_construct. Qed.

Lemma kept_select (flag : bool) (u : BodyPtr) (f : unit -> double) :
  stable R (selectGravitationalParameterFunction flag u f).
Proof.
  intros w. destruct (select_outcome flag u f w) as [[f' ->] | ->]; apply R_refl.
Qed.

Lemma kept_central (u e : BodyPtr) (un en : string) (flag : bool) :
  stable R (createCentralGravityAcceleratioModel u e un en flag).
Proof.
  unfold createCentralGravityAcceleratioModel.
  apply kept_bind; [apply kept_deref|]. intros eb.
  destruct (gravityFieldModel eb); [|apply kept_throw].
  apply kept_bind; [apply kept_select|]. intros f. apply kept_make_shared.
Qed.

Lemma kept_spherical_harmonics (u e : BodyPtr) (un en : string)
    (settings : AccelerationSettings) (flag : bool) :
  stable R (createSphericalHarmonicsGravityAcceleration u e un en settings flag).
Proof.
  unfold createSphericalHarmonicsGravityAcceleration.
  destruct (asSphericalHarmonicAccelerationSettings settings) as [[d o]|];
    [|apply kept_throw].
  apply kept_bind; [apply kept_deref|]. intros eb.
  destruct (asSphericalHarmonicsGravityField (gravityFieldModel eb));
    [|apply kept_throw].
  apply kept_bind; [apply kept_select|]. intros f. apply kept_make_shared.
Qed.

Lemma kept_third_body (platform : Platform) (u e c : BodyPtr) (un en cn : string) :
  stable R (createThirdBodyCentralGravityAccelerationModel platform u e c un en cn).
Proof.
  unfold createThirdBodyCentralGravityAccelerationModel.
  destruct (argumentOrder platform);
    (apply kept_bind; [apply kept_central|]; intros m1;
     apply kept_bind; [apply kept_central|]; intros m2;
     apply kept_make_shared).
Qed.

Lemma kept_cannonball (u e : BodyPtr) (un en : string) :
  stable R (createCannonballRadiationPressureAcceleratioModel u e un en).
Proof.
  unfold createCannonballRadiationPressureAcceleratioModel.
  apply kept_bind; [apply kept_deref|]. intros ub.
  destruct (radiationPressureInterfaces ub !! en);
    [apply kept_make_shared|apply kept_throw].
Qed.

(** Every type but the aerodynamic one. *)
Lemma kept_dispatch_not_aerodynamic (platform : Platform) (u e c : BodyPtr)
    (settings : AccelerationSettings) (un en cn : string) :
  accelerationType_ settings <> aerodynamic ->
  stable R (createAccelerationModel platform u e settings un en c cn).
Proof.
  intros Hna. unfold createAccelerationModel, notRecognized.
  destruct (accelerationType_ settings).
  - destruct (String.eqb cn en || isFrameInertial cn).
    + apply kept_bind; [apply kept_central|]. intros m. apply kept_ret.
    + apply kept_bind; [apply kept_third_body|]. intros m. apply kept_ret.
  - contradiction.
  - apply kept_bind; [apply kept_cannonball|]. intros m. apply kept_throw.
  - destruct (String.eqb cn en || isFrameInertial cn).
    + apply kept_bind; [apply kept_spherical_harmonics|]. intros m.
      apply kept_ret.
    + apply kept_throw.
  - apply kept_throw.
  - apply kept_throw.
Qed.

Hypothesis R_attach :
  forall w a ub, bodies w !! a = Some ub -> flightConditions ub = None ->
                 R w (attachNew w a ub).

Lemma kept_aerodynamic (platform : Platform) (u e : BodyPtr) (un en : string) :
  stable R (createAerodynamicAcceleratioModel platform u e un en).
Proof.
  intros w. destruct u as [a|].
  - destruct (bodies w !! a) as [ub|] eqn:Hu.
    + rewrite (aerodynamic_builder_outcome platform w a e un en ub Hu).
      destruct (aerodynamicCoefficientInterface ub); [|apply R_refl].
      destruct (pointee w e) as [eb|]; [|apply R_refl].
      destruct (atmosphereModel eb); [|apply R_refl].
      destruct (shapeModel eb); [|apply R_refl].
      destruct (flightConditions ub) eqn:Hfc; [apply R_construct|].
      destruct (flightConditionsFactoryCheck platform w (Some a) e un en);
        [apply R_refl|].
      cbn [worldOf]. eapply R_trans; [|apply R_construct].
      now apply R_attach.
    + unfold createAerodynamicAcceleratioModel, bind, deref. cbn [pointee].
      rewrite Hu. apply R_refl.
  - apply R_refl.
Qed.

Lemma kept_dispatch (platform : Platform) (u e c : BodyPtr)
    (settings : AccelerationSettings) (un en cn : string) :
  stable R (createAccelerationModel platform u e settings un en c cn).
Proof.
  destruct (accelerationType_ settings) eqn:Ht;
    try (apply kept_dispatch_not_aerodynamic; rewrite Ht; discriminate).
  unfold createAccelerationModel. rewrite Ht.
  apply kept_bind; [apply kept_aerodynamic|]. intros m. apply kept_ret.
Qed.

Lemma kept_buildAccelerationList (platform : Platform)
    (bodyMap : gmap string BodyPtr) (un en : string) (c : BodyPtr) (cn : string)
    (l : list AccelerationSettings) :
  forall map, stable R (buildAccelerationList platform bodyMap un en c cn l map).
Proof.
  induction l as [|settings rest IH]; intros map; cbn [buildAccelerationList].
  - apply kept_ret.
  - apply kept_bind.
    { unfold bodyAt. destruct (bodyMap !! un); [apply kept_ret|apply kept_throw]. }
    intros u. apply kept_bind.
    { unfold bodyAt. destruct (bodyMap !! en); [apply kept_ret|apply kept_throw]. }
    intros e. apply kept_bind; [apply kept_dispatch|]. intros m. apply IH.
Qed.

Lemma kept_buildAccelerationsForBody (platform : Platform)
    (bodyMap : gmap string BodyPtr) (un : string) (c : BodyPtr) (cn : string)
    (inner : list (string * list AccelerationSettings)) :
  forall map, stable R (buildAccelerationsForBody platform bodyMap un c cn inner map).
Proof.
  induction inner as [|[en l] rest IH]; intros map;
    cbn [buildAccelerationsForBody].
  - apply kept_ret.
  - destruct (bodyMap !! en); [|apply kept_throw].
    apply kept_bind; [apply kept_buildAccelerationList|]. intros map'.
    apply IH.
Qed.

Lemma kept_buildAccelerationModelMap (platform : Platform)
    (bodyMap : gmap string BodyPtr) (centralBodies : gmap string string)
    (sel : list (string * list (string * list AccelerationSettings))) :
  forall map, stable R (buildAccelerationModelMap platform bodyMap centralBodies sel map).
Proof.
  induction sel as [|[un inner] rest IH]; intros map w.
  - apply R_refl.
  - rewrite buildAccelerationModelMap_step.
    destruct (centralBodies !! un) as [cn|]; [|apply R_refl].
    destruct (negb (isFrameInertial cn) && negb (bool_decide (is_Some (bodyMap !! cn))));
      [apply R_refl|].
    destruct (bodyMap !! un); [|apply R_refl].
    pose proof (kept_buildAccelerationsForBody platform bodyMap un
                  (centralBodyPointer bodyMap cn) cn inner ∅ w) as Hs.
    destruct (buildAccelerationsForBody platform bodyMap un
                (centralBodyPointer bodyMap cn) cn inner ∅ w) as [m w'|x w'];
      [|exact Hs].
    eapply R_trans; [exact Hs|apply IH].
Qed.

End StableBuilders.

(** ** The dispatcher and the builders, case by case *)

Lemma untouched_refl (w : World) : untouched w w.
Proof. split; reflexivity. Qed.

Lemma untouched_trans (w1 w2 w3 : World) :
  untouched w1 w2 -> untouched w2 w3 -> untouched w1 w3.
Proof. intros [H1 H2] [H3 H4]. split; congruence. Qed.

Lemma untouched_construct (w : World) : untouched w (recordConstruction w).
Proof. split; reflexivity. Qed.

(** X7: only an aerodynamic entry makes the dispatcher change a body: for
    every other type, whether the dispatcher returns or throws, the bodies
    are the ones it started with and no flight-conditions object has been
    created. *)
Theorem dispatcher_changes_bodies_only_for_aerodynamic
    (platform : Platform) (w : World) (u e c : BodyPtr)
    (settings : AccelerationSettings) (un en cn : string)
    (Hna : accelerationType_ settings <> aerodynamic) :
  bodies (worldOf (createAccelerationModel platform u e settings un en c cn w))
    = bodies w
  /\ flightConditionsCreated
       (worldOf (createAccelerationModel platform u e settings un en c cn w))
     = flightConditionsCreated w.
Proof.
  exact (kept_dispatch_not_aerodynamic untouched untouched_refl untouched_trans
           untouched_construct platform u e c settings un en cn Hna w).
Qed.

Lemma attached_refl (w : World) : onlyFlightConditionsAttached w w.
Proof.
  split; [lia|]. intros a. destruct (bodies w !! a) as [b|]; [|reflexivity].
  exists b. split; [reflexivity|now left].
Qed.

Lemma attached_trans (w1 w2 w3 : World) :
  onlyFlightConditionsAttached w1 w2 -> onlyFlightConditionsAttached w2 w3 ->
  onlyFlightConditionsAttached w1 w3.
Proof.
  intros [Hc12 H12] [Hc23 H23]. split; [lia|]. intros a.
  specialize (H12 a). specialize (H23 a).
  destruct (bodies w1 !! a) as [b|].
  - destruct H12 as (b' & Hb' & Hcase). rewrite Hb' in H23.
    destruct H23 as (b'' & Hb'' & Hcase'). exists b''. split; [exact Hb''|].
    destruct Hcase as [->|(Hnone & fc & ->)].
    + exact Hcase'.
    + destruct Hcase' as [->|(Hnone' & _)].
      * right. split; [exact Hnone|]. now exists fc.
      * discriminate Hnone'.
  - now rewrite H12 in H23.
Qed.

Lemma attached_construct (w : World) :
  onlyFlightConditionsAttached w (recordConstruction w).
Proof.
  split; [cbn; lia|]. intros a. cbn [recordConstruction bodies].
  destruct (bodies w !! a) as [b|]; [|reflexivity].
  exists b. split; [reflexivity|now left].
Qed.

Lemma attached_attach (w : World) (a : positive) (ub : Body) :
  bodies w !! a = Some ub -> flightConditions ub = None ->
  onlyFlightConditionsAttached w (attachNew w a ub).
Proof.
  intros Hu Hfc. split; [cbn; lia|]. intros a'. cbn [attachNew bodies].
  destruct (decide (a' = a)) as [->|Hne].
  - rewrite Hu, lookup_insert_eq. eexists. split; [reflexivity|].
    right. split; [exact Hfc|]. eexists. reflexivity.
  - rewrite lookup_insert_ne by congruence.
    destruct (bodies w !! a') as [b|]; [|reflexivity].
    exists b. split; [reflexivity|now left].
Qed.

(** X8: whatever a run of [createAccelerationModelsMap] does, and whether
    it returns or throws, it leaves every body at its address, unchanged
    or with flight conditions attached where there were none; it neither
    replaces flight conditions that were attached nor removes a body. *)
Theorem assembly_only_attaches_flight_conditions
    (platform : Platform) (bodyMap : gmap string BodyPtr)
    (centralBodies : gmap string string)
    (sel : list (string * list (string * list AccelerationSettings)))
    (w : World) :
  let w' := worldOf (createAccelerationModelsMap platform bodyMap sel centralBodies w) in
  (forall a b, bodies w !! a = Some b ->
     exists b', bodies w' !! a = Some b'
                /\ (b' = b \/ (flightConditions b = None
                               /\ exists fc, b' = setFlightConditions fc b)))
  /\ (forall a b fc, bodies w !! a = Some b -> flightConditions b = Some fc ->
        bodies w' !! a = Some b)
  /\ (forall a, bodies w !! a = None -> bodies w' !! a = None).
Proof.
  intros w'.
  assert (H : onlyFlightConditionsAttached w w').
  { exact (kept_buildAccelerationModelMap onlyFlightConditionsAttached
             attached_refl attached_trans attached_construct attached_attach
             platform bodyMap centralBodies sel ∅ w). }
  destruct H as [_ H]. split; [|split].
  - intros a b Hb. specialize (H a). now rewrite Hb in H.
  - intros a b fc Hb Hfc. specialize (H a). rewrite Hb in H.
    destruct H as (b' & Hb' & [->|(Hnone & _)]); [exact Hb'|].
    rewrite Hfc in Hnone. discriminate Hnone.
  - intros a Ha. specialize (H a). now rewrite Ha in H.
Qed.

Lemma dispatch_returns_class
    (platform : Platform) (w w' : World) (u e c : BodyPtr)
    (settings : AccelerationSettings) (un en cn : string) (m : AccelerationModel) :
  createAccelerationModel platform u e settings un en c cn w = Returned m w' ->
  modelMatchesType (accelerationType_ settings) m = true
  /\ accelerationType_ settings <> cannon_ball_radiation_pressure
  /\ accelerationType_ settings <> mutual_spherical_harmonic_gravity
  /\ accelerationType_ settings <> thrust_acceleration.
Proof.
  intros Hrun.
  unfold createAccelerationModel, notRecognized, bind, ret, throw in Hrun.
  destruct (accelerationType_ settings).
  - destruct (String.eqb cn en || isFrameInertial cn).
    + destruct (createCentralGravityAcceleratioModel u e un en _ w);
        [|discriminate Hrun].
      injection Hrun as <- _. repeat split; discriminate.
    + destruct (createThirdBodyCentralGravityAccelerationModel platform u e c un en cn w);
        [|discriminate Hrun].
      injection Hrun as <- _. repeat split; discriminate.
  - destruct (createAerodynamicAcceleratioModel platform u e un en w);
      [|discriminate Hrun].
    injection Hrun as <- _. repeat split; discriminate.
  - destruct (createCannonballRadiationPressureAcceleratioModel u e un en w);
      discriminate Hrun.
  - destruct (String.eqb cn en || isFrameInertial cn); [|discriminate Hrun].
    destruct (createSphericalHarmonicsGravityAcceleration u e un en settings _ w);
      [|discriminate Hrun].
    injection Hrun as <- _. repeat split; discriminate.
  - discriminate Hrun.
  - discriminate Hrun.
Qed.

(** X9: a model the dispatcher returns has the class of the entry's type:
    a direct or third-body central gravity model for [central_gravity], a
    spherical-harmonics model for [spherical_harmonic_gravity], an
    aerodynamic model for [aerodynamic]; for the other three types it
    returns nothing. *)
Theorem dispatcher_returns_the_class_of_the_type
    (platform : Platform) (w w' : World) (u e c : BodyPtr)
    (settings : AccelerationSettings) (un en cn : string) (m : AccelerationModel)
    (Hrun : createAccelerationModel platform u e settings un en c cn w
            = Returned m w') :
  modelMatchesType (accelerationType_ settings) m = true
  /\ accelerationType_ settings <> cannon_ball_radiation_pressure
  /\ accelerationType_ settings <> mutual_spherical_harmonic_gravity
  /\ accelerationType_ settings <> thrust_acceleration.
Proof.
  exact (dispatch_returns_class platform w w' u e c settings un en cn m Hrun).
Qed.

Lemma central_outcome (w : World) (u e : BodyPtr) (un en : string) (flag : bool) :
  hasReturned (createCentralGravityAcceleratioModel u e un en flag w) = true
  <-> (exists eb, pointee w e = Some eb /\ is_Some (gravityFieldModel eb))
      /\ (flag = true -> is_Some (pointee w u)).
Proof.
  unfold createCentralGravityAcceleratioModel, bind, deref.
  destruct (pointee w e) as [eb|].
  - destruct (gravityFieldModel eb) as [g|] eqn:Hg.
    + destruct flag.
      * unfold selectGravitationalParameterFunction, bind, deref. cbn [negb].
        destruct (pointee w u) as [ub|].
        -- destruct (gravityFieldModel ub); cbn; split; try reflexivity;
             intros _; (split; [exists eb; split; [reflexivity|now rewrite Hg]|]);
             intros _; eexists; reflexivity.
        -- cbn. split; [discriminate|]. intros [_ H].
           destruct (H eq_refl) as [x Hx]. discriminate Hx.
      * rewrite select_flag_off. cbn. split; [|reflexivity]. intros _.
        split; [exists eb; split; [reflexivity|now rewrite Hg]|discriminate].
    + cbn. split; [discriminate|]. intros [(eb' & Heb & [g Hg']) _].
      injection Heb as <-. rewrite Hg in Hg'. discriminate Hg'.
  - cbn. split; [discriminate|]. intros [(eb & Heb & _) _]. discriminate Heb.
Qed.

(** X10: the third-body builder reads the exerting body only.  It returns
    exactly when the exerting body exists and owns a gravity field,
    whatever the pointers to the undergoing and to the central body are
    (a null central body included), and the composite it returns does not
    depend on the order in which the compiler evaluates the two legs. *)
Theorem third_body_builder_reads_only_the_exerting_body
    (platform : Platform) (w : World) (u e c : BodyPtr) (un en cn : string) :
  (hasReturned
     (createThirdBodyCentralGravityAccelerationModel platform u e c un en cn w) = true
   <-> exists eb, pointee w e = Some eb /\ is_Some (gravityFieldModel eb))
  /\ (forall platform',
        returned (createThirdBodyCentralGravityAccelerationModel
                    platform' u e c un en cn w)
        = returned (createThirdBodyCentralGravityAccelerationModel
                      platform u e c un en cn w)).
Proof.
  destruct (pointee w e) as [eb|] eqn:He.
  - destruct (gravityFieldModel eb) as [g|] eqn:Hg.
    + split.
      * rewrite (third_body_returns platform w u e c un en cn eb g He Hg).
        split; [|reflexivity]. intros _. exists eb. split; [reflexivity|].
        now rewrite Hg.
      * intros platform'.
        now rewrite !(third_body_returns _ w u e c un en cn eb g He Hg).
    + assert (Hthrow : forall p,
                 returned (createThirdBodyCentralGravityAccelerationModel
                             p u e c un en cn w) = None).
      { intros p. unfold createThirdBodyCentralGravityAccelerationModel.
        destruct (argumentOrder p); unfold bind.
        - now rewrite (central_missing_field w u e un en false eb He Hg).
        - now rewrite (central_missing_field w c e cn en false eb He Hg). }
      split.
      * pose proof (Hthrow platform) as H.
        destruct (createThirdBodyCentralGravityAccelerationModel
                    platform u e c un en cn w); [discriminate H|].
        split; [discriminate|]. intros (eb' & Heb & [g Hg']).
        injection Heb as <-. rewrite Hg in Hg'. discriminate Hg'.
      * intros platform'. now rewrite !Hthrow.
  - assert (Hthrow : forall p,
               returned (createThirdBodyCentralGravityAccelerationModel
                           p u e c un en cn w) = None).
    { intros p.
      unfold createThirdBodyCentralGravityAccelerationModel,
        createCentralGravityAcceleratioModel.
      destruct (argumentOrder p); unfold bind, deref; now rewrite He. }
    split.
    + pose proof (Hthrow platform) as H.
      destruct (createThirdBodyCentralGravityAccelerationModel
                  platform u e c un en cn w); [discriminate H|].
      split; [discriminate|]. intros (eb & Heb & _). discriminate Heb.
    + intros platform'. now rewrite !Hthrow.
Qed.

(** X11: the central-gravity builder returns exactly when the exerting
    body exists and owns a gravity field and, with the flag set, the
    undergoing body exists.  The spherical-harmonics builder needs in
    addition settings of the spherical-harmonic class and a field of the
    spherical-harmonics class; it inspects the settings first: with
    settings of the base class it throws the configuration error without
    looking at a body. *)
Theorem gravity_builders_return_exactly_when
    (w : World) (u e : BodyPtr) (un en : string) (flag : bool)
    (settings : AccelerationSettings) :
  (hasReturned (createCentralGravityAcceleratioModel u e un en flag w) = true
   <-> (exists eb, pointee w e = Some eb /\ is_Some (gravityFieldModel eb))
       /\ (flag = true -> is_Some (pointee w u)))
  /\ (hasReturned
        (createSphericalHarmonicsGravityAcceleration u e un en settings flag w) = true
      <-> is_Some (asSphericalHarmonicAccelerationSettings settings)
          /\ (exists eb, pointee w e = Some eb
                         /\ is_Some (asSphericalHarmonicsGravityField
                                       (gravityFieldModel eb)))
          /\ (flag = true -> is_Some (pointee w u)))
  /\ (asSphericalHarmonicAccelerationSettings settings = None ->
      exists msg,
        createSphericalHarmonicsGravityAcceleration u e un en settings flag w
        = Thrown (runtime_error ConfigurationError msg) w).
Proof.
  split; [apply central_outcome|]. split.
  - unfold createSphericalHarmonicsGravityAcceleration, bind, deref.
    destruct (asSphericalHarmonicAccelerationSettings settings) as [[d o]|].
    + destruct (pointee w e) as [eb|].
      * destruct (asSphericalHarmonicsGravityField (gravityFieldModel eb))
          as [f|] eqn:Hf.
        -- destruct flag.
           ++ unfold selectGravitationalParameterFunction, bind, deref. cbn [negb].
              destruct (pointee w u) as [ub|].
              ** destruct (gravityFieldModel ub); cbn; split; try reflexivity;
                   intros _; (split; [eexists; reflexivity|]);
                   (split; [exists eb; split; [reflexivity|now rewrite Hf]|]);
                   intros _; eexists; reflexivity.
              ** cbn. split; [discriminate|]. intros (_ & _ & H).
                 destruct (H eq_refl) as [x Hx]. discriminate Hx.
           ++ rewrite select_flag_off. cbn. split; [|reflexivity]. intros _.
              split; [eexists; reflexivity|].
              split; [exists eb; split; [reflexivity|now rewrite Hf]|discriminate].
        -- cbn. split; [discriminate|]. intros (_ & (eb' & Heb & [f Hf']) & _).
           injection Heb as <-. rewrite Hf in Hf'. discriminate Hf'.
      * cbn. split; [discriminate|]. intros (_ & (eb & Heb & _) & _).
        discriminate Heb.
    + cbn. split; [discriminate|]. intros ([x Hx] & _). discriminate Hx.
  - intros Hnone. unfold createSphericalHarmonicsGravityAcceleration.
    rewrite Hnone. eexists. reflexivity.
Qed.

(** X12: the aerodynamic builder returns exactly when the undergoing body
    exists and owns aerodynamic coefficients, the exerting body exists and
    owns an atmosphere and a shape model, and the undergoing body has
    flight conditions or the flight-conditions factory does not throw.
    When it throws, nothing has been constructed or attached: the world
    is the one it started in. *)
Theorem aerodynamic_builder_returns_exactly_when
    (platform : Platform) (w : World) (u e : BodyPtr) (un en : string) :
  (hasReturned (createAerodynamicAcceleratioModel platform u e un en w) = true
   <-> exists ub eb,
         pointee w u = Some ub /\ pointee w e = Some eb
         /\ is_Some (aerodynamicCoefficientInterface ub)
         /\ is_Some (atmosphereModel eb) /\ is_Some (shapeModel eb)
         /\ (is_Some (flightConditions ub)
             \/ flightConditionsFactoryCheck platform w u e un en = None))
  /\ (hasReturned (createAerodynamicAcceleratioModel platform u e un en w) = false ->
      worldOf (createAerodynamicAcceleratioModel platform u e un en w) = w).
Proof.
  destruct u as [a|].
  - destruct (bodies w !! a) as [ub|] eqn:Hu.
    + rewrite (aerodynamic_builder_outcome platform w a e un en ub Hu).
      cbn [pointee]. rewrite Hu.
      destruct (aerodynamicCoefficientInterface ub) as [coefficients|] eqn:Hc.
      2:{ split; [|reflexivity]. split; [discriminate|].
          intros (ub' & eb & Hub & _ & [x Hx] & _). injection Hub as <-.
          rewrite Hc in Hx. discriminate Hx. }
      destruct (pointee w e) as [eb|] eqn:He.
      2:{ split; [|reflexivity]. split; [discriminate|].
          intros (ub' & eb & _ & Heb & _). discriminate Heb. }
      destruct (atmosphereModel eb) as [atm|] eqn:Ha.
      2:{ split; [|reflexivity]. split; [discriminate|].
          intros (ub' & eb' & _ & Heb & _ & [x Hx] & _). injection Heb as <-.
          rewrite Ha in Hx. discriminate Hx. }
      destruct (shapeModel eb) as [shape|] eqn:Hs.
      2:{ split; [|reflexivity]. split; [discriminate|].
          intros (ub' & eb' & _ & Heb & _ & _ & [x Hx] & _). injection Heb as <-.
          rewrite Hs in Hx. discriminate Hx. }
      destruct (flightConditions ub) as [fc|] eqn:Hfc.
      { split; [|discriminate]. split; [|reflexivity]. intros _.
        exists ub, eb. rewrite Hc, Ha, Hs, Hfc. repeat split; eauto. }
      destruct (flightConditionsFactoryCheck platform w (Some a) e un en) as [x|] eqn:Hf.
      * split; [|reflexivity]. split; [discriminate|].
        intros (ub' & eb' & Hub & _ & _ & _ & _ & [[y Hy]|Hy]).
        -- injection Hub as <-. rewrite Hfc in Hy. discriminate Hy.
        -- discriminate Hy.
      * split; [|discriminate]. split; [|reflexivity]. intros _.
        exists ub, eb. rewrite Hc, Ha, Hs. repeat split; eauto.
    + unfold createAerodynamicAcceleratioModel, bind, deref. cbn [pointee].
      rewrite Hu. split; [|reflexivity]. split; [discriminate|].
      intros (ub & eb & Hub & _). discriminate Hub.
  - split; [|reflexivity]. split; [discriminate|].
    intros (ub & eb & Hub & _). discriminate Hub.
Qed.

(** X13: a body undergoing acceleration whose central body is not
    declared makes the run throw [std::out_of_range] (from
    [centralBodies.at]) when the iteration reaches it: a run that starts
    with such a body throws it with nothing built, and a run that contains
    one returns no map. *)
Theorem undeclared_central_body_aborts_assembly
    (platform : Platform) (bodyMap : gmap string BodyPtr)
    (centralBodies : gmap string string)
    (sel : list (string * list (string * list AccelerationSettings)))
    (w : World) (un : string)
    (Hun : hasKey un sel)
    (Hcb : centralBodies !! un = None) :
  returned (createAccelerationModelsMap platform bodyMap sel centralBodies w) = None
  /\ (forall inner rest,
        createAccelerationModelsMap platform bodyMap ((un, inner) :: rest)
          centralBodies w
        = Thrown out_of_range w).
Proof.
  split.
  - unfold createAccelerationModelsMap. generalize (∅ : gmap string (gmap string (list AccelerationModel))).
    revert w. unfold hasKey in Hun.
    induction sel as [|[un' inner] rest IH]; intros w map; [destruct Hun|].
    rewrite buildAccelerationModelMap_step.
    destruct Hun as [Heq|Hin].
    + cbn in Heq. subst un'. now rewrite Hcb.
    + destruct (centralBodies !! un') as [cn|]; [|reflexivity].
      destruct (negb (isFrameInertial cn) && negb (bool_decide (is_Some (bodyMap !! cn))));
        [reflexivity|].
      destruct (bodyMap !! un'); [|reflexivity].
      destruct (buildAccelerationsForBody platform bodyMap un'
                  (centralBodyPointer bodyMap cn) cn inner ∅ w); [|reflexivity].
      now apply IH.
  - intros inner rest. unfold createAccelerationModelsMap.
    now rewrite buildAccelerationModelMap_step, Hcb.
Qed.

(** The Moon's central gravity on the Satellite (a third-body model
    about the Earth): three models are constructed, no body changes. *)
Lemma dispatcher_changes_bodies_only_for_aerodynamic_witness :
  bodies (worldOf (createAccelerationModel (Scenario.platform LeftToRight)
                     Scenario.pSatellite Scenario.pMoon
                     (BaseAccelerationSettings central_gravity)
                     "Satellite" "Moon" Scenario.pEarth "Earth" Scenario.world))
    = bodies Scenario.world
  /\ flightConditionsCreated
       (worldOf (createAccelerationModel (Scenario.platform LeftToRight)
                   Scenario.pSatellite Scenario.pMoon
                   (BaseAccelerationSettings central_gravity)
                   "Satellite" "Moon" Scenario.pEarth "Earth" Scenario.world))
     = flightConditionsCreated Scenario.world.
Proof.
  apply (dispatcher_changes_bodies_only_for_aerodynamic
           (Scenario.platform LeftToRight) Scenario.world
           Scenario.pSatellite Scenario.pMoon Scenario.pEarth
           (BaseAccelerationSettings central_gravity) "Satellite" "Moon" "Earth").
  discriminate.
Defined.

(** The aerodynamic entry of the Earth on the Satellite returns an
    aerodynamic model. *)
Lemma dispatcher_returns_the_class_of_the_type_witness :
  exists m w',
    createAccelerationModel (Scenario.platform LeftToRight)
      Scenario.pSatellite Scenario.pEarth (BaseAccelerationSettings aerodynamic)
      "Satellite" "Earth" Scenario.pEarth "Earth" Scenario.world
    = Returned m w'
    /\ modelMatchesType aerodynamic m = true.
Proof.
  destruct (createAccelerationModel (Scenario.platform LeftToRight)
              Scenario.pSatellite Scenario.pEarth (BaseAccelerationSettings aerodynamic)
              "Satellite" "Earth" Scenario.pEarth "Earth" Scenario.world)
    as [m w'|x w'] eqn:E.
  - exists m, w'. split; [reflexivity|].
    exact (proj1 (dispatcher_returns_the_class_of_the_type
                    (Scenario.platform LeftToRight) Scenario.world w'
                    Scenario.pSatellite Scenario.pEarth Scenario.pEarth
                    (BaseAccelerationSettings aerodynamic)
                    "Satellite" "Earth" "Earth" m E)).
  - vm_compute in E. discriminate E.
Defined.

(** Mars undergoes an acceleration, but no central body is declared for
    it. *)
Lemma undeclared_central_body_witness :
  returned (createAccelerationModelsMap (Scenario.platform LeftToRight)
              Scenario.bodyMap
              [("Mars", [("Sun", [BaseAccelerationSettings central_gravity])])]
              Scenario.centralBodies Scenario.world) = None.
Proof.
  apply (undeclared_central_body_aborts_assembly (Scenario.platform LeftToRight)
           Scenario.bodyMap Scenario.centralBodies
           [("Mars", [("Sun", [BaseAccelerationSettings central_gravity])])]
           Scenario.world "Mars").
  - left. reflexivity.
  - vm_compute. reflexivity.
Defined.

(** ** The ordering function of the later revision *)

Lemma iter_swap_lookup {A} (l : list A) (i j k : nat) :
  i < length l -> j < length l ->
  Revised.iter_swap l i j !! k = l !! swapIndex i j k.
Proof.
  intros Hi Hj. unfold Revised.iter_swap, swapIndex.
  destruct (lookup_lt_is_Some_2 l i Hi) as [x Hx].
  destruct (lookup_lt_is_Some_2 l j Hj) as [y Hy].
  rewrite Hx, Hy.
  destruct (decide (k = j)) as [->|Hkj].
  - rewrite list_lookup_insert_eq by (rewrite length_insert; exact Hj).
    now rewrite Hx.
  - rewrite list_lookup_insert_ne by congruence.
    destruct (decide (k = i)) as [->|Hki].
    + rewrite list_lookup_insert_eq by exact Hi. now rewrite Hy.
    + now rewrite list_lookup_insert_ne by congruence.
Qed.

Lemma iter_swap_length {A} (l : list A) (i j : nat) :
  length (Revised.iter_swap l i j) = length l.
Proof.
  unfold Revised.iter_swap. destruct (l !! i); [|reflexivity].
  destruct (l !! j); [|reflexivity]. now rewrite !length_insert.
Qed.

Lemma swapIndex_inj (i j : nat) : Inj eq eq (swapIndex i j).
Proof.
  intros a b. unfold swapIndex.
  repeat (destruct (decide _)); congruence.
Qed.

Lemma iter_swap_Permutation {A} (l : list A) (i j : nat) :
  Revised.iter_swap l i j ≡ₚ l.
Proof.
  destruct (decide (i < length l)) as [Hi|Hi].
  - destruct (decide (j < length l)) as [Hj|Hj].
    + apply Permutation_inj. split; [apply iter_swap_length|].
      exists (swapIndex i j). split; [apply swapIndex_inj|].
      intros k. now apply iter_swap_lookup.
    + unfold Revised.iter_swap. destruct (l !! i); [|reflexivity].
      rewrite (lookup_ge_None_2 l j) by lia. reflexivity.
  - unfold Revised.iter_swap. rewrite (lookup_ge_None_2 l i) by lia. reflexivity.
Qed.

(** What [orderAccelerationList] does, by the positions of the aerodynamic
    and of the thrust entries. *)
Lemma order_cases (l : list AccelerationSettings) :
  Revised.orderAccelerationList l =
    match last (indicesOfType aerodynamic 0 l),
          head (indicesOfType thrust_acceleration 0 l) with
    | Some lastAerodynamic, Some firstThrust =>
        if (firstThrust <? lastAerodynamic)%nat then
          match indicesOfType aerodynamic 0 l,
                last (indicesOfType thrust_acceleration 0 l) with
          | [a], Some lastThrust => inr (Revised.iter_swap l a lastThrust)
          | _, _ => inl (runtime_error ConfigurationError
       "Error when ordering accelerations, cannot yet handle multple aerodynamic and thrust accelerations")
          end
        else inr l
    | _, _ => inr l
    end.
Proof.
  unfold Revised.orderAccelerationList. rewrite collectIndices_spec. cbn [app].
  destruct (indicesOfType thrust_acceleration 0 l) as [|t0 T] eqn:ET.
  { cbn. now destruct (last (indicesOfType aerodynamic 0 l)). }
  destruct (indicesOfType aerodynamic 0 l) as [|a0 A] eqn:EA.
  { reflexivity. }
  destruct (last (a0 :: A)) as [z|] eqn:Hz;
    [|apply last_None in Hz; discriminate Hz].
  rewrite (at_last _ _ Hz).
  destruct (last (t0 :: T)) as [zt|] eqn:Hzt;
    [|apply last_None in Hzt; discriminate Hzt].
  rewrite (at_last _ _ Hzt).
  change (head (t0 :: T)) with (Some t0).
  change (Revised.at_ (t0 :: T) 0) with (@inr Exception nat t0).
  change (Revised.at_ (a0 :: A) 0) with (@inr Exception nat a0).
  change ((0 <? length (t0 :: T))%nat && (0 <? length (a0 :: A))%nat) with true.
  cbv beta iota.
  destruct (t0 <? z)%nat; [|reflexivity].
  destruct A as [|a1 A']; [reflexivity|]. reflexivity.
Qed.

Lemma order_returns_permutation (l l' : list AccelerationSettings) :
  Revised.orderAccelerationList l = inr l' -> l' ≡ₚ l.
Proof.
  rewrite order_cases.
  destruct (last (indicesOfType aerodynamic 0 l)) as [z|];
    [|intros H; injection H as <-; reflexivity].
  destruct (head (indicesOfType thrust_acceleration 0 l)) as [t0|];
    [|intros H; injection H as <-; reflexivity].
  destruct (t0 <? z)%nat; [|intros H; injection H as <-; reflexivity].
  destruct (indicesOfType aerodynamic 0 l) as [|a [|a' A]]; try discriminate.
  destruct (last (indicesOfType thrust_acceleration 0 l)) as [zt|]; [|discriminate].
  intros H; injection H as <-. apply iter_swap_Permutation.
Qed.

Lemma order_throws_only_multiple (l : list AccelerationSettings) (e : Exception) :
  Revised.orderAccelerationList l = inl e -> e = runtime_error ConfigurationError
       "Error when ordering accelerations, cannot yet handle multple aerodynamic and thrust accelerations".
Proof.
  rewrite order_cases.
  destruct (last (indicesOfType aerodynamic 0 l)) as [z|]; [|discriminate].
  destruct (head (indicesOfType thrust_acceleration 0 l)) as [t0|] eqn:Hh;
    [|discriminate].
  destruct (t0 <? z)%nat; [|discriminate].
  destruct (indicesOfType aerodynamic 0 l) as [|a [|a' A]];
    try (intros H; injection H as <-; reflexivity).
  destruct (last (indicesOfType thrust_acceleration 0 l)) as [zt|] eqn:Hl;
    [discriminate|].
  apply last_None in Hl. rewrite Hl in Hh. discriminate Hh.
Qed.

Lemma order_already_ordered (l : list AccelerationSettings) :
  (forall a t, hasTypeAt aerodynamic l a -> hasTypeAt thrust_acceleration l t ->
               a < t) ->
  Revised.orderAccelerationList l = inr l.
Proof.
  intros Hord. rewrite order_cases.
  destruct (last (indicesOfType aerodynamic 0 l)) as [z|] eqn:Hz; [|reflexivity].
  destruct (head (indicesOfType thrust_acceleration 0 l)) as [t0|] eqn:Ht0;
    [|reflexivity].
  assert (Ha : hasTypeAt aerodynamic l z).
  { apply indicesOfType_In0, list_elem_of_In. now apply last_Some_elem_of. }
  assert (Ht : hasTypeAt thrust_acceleration l t0).
  { apply indicesOfType_In0, list_elem_of_In.
    destruct (indicesOfType thrust_acceleration 0 l); [discriminate Ht0|].
    injection Ht0 as ->. now left. }
  pose proof (Hord z t0 Ha Ht) as Hlt.
  destruct (Nat.ltb_spec t0 z); [lia|reflexivity].
Qed.

(** X14: the ordering of one list loses and adds no entry: a list it
    returns is a permutation of the list given.  The only exception it
    throws is the configuration error about several aerodynamic entries
    (never [std::out_of_range] from one of its [at] calls), and a list in
    which every aerodynamic entry precedes every thrust entry (so also a
    list without thrust or without aerodynamic entries) is returned as it
    is. *)
Theorem ordering_keeps_every_entry (l : list AccelerationSettings) :
  (forall l', Revised.orderAccelerationList l = inr l' ->
              l' ≡ₚ l /\ length l' = length l)
  /\ (forall e, Revised.orderAccelerationList l = inl e ->
                e = runtime_error ConfigurationError
                      "Error when ordering accelerations, cannot yet handle multple aerodynamic and thrust accelerations")
  /\ ((forall a t, hasTypeAt aerodynamic l a -> hasTypeAt thrust_acceleration l t ->
                   a < t) ->
      Revised.orderAccelerationList l = inr l).
Proof.
  split; [|split].
  - intros l' H. pose proof (order_returns_permutation l l' H) as Hp.
    split; [exact Hp|now rewrite Hp].
  - intros e H. exact (order_throws_only_multiple l e H).
  - apply order_already_ordered.
Qed.

Lemma hasTypeAt_lt (t : AvailableAcceleration) (l : list AccelerationSettings) (i : nat) :
  hasTypeAt t l i -> i < length l.
Proof. intros (s & Hs & _). now apply lookup_lt_Some in Hs. Qed.

Lemma hasTypeAt_iter_swap (t : AvailableAcceleration) (l : list AccelerationSettings)
    (i j k : nat) :
  i < length l -> j < length l ->
  hasTypeAt t (Revised.iter_swap l i j) k <-> hasTypeAt t l (swapIndex i j k).
Proof.
  intros Hi Hj. unfold hasTypeAt. now rewrite iter_swap_lookup.
Qed.

(** X15: when the single aerodynamic entry lies behind the first thrust
    entry, the ordered list has the aerodynamic entry where the last
    thrust entry was.  With one thrust entry the aerodynamic entry then
    precedes every thrust entry; with several thrust entries the first
    thrust entry stays where it was and still precedes the aerodynamic
    entry. *)
Theorem ordering_puts_aerodynamic_first_for_one_thrust_only
    (l : list AccelerationSettings) (a tFirst tLast : nat)
    (Ha : hasTypeAt aerodynamic l a)
    (Huniq : forall i, hasTypeAt aerodynamic l i -> i = a)
    (Hf : hasTypeAt thrust_acceleration l tFirst)
    (Hmin : forall i, hasTypeAt thrust_acceleration l i -> tFirst <= i)
    (Hl : hasTypeAt thrust_acceleration l tLast)
    (Hmax : forall i, hasTypeAt thrust_acceleration l i -> i <= tLast)
    (Hlt : tFirst < a) :
  exists l',
    Revised.orderAccelerationList l = inr l'
    /\ hasTypeAt aerodynamic l' tLast
    /\ (forall i, hasTypeAt aerodynamic l' i -> i = tLast)
    /\ (tFirst = tLast ->
        forall i, hasTypeAt thrust_acceleration l' i -> tLast < i)
    /\ (tFirst <> tLast ->
        hasTypeAt thrust_acceleration l' tFirst /\ tFirst < tLast).
Proof.
  exists (Revised.iter_swap l a tLast).
  split; [exact (order_single_aerodynamic l a tFirst tLast Ha Huniq Hf Hmin Hl Hmax Hlt)|].
  pose proof (hasTypeAt_lt _ _ _ Ha) as Hal.
  pose proof (hasTypeAt_lt _ _ _ Hl) as Hll.
  assert (Hne : a <> tLast).
  { intros ->. destruct Ha as (s & Hs & Hts). destruct Hl as (s' & Hs' & Hts').
    rewrite Hs in Hs'. injection Hs' as <-. rewrite Hts in Hts'. discriminate Hts'. }
  split; [|split; [|split]].
  - apply hasTypeAt_iter_swap; [assumption..|]. unfold swapIndex.
    destruct (decide (tLast = tLast)); [exact Ha|contradiction].
  - intros i Hi. apply hasTypeAt_iter_swap in Hi; [|assumption..].
    apply Huniq in Hi. unfold swapIndex in Hi.
    destruct (decide (i = tLast)); [assumption|].
    destruct (decide (i = a)); [congruence|contradiction].
  - intros <- i Hi. apply hasTypeAt_iter_swap in Hi; [|assumption..].
    unfold swapIndex in Hi.
    destruct (decide (i = tFirst)) as [->|Hn].
    + destruct Ha as (s & Hs & Hts). destruct Hi as (s' & Hs' & Hts').
      rewrite Hs in Hs'. injection Hs' as <-. rewrite Hts in Hts'. discriminate Hts'.
    + destruct (decide (i = a)) as [->|Hn']; [lia|].
      pose proof (Hmin i Hi). lia.
  - intros Hd. pose proof (Hmax tFirst Hf). split; [|lia].
    apply hasTypeAt_iter_swap; [assumption..|]. unfold swapIndex.
    destruct (decide (tFirst = tLast)); [contradiction|].
    destruct (decide (tFirst = a)); [lia|exact Hf].
Qed.


(** [thrust, aerodynamic, thrust] becomes [thrust, thrust, aerodynamic]. *)
Lemma ordering_two_thrust_witness :
  exists l',
    Revised.orderAccelerationList
      [BaseAccelerationSettings thrust_acceleration;
       BaseAccelerationSettings aerodynamic;
       BaseAccelerationSettings thrust_acceleration] = inr l'
    /\ hasTypeAt thrust_acceleration l' 0
    /\ hasTypeAt aerodynamic l' 2.
Proof.
  destruct (ordering_puts_aerodynamic_first_for_one_thrust_only
              [BaseAccelerationSettings thrust_acceleration;
               BaseAccelerationSettings aerodynamic;
               BaseAccelerationSettings thrust_acceleration] 1 0 2)
    as (l' & Hrun & Haero & _ & _ & Hthrust).
  - eexists. split; reflexivity.
  - intros i Hi. at_position Hi; reflexivity.
  - eexists. split; reflexivity.
  - intros i Hi. lia.
  - eexists. split; reflexivity.
  - intros i Hi. at_position Hi; lia.
  - lia.
  - exists l'. split; [exact Hrun|]. split; [|exact Haero].
    apply Hthrust. discriminate.
Defined.

Lemma orderAccelerationsForBody_spec (un : string)
    (inner : list (string * list AccelerationSettings)) :
  forall acc ordered,
    Revised.orderAccelerationsForBody un inner acc = inr ordered ->
    NoDup (map fst inner) ->
    (forall k, k <> un -> ordered !! k = acc !! k)
    /\ (inner = [] -> ordered = acc)
    /\ (inner <> [] ->
        exists m, ordered !! un = Some m
                  /\ (forall en, ~ In en (map fst inner) ->
                                 m !! en = default ∅ (acc !! un) !! en)
                  /\ (forall en l, In (en, l) inner ->
                        exists l', Revised.orderAccelerationList l = inr l'
                                   /\ m !! en = Some l')).
Proof.
  induction inner as [|[en l] rest IH]; intros acc ordered Hrun Hnd.
  - cbn in Hrun. injection Hrun as <-. split; [reflexivity|].
    split; [reflexivity|]. intros H. now contradiction H.
  - cbn [Revised.orderAccelerationsForBody] in Hrun.
    destruct (Revised.orderAccelerationList l) as [e|l'] eqn:Hl; [discriminate Hrun|].
    cbn [map fst] in Hnd. apply NoDup_cons in Hnd. destruct Hnd as [Hnot Hnd].
    rewrite list_elem_of_In in Hnot.
    destruct (IH _ _ Hrun Hnd) as (Hother & Hempty & Hfull).
    split; [|split; [discriminate|]].
    + intros k Hk. rewrite (Hother k Hk). now rewrite lookup_insert_ne.
    + intros _. destruct rest as [|p rest'].
      * rewrite (Hempty eq_refl). rewrite lookup_insert_eq.
        eexists. split; [reflexivity|]. split.
        -- intros en' Hen'. rewrite lookup_insert_ne; [reflexivity|].
           intros ->. apply Hen'. now left.
        -- intros en' l0 [Heq|[]]. injection Heq as <- <-.
           exists l'. split; [exact Hl|]. now rewrite lookup_insert_eq.
      * destruct Hfull as (m & Hm & Hout & Hin); [discriminate|].
        rewrite lookup_insert_eq in Hout. cbn [default] in Hout. unfold id in Hout.
        exists m. split; [exact Hm|]. split.
        -- intros en' Hen'. rewrite Hout.
           ++ rewrite lookup_insert_ne; [reflexivity|].
              intros ->. apply Hen'. now left.
           ++ intros H. apply Hen'. now right.
        -- intros en' l0 [Heq|Hin'].
           ++ injection Heq as <- <-. exists l'. split; [exact Hl|].
              rewrite (Hout en Hnot). now rewrite lookup_insert_eq.
           ++ exact (Hin en' l0 Hin').
Qed.

Lemma orderSelectedAccelerationMap_from_spec
    (sel : list (string * list (string * list AccelerationSettings))) :
  forall acc ordered,
    Revised.orderSelectedAccelerationMap_from sel acc = inr ordered ->
    NoDup (map fst sel) ->
    (forall un inner, In (un, inner) sel -> NoDup (map fst inner)) ->
    (forall un, ~ In un (map fst sel) -> ordered !! un = acc !! un)
    /\ (forall un inner, In (un, inner) sel ->
          (inner = [] -> ordered !! un = acc !! un)
          /\ (inner <> [] ->
              exists m, ordered !! un = Some m
                        /\ (forall en, ~ In en (map fst inner) ->
                                       m !! en = default ∅ (acc !! un) !! en)
                        /\ (forall en l, In (en, l) inner ->
                              exists l', Revised.orderAccelerationList l = inr l'
                                         /\ m !! en = Some l'))).
Proof.
  induction sel as [|[un0 inner0] rest IH]; intros acc ordered Hrun Hnd Hinner.
  - cbn in Hrun. injection Hrun as <-. split; [reflexivity|]. intros ? ? [].
  - cbn [Revised.orderSelectedAccelerationMap_from] in Hrun.
    destruct (Revised.orderAccelerationsForBody un0 inner0 acc) as [e|acc'] eqn:Hb;
      [discriminate Hrun|].
    cbn [map fst] in Hnd. apply NoDup_cons in Hnd. destruct Hnd as [Hnot Hnd].
    rewrite list_elem_of_In in Hnot.
    destruct (orderAccelerationsForBody_spec un0 inner0 acc acc' Hb
                (Hinner un0 inner0 (or_introl eq_refl)))
      as (Hother & Hempty & Hfull).
    destruct (IH acc' ordered Hrun Hnd
                (fun un inner H => Hinner un inner (or_intror H)))
      as (Hout & Hin).
    split.
    + intros un Hun. rewrite Hout by (intros H; apply Hun; now right).
      apply Hother. intros ->. apply Hun. now left.
    + intros un inner [Heq|Hin'].
      * injection Heq as <- <-. rewrite (Hout un0 Hnot). split.
        -- intros H. now rewrite (Hempty H).
        -- exact Hfull.
      * assert (Hne : un <> un0).
        { intros ->. apply Hnot. now apply (in_map fst _ (un0, inner)). }
        destruct (Hin un inner Hin') as (H1 & H2). rewrite (Hother un Hne) in H1, H2.
        split; [exact H1|exact H2].
Qed.

Lemma orderSelectedAccelerationMap_from_throws
    (sel : list (string * list (string * list AccelerationSettings))) :
  forall acc e,
    Revised.orderSelectedAccelerationMap_from sel acc = inl e ->
    exists un inner en l,
      In (un, inner) sel /\ In (en, l) inner
      /\ Revised.orderAccelerationList l = inl e.
Proof.
  assert (Hbody : forall un inner acc e,
             Revised.orderAccelerationsForBody un inner acc = inl e ->
             exists en l, In (en, l) inner /\ Revised.orderAccelerationList l = inl e).
  { intros un inner. induction inner as [|[en l] rest IH]; intros acc e Hrun;
      [discriminate Hrun|].
    cbn [Revised.orderAccelerationsForBody] in Hrun.
    destruct (Revised.orderAccelerationList l) as [e'|l'] eqn:Hl.
    - injection Hrun as ->. exists en, l. split; [now left|exact Hl].
    - destruct (IH _ _ Hrun) as (en' & l0 & Hin & H0).
      exists en', l0. split; [now right|exact H0]. }
  induction sel as [|[un0 inner0] rest IH]; intros acc e Hrun; [discriminate Hrun|].
  cbn [Revised.orderSelectedAccelerationMap_from] in Hrun.
  destruct (Revised.orderAccelerationsForBody un0 inner0 acc) as [e'|acc'] eqn:Hb.
  - injection Hrun as ->. destruct (Hbody _ _ _ _ Hb) as (en & l & Hin & Hl).
    exists un0, inner0, en, l. split; [now left|]. split; assumption.
  - destruct (IH _ _ Hrun) as (un & inner & en & l & H1 & H2 & H3).
    exists un, inner, en, l. split; [now right|]. split; assumption.
Qed.

(** X16: the map returned by [orderSelectedAccelerationMap] (for a
    selection with unique keys, as a [std::map] has them) holds, for every
    body undergoing acceleration with a non-empty inner map, exactly the
    exerting bodies of the selection, each with the ordered version of its
    list; a body undergoing acceleration whose inner map is empty has no
    entry in the map returned. *)
Theorem ordered_map_mirrors_the_selection
    (sel : list (string * list (string * list AccelerationSettings)))
    (ordered : gmap string (gmap string (list AccelerationSettings)))
    (Hrun : Revised.orderSelectedAccelerationMap sel = inr ordered)
    (Hkeys : NoDup (map fst sel))
    (Hinner : forall un inner, In (un, inner) sel -> NoDup (map fst inner)) :
  (forall un, ~ hasKey un sel -> ordered !! un = None)
  /\ (forall un, In (un, []) sel -> ordered !! un = None)
  /\ (forall un inner, In (un, inner) sel -> inner <> [] ->
        exists m, ordered !! un = Some m
                  /\ (forall en, ~ hasKey en inner -> m !! en = None)
                  /\ (forall en l, In (en, l) inner ->
                        exists l', Revised.orderAccelerationList l = inr l'
                                   /\ m !! en = Some l')).
Proof.
  destruct (orderSelectedAccelerationMap_from_spec sel ∅ ordered Hrun Hkeys Hinner)
    as (Hout & Hin).
  split; [|split].
  - intros un Hun. now rewrite (Hout un Hun).
  - intros un Hun. destruct (Hin un [] Hun) as (H & _). now rewrite (H eq_refl).
  - intros un inner Hun Hne. destruct (Hin un inner Hun) as (_ & H).
    destruct (H Hne) as (m & Hm & Hmout & Hmin).
    exists m. split; [exact Hm|]. split; [|exact Hmin].
    intros en Hen. now rewrite (Hmout en Hen).
Qed.

(** X17: [orderSelectedAccelerationMap] throws only what the ordering of
    one of the lists of the selection throws, which is the configuration
    error about several aerodynamic entries; when every list of the
    selection can be ordered it returns a map. *)
Theorem ordering_of_the_map_throws_only_for_a_list
    (sel : list (string * list (string * list AccelerationSettings))) :
  (forall e,
      Revised.orderSelectedAccelerationMap sel = inl e ->
      e = runtime_error ConfigurationError
            "Error when ordering accelerations, cannot yet handle multple aerodynamic and thrust accelerations"
      /\ exists un inner en l,
           In (un, inner) sel /\ In (en, l) inner
           /\ Revised.orderAccelerationList l = inl e)
  /\ ((forall un inner en l,
         In (un, inner) sel -> In (en, l) inner ->
         exists l', Revised.orderAccelerationList l = inr l') ->
      exists ordered, Revised.orderSelectedAccelerationMap sel = inr ordered).
Proof.
  split.
  - intros e Hrun.
    destruct (orderSelectedAccelerationMap_from_throws sel _ e Hrun)
      as (un & inner & en & l & H1 & H2 & H3).
    split; [exact (order_throws_only_multiple l e H3)|].
    exists un, inner, en, l. repeat split; assumption.
  - intros Hall.
    destruct (Revised.orderSelectedAccelerationMap sel) as [e|ordered] eqn:Hrun;
      [|now exists ordered].
    destruct (orderSelectedAccelerationMap_from_throws sel _ e Hrun)
      as (un & inner & en & l & H1 & H2 & H3).
    destruct (Hall un inner en l H1 H2) as [l' Hl']. rewrite H3 in Hl'.
    discriminate Hl'.
Qed.

(** ** The shape of the assembled map *)

Section AssemblyShape.

Variable platform : Platform.
Variable bodyMap : gmap string BodyPtr.

Lemma buildAccelerationList_shape (un en : string) (c : BodyPtr) (cn : string)
    (l : list AccelerationSettings) :
  forall map w map' w',
    buildAccelerationList platform bodyMap un en c cn l map w = Returned map' w' ->
    exists models,
      Forall2 (fun s m => modelMatchesType (accelerationType_ s) m = true) l models
      /\ (forall k, k <> en -> map' !! k = map !! k)
      /\ (l = [] -> map' = map)
      /\ (l <> [] -> map' !! en = Some (default [] (map !! en) ++ models)%list).
Proof.
  induction l as [|s rest IH]; intros map w map' w' Hrun.
  - cbn in Hrun. injection Hrun as <- _. exists []. split; [constructor|].
    split; [reflexivity|]. split; [reflexivity|]. intros H. now contradiction H.
  - cbn [buildAccelerationList] in Hrun. unfold bodyAt, bind in Hrun.
    destruct (bodyMap !! un) as [u|]; [|discriminate Hrun].
    cbn [ret] in Hrun.
    destruct (bodyMap !! en) as [e|]; [|discriminate Hrun].
    cbn [ret] in Hrun.
    destruct (createAccelerationModel platform u e s un en c cn w)
      as [model w1|x w1] eqn:Hm; [|discriminate Hrun].
    destruct (dispatch_returns_class platform w w1 u e c s un en cn model Hm)
      as [Hclass _].
    destruct (IH _ _ _ _ Hrun) as (models & Hall & Hother & Hempty & Hfull).
    exists (model :: models). split; [now constructor|].
    split; [|split; [discriminate|]].
    + intros k Hk. rewrite (Hother k Hk). unfold push_back.
      now rewrite lookup_insert_ne.
    + intros _. destruct rest as [|s' rest'].
      * rewrite (Hempty eq_refl). inversion Hall; subst.
        unfold push_back. now rewrite lookup_insert_eq.
      * rewrite Hfull by discriminate. unfold push_back.
        rewrite lookup_insert_eq. cbn [default].
        unfold id. now rewrite <- app_assoc.
Qed.

Lemma buildAccelerationsForBody_shape (un : string) (c : BodyPtr) (cn : string)
    (inner : list (string * list AccelerationSettings)) :
  forall acc w map' w',
    buildAccelerationsForBody platform bodyMap un c cn inner acc w = Returned map' w' ->
    NoDup (map fst inner) ->
    (forall k, ~ In k (map fst inner) -> map' !! k = acc !! k)
    /\ (forall en l, In (en, l) inner ->
          exists models,
            Forall2 (fun s m => modelMatchesType (accelerationType_ s) m = true)
              l models
            /\ (l = [] -> map' !! en = acc !! en)
            /\ (l <> [] -> map' !! en = Some (default [] (acc !! en) ++ models)%list)).
Proof.
  induction inner as [|[en0 l0] rest IH]; intros acc w map' w' Hrun Hnd.
  - cbn in Hrun. injection Hrun as <- _. split; [reflexivity|]. intros ? ? [].
  - cbn [buildAccelerationsForBody] in Hrun.
    destruct (bodyMap !! en0) as [e|]; [|discriminate Hrun].
    unfold bind in Hrun.
    destruct (buildAccelerationList platform bodyMap un en0 c cn l0 acc w)
      as [map1 w1|x w1] eqn:Hl; [|discriminate Hrun].
    cbn [map fst] in Hnd. apply NoDup_cons in Hnd. destruct Hnd as [Hnot Hnd].
    rewrite list_elem_of_In in Hnot.
    destruct (buildAccelerationList_shape un en0 c cn l0 _ _ _ _ Hl)
      as (models & Hall & Hother & Hempty & Hfull).
    destruct (IH _ _ _ _ Hrun Hnd) as (Hout & Hin).
    split.
    + intros k Hk. rewrite Hout by (intros H; apply Hk; now right).
      apply Hother. intros ->. apply Hk. now left.
    + intros en l [Heq|Hin'].
      * injection Heq as <- <-. exists models. split; [exact Hall|].
        rewrite (Hout en0 Hnot). split.
        -- intros H. now rewrite (Hempty H).
        -- exact Hfull.
      * assert (Hne : en <> en0).
        { intros ->. apply Hnot. now apply (in_map fst _ (en0, l)). }
        destruct (Hin en l Hin') as (models' & Hall' & H1 & H2).
        exists models'. split; [exact Hall'|].
        rewrite (Hother en Hne) in H1, H2. split; assumption.
Qed.

Lemma buildAccelerationModelMap_shape (centralBodies : gmap string string)
    (sel : list (string * list (string * list AccelerationSettings))) :
  forall acc w result w',
    buildAccelerationModelMap platform bodyMap centralBodies sel acc w
      = Returned result w' ->
    NoDup (map fst sel) ->
    (forall un inner, In (un, inner) sel -> NoDup (map fst inner)) ->
    (forall un, ~ In un (map fst sel) -> result !! un = acc !! un)
    /\ (forall un inner, In (un, inner) sel ->
          exists m,
            result !! un = Some m
            /\ (forall en, ~ In en (map fst inner) -> m !! en = None)
            /\ (forall en l, In (en, l) inner ->
                  exists models,
                    Forall2 (fun s model =>
                               modelMatchesType (accelerationType_ s) model = true)
                      l models
                    /\ (l = [] -> m !! en = None)
                    /\ (l <> [] -> m !! en = Some models))).
Proof.
  induction sel as [|[un0 inner0] rest IH]; intros acc w result w' Hrun Hnd Hinner.
  - cbn in Hrun. injection Hrun as <- _. split; [reflexivity|]. intros ? ? [].
  - rewrite buildAccelerationModelMap_step in Hrun.
    destruct (centralBodies !! un0) as [cn|]; [|discriminate Hrun].
    destruct (negb (isFrameInertial cn) && negb (bool_decide (is_Some (bodyMap !! cn))));
      [discriminate Hrun|].
    destruct (bodyMap !! un0); [|discriminate Hrun].
    destruct (buildAccelerationsForBody platform bodyMap un0
                (centralBodyPointer bodyMap cn) cn inner0 ∅ w)
      as [m0 w1|x w1] eqn:Hb; [|discriminate Hrun].
    cbn [map fst] in Hnd. apply NoDup_cons in Hnd. destruct Hnd as [Hnot Hnd].
    rewrite list_elem_of_In in Hnot.
    destruct (buildAccelerationsForBody_shape un0 _ cn inner0 _ _ _ _ Hb
                (Hinner un0 inner0 (or_introl eq_refl))) as (Hmout & Hmin).
    destruct (IH _ _ _ _ Hrun Hnd (fun un inner H => Hinner un inner (or_intror H)))
      as (Hout & Hin).
    split.
    + intros un Hun. rewrite Hout by (intros H; apply Hun; now right).
      rewrite lookup_insert_ne; [reflexivity|]. intros ->. apply Hun. now left.
    + intros un inner [Heq|Hin'].
      * injection Heq as <- <-. exists m0.
        rewrite (Hout un0 Hnot), lookup_insert_eq. split; [reflexivity|]. split.
        -- intros en Hen. now rewrite (Hmout en Hen).
        -- intros en l Hl. destruct (Hmin en l Hl) as (models & Hall & H1 & H2).
           exists models. split; [exact Hall|]. split.
           ++ intros H. now rewrite (H1 H).
           ++ intros H. now rewrite (H2 H).
      * exact (Hin un inner Hin').
Qed.

End AssemblyShape.

(** X18: the map returned by [createAccelerationModelsMap] (for a
    selection with unique keys) has an entry for every body undergoing
    acceleration of the selection, also for one with an empty inner map,
    and for no other body.  For every exerting body with a non-empty
    settings list the entry holds one model per settings entry, in the
    order of the list and of the class of the entry's type; an exerting
    body with an empty list has no entry. *)
Theorem assembled_map_mirrors_the_selection
    (platform : Platform) (bodyMap : gmap string BodyPtr)
    (centralBodies : gmap string string)
    (sel : list (string * list (string * list AccelerationSettings)))
    (w w' : World)
    (result : gmap string (gmap string (list AccelerationModel)))
    (Hrun : createAccelerationModelsMap platform bodyMap sel centralBodies w
            = Returned result w')
    (Hkeys : NoDup (map fst sel))
    (Hinner : forall un inner, In (un, inner) sel -> NoDup (map fst inner)) :
  (forall un, ~ hasKey un sel -> result !! un = None)
  /\ (forall un inner, In (un, inner) sel ->
        exists m,
          result !! un = Some m
          /\ (forall en, ~ hasKey en inner -> m !! en = None)
          /\ (forall en l, In (en, l) inner ->
                exists models,
                  Forall2 (fun s model =>
                             modelMatchesType (accelerationType_ s) model = true)
                    l models
                  /\ (l = [] -> m !! en = None)
                  /\ (l <> [] -> m !! en = Some models))).
Proof.
  destruct (buildAccelerationModelMap_shape platform bodyMap centralBodies sel
              ∅ w result w' Hrun Hkeys Hinner) as (Hout & Hin).
  split; [|exact Hin].
  intros un Hun. now rewrite (Hout un Hun).
Qed.

(** ** The spherical-harmonics builder of the two revisions *)

Lemma revised_spherical_harmonics_outcome
    (w : World) (u e : BodyPtr) (un en : string)
    (settings : AccelerationSettings) (flag : bool) :
  hasReturned (Revised.createSphericalHarmonicsGravityAcceleration
                 u e un en settings flag w) = true
  <-> is_Some (asSphericalHarmonicAccelerationSettings settings)
      /\ (exists eb field rotation,
             pointee w e = Some eb
             /\ asSphericalHarmonicsGravityField (gravityFieldModel eb) = Some field
             /\ rotationalEphemeris eb = Some rotation
             /\ targetFrameOrientation rotation = sh_fixedReferenceFrame field)
      /\ (flag = true -> is_Some (pointee w u)).
Proof.
  unfold Revised.createSphericalHarmonicsGravityAcceleration, bind, deref.
  destruct (asSphericalHarmonicAccelerationSettings settings) as [[d o]|].
  2:{ cbn. split; [discriminate|]. intros ([x Hx] & _). discriminate Hx. }
  destruct (pointee w e) as [eb|].
  2:{ cbn. split; [discriminate|]. intros (_ & (eb & f & r & Heb & _) & _).
      discriminate Heb. }
  destruct (asSphericalHarmonicsGravityField (gravityFieldModel eb)) as [f|] eqn:Hf.
  2:{ cbn. split; [discriminate|]. intros (_ & (eb' & f & r & Heb & Hf' & _) & _).
      injection Heb as <-. rewrite Hf in Hf'. discriminate Hf'. }
  destruct (rotationalEphemeris eb) as [r|] eqn:Hr.
  2:{ cbn. split; [discriminate|].
      intros (_ & (eb' & f' & r & Heb & _ & Hr' & _) & _).
      injection Heb as <-. rewrite Hr in Hr'. discriminate Hr'. }
  destruct (String.eqb_spec (targetFrameOrientation r) (sh_fixedReferenceFrame f))
    as [Heq|Hneq]; cbn [negb].
  2:{ cbn. split; [discriminate|].
      intros (_ & (eb' & f' & r' & Heb & Hf' & Hr' & Heq) & _).
      injection Heb as <-. rewrite Hf in Hf'. injection Hf' as <-.
      rewrite Hr in Hr'. injection Hr' as <-. contradiction. }
  destruct flag.
  - unfold selectGravitationalParameterFunction, bind, deref. cbn [negb].
    destruct (pointee w u) as [ub|].
    + destruct (gravityFieldModel ub); cbn; split; try reflexivity;
        intros _; (split; [eexists; reflexivity|]);
        (split; [exists eb, f, r; repeat split; assumption|]);
        intros _; eexists; reflexivity.
    + cbn. split; [discriminate|]. intros (_ & _ & H).
      destruct (H eq_refl) as [x Hx]. discriminate Hx.
  - rewrite select_flag_off. cbn. split; [|reflexivity]. intros _.
    split; [eexists; reflexivity|].
    split; [exists eb, f, r; repeat split; assumption|discriminate].
Qed.

Lemma revised_spherical_harmonics_refines
    (w w' : World) (u e : BodyPtr) (un en : string)
    (settings : AccelerationSettings) (flag : bool)
    (m : Revised.SphericalHarmonicsGravitationalAccelerationModel) :
  Revised.createSphericalHarmonicsGravityAcceleration u e un en settings flag w
    = Returned m w' ->
  exists m0,
    createSphericalHarmonicsGravityAcceleration u e un en settings flag w
      = Returned m0 w'
    /\ shm_gravitationalParameterFunction m0 = Revised.gravitationalParameterFunction m
    /\ shm_gravityField m0 = Revised.gravityField m
    /\ shm_maximumDegree m0 = Revised.maximumDegree m
    /\ shm_maximumOrder m0 = Revised.maximumOrder m
    /\ Revised.rotationFromBodyFixedToIntegrationFrame m = e
    /\ Revised.isMutualAttractionUsed m = flag.
Proof.
  unfold Revised.createSphericalHarmonicsGravityAcceleration,
    createSphericalHarmonicsGravityAcceleration, bind, deref.
  destruct (asSphericalHarmonicAccelerationSettings settings) as [[d o]|];
    [|discriminate].
  destruct (pointee w e) as [eb|]; [|discriminate].
  destruct (asSphericalHarmonicsGravityField (gravityFieldModel eb)) as [f|];
    [|discriminate].
  destruct (rotationalEphemeris eb) as [r|]; [|discriminate].
  destruct (negb (String.eqb (targetFrameOrientation r) (sh_fixedReferenceFrame f)));
    [discriminate|].
  destruct (selectGravitationalParameterFunction flag u
              (fun _ : unit => sh_gravitationalParameter f) w) as [g w1|x w1];
    [|discriminate].
  unfold make_shared, bind, ret. cbn. intros H. injection H as <- <-.
  eexists. split; [reflexivity|]. cbn. repeat split; reflexivity.
Qed.

(** X19: the spherical-harmonics builder of the later revision returns
    exactly when the settings are of the spherical-harmonic class, the
    exerting body exists and owns a spherical-harmonics field and a
    rotational ephemeris whose target frame is the fixed frame of the
    field, and, with the flag set, the undergoing body exists.  It is
    stricter than the builder of this revision: whenever it returns, the
    builder of this revision returns on the same input, in the same
    world, a model with the same gravitational parameter function, field,
    degree and order. *)
Theorem revised_spherical_harmonics_builder_is_stricter
    (w : World) (u e : BodyPtr) (un en : string)
    (settings : AccelerationSettings) (flag : bool) :
  (hasReturned (Revised.createSphericalHarmonicsGravityAcceleration
                  u e un en settings flag w) = true
   <-> is_Some (asSphericalHarmonicAccelerationSettings settings)
       /\ (exists eb field rotation,
              pointee w e = Some eb
              /\ asSphericalHarmonicsGravityField (gravityFieldModel eb) = Some field
              /\ rotationalEphemeris eb = Some rotation
              /\ targetFrameOrientation rotation = sh_fixedReferenceFrame field)
       /\ (flag = true -> is_Some (pointee w u)))
  /\ (forall m w',
        Revised.createSphericalHarmonicsGravityAcceleration u e un en settings flag w
          = Returned m w' ->
        exists m0,
          createSphericalHarmonicsGravityAcceleration u e un en settings flag w
            = Returned m0 w'
          /\ shm_gravitationalParameterFunction m0
             = Revised.gravitationalParameterFunction m
          /\ shm_gravityField m0 = Revised.gravityField m
          /\ shm_maximumDegree m0 = Revised.maximumDegree m
          /\ shm_maximumOrder m0 = Revised.maximumOrder m
          /\ Revised.rotationFromBodyFixedToIntegrationFrame m = e
          /\ Revised.isMutualAttractionUsed m = flag).
Proof.
  split.
  - apply revised_spherical_harmonics_outcome.
  - intros m w'. apply revised_spherical_harmonics_refines.
Qed.

(** ** Runs of the two map functions *)

(** The Probe is selected without any exerting body, the Satellite with
    [thrust, aerodynamic] from the Earth. *)
Lemma ordered_map_mirrors_the_selection_witness :
  exists ordered,
    Revised.orderSelectedAccelerationMap
      (("Probe", []) :: Scenario.thrustFirstRun) = inr ordered
    /\ ordered !! "Probe" = None
    /\ exists m l', ordered !! "Satellite" = Some m /\ m !! "Earth" = Some l'.
Proof.
  destruct (Revised.orderSelectedAccelerationMap
              (("Probe", []) :: Scenario.thrustFirstRun)) as [x|ordered] eqn:E.
  { vm_compute in E. discriminate E. }
  destruct (ordered_map_mirrors_the_selection
              (("Probe", []) :: Scenario.thrustFirstRun) ordered E)
    as (_ & Hempty & Hfull).
  - apply (bool_decide_unpack _). vm_compute. reflexivity.
  - intros un inner [H|[H|[]]]; injection H as <- <-;
      apply (bool_decide_unpack _); vm_compute; reflexivity.
  - exists ordered. split; [reflexivity|]. split.
    + apply Hempty. now left.
    + destruct (Hfull "Satellite"
                  [("Earth", [BaseAccelerationSettings thrust_acceleration;
                              BaseAccelerationSettings aerodynamic])])
        as (m & Hm & _ & Hin).
      * right. now left.
      * discriminate.
      * destruct (Hin "Earth" _ (or_introl eq_refl)) as (l' & _ & Hl').
        exists m, l'. split; assumption.
Defined.

(** The Moon under the central gravity of the Earth; the Satellite under
    the aerodynamic acceleration of the Earth, with the Moon selected
    without any entry. *)
Lemma assembled_map_mirrors_the_selection_witness :
  exists result w',
    createAccelerationModelsMap (Scenario.platform LeftToRight) Scenario.bodyMap
      [("Moon", [("Earth", [BaseAccelerationSettings central_gravity])]);
       ("Satellite", [("Earth", [BaseAccelerationSettings aerodynamic]);
                      ("Moon", [])])]
      Scenario.centralBodies Scenario.world = Returned result w'
    /\ result !! "Earth" = None
    /\ exists m models,
         result !! "Satellite" = Some m
         /\ m !! "Moon" = None
         /\ m !! "Earth" = Some models
         /\ length models = 1.
Proof.
  destruct (createAccelerationModelsMap (Scenario.platform LeftToRight)
              Scenario.bodyMap
              [("Moon", [("Earth", [BaseAccelerationSettings central_gravity])]);
               ("Satellite", [("Earth", [BaseAccelerationSettings aerodynamic]);
                              ("Moon", [])])]
              Scenario.centralBodies Scenario.world) as [result w'|x w'] eqn:E.
  2:{ vm_compute in E. discriminate E. }
  destruct (assembled_map_mirrors_the_selection (Scenario.platform LeftToRight)
              Scenario.bodyMap Scenario.centralBodies _ Scenario.world w' result E)
    as (Hout & Hin).
  - apply (bool_decide_unpack _). vm_compute. reflexivity.
  - intros un inner [H|[H|[]]]; injection H as <- <-;
      apply (bool_decide_unpack _); vm_compute; reflexivity.
  - exists result, w'. split; [reflexivity|]. split.
    + apply Hout. unfold hasKey. cbn. intros [H|[H|[]]]; discriminate H.
    + destruct (Hin "Satellite" _ (or_intror (or_introl eq_refl)))
        as (m & Hm & _ & Hentries).
      destruct (Hentries "Earth" _ (or_introl eq_refl)) as (models & Hall & _ & Hfull).
      destruct (Hentries "Moon" _ (or_intror (or_introl eq_refl)))
        as (_ & _ & Hempty & _).
      exists m, models. split; [exact Hm|]. split; [exact (Hempty eq_refl)|].
      split; [apply Hfull; discriminate|].
      apply Forall2_length in Hall. now rewrite <- Hall.
Defined.

(** ** The gravitational accelerations of the later revision *)

(** The central-gravity builder of the later revision is the one of the
    earlier revision, with the flag recorded in the model. *)
Lemma later_central_builder (w : World) (u e : BodyPtr) (un en : string) (flag : bool) :
  RevisedGravitation.createCentralGravityAcceleratioModel u e un en flag w =
    match createCentralGravityAcceleratioModel u e un en flag w with
    | Returned m w' =>
        Returned {| RevisedGravitation.positionOfBodySubjectToAcceleration :=
                      cg_positionOfBodySubjectToAcceleration m;
                    RevisedGravitation.gravitationalParameterFunction :=
                      cg_gravitationalParameterFunction m;
                    RevisedGravitation.positionOfBodyExertingAcceleration :=
                      cg_positionOfBodyExertingAcceleration m;
                    RevisedGravitation.isMutualAttractionUsed := flag |} w'
    | Thrown x w' => Thrown x w'
    end.
Proof.
  unfold RevisedGravitation.createCentralGravityAcceleratioModel,
    createCentralGravityAcceleratioModel, bind, deref.
  destruct (pointee w e) as [eb|]; [|reflexivity].
  destruct (gravityFieldModel eb) as [g|]; [|reflexivity].
  destruct (selectGravitationalParameterFunction flag u
              (fun _ : unit => getGravitationalParameter g) w) as [f w1|x w1];
    reflexivity.
Qed.

Lemma later_sum_flag_off (en : string) (p : BodyPtr) :
  en <> "" -> (if String.eqb "" en && RevisedGravitation.isNotNull p then true else false) = false.
Proof.
  intros Hen. destruct (String.eqb_spec "" en) as [Heq|_]; [|reflexivity].
  now contradiction Hen.
Qed.

Lemma direct_returns_class (platform : Platform) (w w' : World) (u e : BodyPtr)
    (un en cn : string) (s : RevisedGravitation.Settings) (isCentralBody : bool)
    (m : RevisedGravitation.AccelerationModel) :
  RevisedGravitation.createDirectGravitationalAcceleration platform u e un en s cn isCentralBody w
    = Returned m w' ->
  RevisedGravitation.modelMatchesType (RevisedGravitation.accelerationType_ s) true m = true.
Proof.
  unfold RevisedGravitation.createDirectGravitationalAcceleration, bind, ret, throw.
  destruct (RevisedGravitation.accelerationType_ s); try discriminate.
  - destruct (RevisedGravitation.createCentralGravityAcceleratioModel u e un en _ w); [|discriminate].
    intros H. injection H as <- _. reflexivity.
  - destruct (Revised.createSphericalHarmonicsGravityAcceleration u e un en _ _ w);
      [|discriminate].
    intros H. injection H as <- _. reflexivity.
  - destruct (RevisedGravitation.createMutualSphericalHarmonicsGravityAcceleration u e un en s _ _ w);
      [|discriminate].
    intros H. injection H as <- _. reflexivity.
Qed.

Lemma buildLegs_returns {A} (platform : Platform)
    (cast : RevisedGravitation.AccelerationModel -> option A)
    (leg1 leg2 : Cpp RevisedGravitation.AccelerationModel) (cn : string)
    (w w' : World) (t : RevisedGravitation.ThirdBodyAcceleration A) :
  RevisedGravitation.buildLegs platform cast leg1 leg2 cn w = Returned t w' ->
  exists m1 m2 w1 w2,
    RevisedGravitation.accelerationModelForBodyUndergoingAcceleration t = cast m1
    /\ RevisedGravitation.accelerationModelForCentralBody t = cast m2
    /\ RevisedGravitation.centralBodyName t = cn
    /\ w' = recordConstruction w2
    /\ ((leg1 w = Returned m1 w1 /\ leg2 w1 = Returned m2 w2)
        \/ (leg2 w = Returned m2 w1 /\ leg1 w1 = Returned m1 w2)).
Proof.
  unfold RevisedGravitation.buildLegs, bind, make_shared.
  destruct (argumentOrder platform).
  - destruct (leg1 w) as [m1 w1|x w1] eqn:H1; [|discriminate].
    destruct (leg2 w1) as [m2 w2|x w2] eqn:H2; [|discriminate].
    intros H. injection H as <- <-. exists m1, m2, w1, w2.
    repeat split; try reflexivity. left. now split.
  - destruct (leg2 w) as [m2 w1|x w1] eqn:H2; [|discriminate].
    destruct (leg1 w1) as [m1 w2|x w2] eqn:H1; [|discriminate].
    intros H. injection H as <- <-. exists m1, m2, w1, w2.
    repeat split; try reflexivity. right. now split.
Qed.

Lemma third_body_returns_class (platform : Platform) (w w' : World) (u e c : BodyPtr)
    (un en cn : string) (s : RevisedGravitation.Settings) (m : RevisedGravitation.AccelerationModel) :
  RevisedGravitation.createThirdBodyGravitationalAcceleration platform u e c un en cn s w
    = Returned m w' ->
  RevisedGravitation.modelMatchesType (RevisedGravitation.accelerationType_ s) false m = true.
Proof.
  unfold RevisedGravitation.createThirdBodyGravitationalAcceleration, bind, ret, throw.
  destruct (RevisedGravitation.accelerationType_ s) eqn:Ht; try discriminate.
  - destruct (RevisedGravitation.buildLegs platform RevisedGravitation.asCentralGravitationalAccelerationModel3d _ _ cn w)
      as [t w1|x w1] eqn:Hl; [|discriminate].
    intros H. injection H as <- _.
    destruct (buildLegs_returns _ _ _ _ _ _ _ _ Hl)
      as (m1 & m2 & wa & wb & E1 & E2 & _ & _ & Hlegs).
    assert (H1 : RevisedGravitation.modelMatchesType central_gravity true m1 = true
                 /\ RevisedGravitation.modelMatchesType central_gravity true m2 = true).
    { rewrite <- Ht.
      destruct Hlegs as [[Ha Hb]|[Ha Hb]]; split;
        eapply direct_returns_class; eassumption. }
    destruct H1 as [H1 H2]. cbn. unfold RevisedGravitation.bothLegsSet. rewrite E1, E2.
    destruct m1; try discriminate H1. destruct m2; try discriminate H2. reflexivity.
  - destruct (RevisedGravitation.buildLegs platform
                RevisedGravitation.asSphericalHarmonicsGravitationalAccelerationModel _ _ cn w)
      as [t w1|x w1] eqn:Hl; [|discriminate].
    intros H. injection H as <- _.
    destruct (buildLegs_returns _ _ _ _ _ _ _ _ Hl)
      as (m1 & m2 & wa & wb & E1 & E2 & _ & _ & Hlegs).
    assert (H1 : RevisedGravitation.modelMatchesType spherical_harmonic_gravity true m1 = true
                 /\ RevisedGravitation.modelMatchesType spherical_harmonic_gravity true m2 = true).
    { rewrite <- Ht.
      destruct Hlegs as [[Ha Hb]|[Ha Hb]]; split;
        eapply direct_returns_class; eassumption. }
    destruct H1 as [H1 H2]. cbn. unfold RevisedGravitation.bothLegsSet. rewrite E1, E2.
    destruct m1; try discriminate H1. destruct m2; try discriminate H2. reflexivity.
  - destruct (RevisedGravitation.buildLegs platform
                RevisedGravitation.asMutualSphericalHarmonicsGravitationalAccelerationModel _ _ cn w)
      as [t w1|x w1] eqn:Hl; [|discriminate].
    intros H. injection H as <- _.
    destruct (buildLegs_returns _ _ _ _ _ _ _ _ Hl)
      as (m1 & m2 & wa & wb & E1 & E2 & _ & _ & Hlegs).
    assert (H1 : RevisedGravitation.modelMatchesType mutual_spherical_harmonic_gravity true m1 = true
                 /\ RevisedGravitation.modelMatchesType mutual_spherical_harmonic_gravity true m2 = true).
    { rewrite <- Ht.
      destruct Hlegs as [[Ha Hb]|[Ha Hb]]; split;
        eapply direct_returns_class; eassumption. }
    destruct H1 as [H1 H2]. cbn. unfold RevisedGravitation.bothLegsSet. rewrite E1, E2.
    destruct m1; try discriminate H1. destruct m2; try discriminate H2. reflexivity.
Qed.

(** X20: a model that [createGravitationalAccelerationModel] returns has
    the class of the settings' type, in its direct form exactly when the
    central body is the exerting body or an inertial frame and otherwise
    in its third-body form with both legs set (the casts of the third-body
    builder never yield a null leg).  For a type that is none of the three
    gravity types it throws the configuration error without touching a
    body. *)
Theorem later_gravity_dispatcher_returns_the_class_of_the_type
    (platform : Platform) (isFrameInertial_ : string -> bool)
    (w : World) (u e c : BodyPtr) (s : RevisedGravitation.Settings) (un en cn : string) :
  (forall m w',
      RevisedGravitation.createGravitationalAccelerationModel platform isFrameInertial_
        u e s un en c cn w = Returned m w' ->
      RevisedGravitation.modelMatchesType (RevisedGravitation.accelerationType_ s)
        (String.eqb cn en || isFrameInertial_ cn) m = true)
  /\ (RevisedGravitation.accelerationType_ s <> central_gravity ->
      RevisedGravitation.accelerationType_ s <> spherical_harmonic_gravity ->
      RevisedGravitation.accelerationType_ s <> mutual_spherical_harmonic_gravity ->
      RevisedGravitation.createGravitationalAccelerationModel platform isFrameInertial_
        u e s un en c cn w
      = Thrown (runtime_error ConfigurationError
                  "Error when making gravitational acceleration, type is inconsistent") w).
Proof.
  unfold RevisedGravitation.createGravitationalAccelerationModel. split.
  - intros m w'.
    destruct (negb (AvailableAcceleration_eqb (RevisedGravitation.accelerationType_ s) central_gravity)
              && negb (AvailableAcceleration_eqb (RevisedGravitation.accelerationType_ s)
                         spherical_harmonic_gravity)
              && negb (AvailableAcceleration_eqb (RevisedGravitation.accelerationType_ s)
                         mutual_spherical_harmonic_gravity)); [discriminate|].
    destruct (String.eqb cn en || isFrameInertial_ cn).
    + apply direct_returns_class.
    + apply third_body_returns_class.
  - intros H1 H2 H3.
    destruct (RevisedGravitation.accelerationType_ s); try contradiction; reflexivity.
Qed.

Lemma direct_central_leg (platform : Platform) (w : World) (p e : BodyPtr)
    (pn en cn : string) (s : RevisedGravitation.Settings) (isCentralBody : bool) :
  RevisedGravitation.accelerationType_ s = central_gravity ->
  RevisedGravitation.createDirectGravitationalAcceleration platform p e pn en s cn isCentralBody w =
    match createCentralGravityAcceleratioModel p e pn en
            (if String.eqb cn en && RevisedGravitation.isNotNull p then true else false) w with
    | Returned m w' =>
        Returned (RevisedGravitation.CentralGravityModel
                    {| RevisedGravitation.positionOfBodySubjectToAcceleration :=
                         cg_positionOfBodySubjectToAcceleration m;
                       RevisedGravitation.gravitationalParameterFunction :=
                         cg_gravitationalParameterFunction m;
                       RevisedGravitation.positionOfBodyExertingAcceleration :=
                         cg_positionOfBodyExertingAcceleration m;
                       RevisedGravitation.isMutualAttractionUsed :=
                         if String.eqb cn en && RevisedGravitation.isNotNull p then true else false |})
                 w'
    | Thrown x w' => Thrown x w'
    end.
Proof.
  intros Ht. unfold RevisedGravitation.createDirectGravitationalAcceleration. rewrite Ht.
  unfold bind. rewrite later_central_builder.
  destruct (createCentralGravityAcceleratioModel p e pn en _ w); reflexivity.
Qed.

Lemma later_central_gravity_agrees (platform : Platform) (w : World)
    (u e c : BodyPtr) (s : AccelerationSettings) (un en cn : string) :
  accelerationType_ s = central_gravity ->
  u <> None -> en <> "" ->
  sameCentralGravityOutcome
    (createAccelerationModel platform u e s un en c cn w)
    (RevisedGravitation.createGravitationalAccelerationModel platform isFrameInertial
       u e (RevisedGravitation.EarlierClassSettings s) un en c cn w).
Proof.
  intros Ht Hu Hen.
  assert (Ht' : RevisedGravitation.accelerationType_ (RevisedGravitation.EarlierClassSettings s) = central_gravity)
    by exact Ht.
  unfold createAccelerationModel, RevisedGravitation.createGravitationalAccelerationModel.
  rewrite Ht', Ht. cbn [AvailableAcceleration_eqb negb andb].
  destruct (String.eqb cn en || isFrameInertial cn).
  - rewrite (direct_central_leg platform w u e un en cn _ false Ht').
    assert (Hflag : (if String.eqb cn en && RevisedGravitation.isNotNull u then true else false)
                    = (if String.eqb cn en then true else false)).
    { destruct u; [|contradiction]. cbn [RevisedGravitation.isNotNull]. now rewrite andb_true_r. }
    rewrite Hflag. unfold bind, ret.
    destruct (createCentralGravityAcceleratioModel u e un en _ w) as [m w1|x w1].
    + cbn. split; [reflexivity|]. repeat split; reflexivity.
    + cbn. split; reflexivity.
  - unfold RevisedGravitation.createThirdBodyGravitationalAcceleration. rewrite Ht'.
    unfold createThirdBodyCentralGravityAccelerationModel, RevisedGravitation.buildLegs, bind.
    destruct (argumentOrder platform).
    + rewrite (direct_central_leg platform w u e un en "" _ false Ht').
      rewrite (later_sum_flag_off en u Hen).
      destruct (createCentralGravityAcceleratioModel u e un en false w)
        as [m1 w1|x w1]; [|cbn; split; reflexivity].
      rewrite (direct_central_leg platform w1 c e cn en "" _ true Ht').
      rewrite (later_sum_flag_off en c Hen).
      destruct (createCentralGravityAcceleratioModel c e cn en false w1)
        as [m2 w2|x w2]; [|cbn; split; reflexivity].
      cbn. split; [reflexivity|]. eexists. eexists.
      split; [reflexivity|]. split; [reflexivity|].
      repeat split; reflexivity.
    + rewrite (direct_central_leg platform w c e cn en "" _ true Ht').
      rewrite (later_sum_flag_off en c Hen).
      destruct (createCentralGravityAcceleratioModel c e cn en false w)
        as [m2 w1|x w1]; [|cbn; split; reflexivity].
      rewrite (direct_central_leg platform w1 u e un en "" _ false Ht').
      rewrite (later_sum_flag_off en u Hen).
      destruct (createCentralGravityAcceleratioModel u e un en false w1)
        as [m1 w2|x w2]; [|cbn; split; reflexivity].
      cbn. split; [reflexivity|]. eexists. eexists.
      split; [reflexivity|]. split; [reflexivity|].
      repeat split; reflexivity.
Qed.

Lemma later_central_inv (w w' : World) (p e : BodyPtr) (pn en : string) (flag : bool)
    (m : RevisedGravitation.CentralGravitationalAccelerationModel3d) :
  RevisedGravitation.createCentralGravityAcceleratioModel p e pn en flag w = Returned m w' ->
  exists eb g,
    pointee w e = Some eb /\ gravityFieldModel eb = Some g
    /\ w' = recordConstruction w
    /\ RevisedGravitation.positionOfBodySubjectToAcceleration m = p
    /\ RevisedGravitation.positionOfBodyExertingAcceleration m = e
    /\ RevisedGravitation.isMutualAttractionUsed m = flag
    /\ (flag = false ->
        RevisedGravitation.gravitationalParameterFunction m
        = fun _ : unit => getGravitationalParameter g).
Proof.
  unfold RevisedGravitation.createCentralGravityAcceleratioModel, bind, deref.
  destruct (pointee w e) as [eb|]; [|discriminate].
  destruct (gravityFieldModel eb) as [g|] eqn:Hg; [|discriminate].
  destruct flag.
  - destruct (select_outcome true p
                (fun _ : unit => getGravitationalParameter g) w) as [[f ->] | ->];
      [|discriminate].
    unfold make_shared. cbv beta iota. intros H. inversion H; subst.
    exists eb, g. repeat split; try reflexivity; try assumption.
    intros Hf. discriminate Hf.
  - rewrite select_flag_off. unfold make_shared. cbv beta iota.
    intros H. inversion H; subst.
    exists eb, g. repeat split; try reflexivity; assumption.
Qed.

Lemma revised_spherical_harmonics_inv (w w' : World) (p e : BodyPtr) (pn en : string)
    (settings : AccelerationSettings) (flag : bool)
    (m : Revised.SphericalHarmonicsGravitationalAccelerationModel) :
  Revised.createSphericalHarmonicsGravityAcceleration p e pn en settings flag w
    = Returned m w' ->
  exists eb f d o,
    pointee w e = Some eb
    /\ asSphericalHarmonicsGravityField (gravityFieldModel eb) = Some f
    /\ asSphericalHarmonicAccelerationSettings settings = Some (d, o)
    /\ w' = recordConstruction w
    /\ Revised.positionOfBodySubjectToAcceleration m = p
    /\ Revised.positionOfBodyExertingAcceleration m = e
    /\ Revised.gravityField m = f
    /\ Revised.maximumDegree m = d /\ Revised.maximumOrder m = o
    /\ Revised.isMutualAttractionUsed m = flag
    /\ (flag = false ->
        Revised.gravitationalParameterFunction m
        = fun _ : unit => sh_gravitationalParameter f).
Proof.
  unfold Revised.createSphericalHarmonicsGravityAcceleration, bind, deref.
  destruct (asSphericalHarmonicAccelerationSettings settings) as [[d o]|];
    [|discriminate].
  destruct (pointee w e) as [eb|]; [|discriminate].
  destruct (asSphericalHarmonicsGravityField (gravityFieldModel eb)) as [f|] eqn:Hf;
    [|discriminate].
  destruct (rotationalEphemeris eb) as [r|]; [|discriminate].
  destruct (negb (String.eqb (targetFrameOrientation r) (sh_fixedReferenceFrame f)));
    [discriminate|].
  destruct flag.
  - destruct (select_outcome true p
                (fun _ : unit => sh_gravitationalParameter f) w) as [[g ->] | ->];
      [|discriminate].
    unfold make_shared. cbv beta iota. intros H. inversion H; subst.
    exists eb, f, d, o. repeat split; try reflexivity; try assumption.
    intros Hf'. discriminate Hf'.
  - rewrite select_flag_off. unfold make_shared. cbv beta iota.
    intros H. inversion H; subst.
    exists eb, f, d, o. repeat split; try reflexivity; assumption.
Qed.

Lemma mutual_inv (w w' : World) (p e : BodyPtr) (pn en : string)
    (s : RevisedGravitation.Settings) (flag isCentralBody : bool)
    (m : RevisedGravitation.MutualSphericalHarmonicsGravitationalAccelerationModel) :
  RevisedGravitation.createMutualSphericalHarmonicsGravityAcceleration p e pn en s flag isCentralBody w
    = Returned m w' ->
  exists eb pb fe fp ms,
    pointee w e = Some eb /\ pointee w p = Some pb
    /\ asSphericalHarmonicsGravityField (gravityFieldModel eb) = Some fe
    /\ asSphericalHarmonicsGravityField (gravityFieldModel pb) = Some fp
    /\ RevisedGravitation.asMutualSphericalHarmonicAccelerationSettings s = Some ms
    /\ w' = recordConstruction w
    /\ RevisedGravitation.mutual_positionOfBodySubjectToAcceleration m = p
    /\ RevisedGravitation.mutual_positionOfBodyExertingAcceleration m = e
    /\ RevisedGravitation.gravityFieldOfBodyExertingAcceleration m = fe
    /\ RevisedGravitation.gravityFieldOfBodyUndergoingAcceleration m = fp
    /\ RevisedGravitation.maximumDegreeOfBodyExertingAcceleration m
       = RevisedGravitation.maximumDegreeOfBodyExertingAcceleration_ ms
    /\ RevisedGravitation.maximumOrderOfBodyExertingAcceleration m
       = RevisedGravitation.maximumOrderOfBodyExertingAcceleration_ ms
    /\ RevisedGravitation.maximumDegreeOfBodyUndergoingAcceleration m
       = (if isCentralBody then RevisedGravitation.maximumDegreeOfCentralBody_ ms
          else RevisedGravitation.maximumDegreeOfBodyUndergoingAcceleration_ ms)
    /\ RevisedGravitation.maximumOrderOfBodyUndergoingAcceleration m
       = (if isCentralBody then RevisedGravitation.maximumOrderOfCentralBody_ ms
          else RevisedGravitation.maximumOrderOfBodyUndergoingAcceleration_ ms)
    /\ RevisedGravitation.useCentralBodyFixedFrame m = flag
    /\ RevisedGravitation.mutual_gravitationalParameterFunction m
       = (if flag
          then fun _ : unit =>
                 evaluateDoubleFunctions
                   (fun _ : unit => sh_gravitationalParameter fe)
                   (fun _ : unit => sh_gravitationalParameter fp)
          else fun _ : unit => sh_gravitationalParameter fe).
Proof.
  unfold RevisedGravitation.createMutualSphericalHarmonicsGravityAcceleration, bind, deref.
  destruct (RevisedGravitation.asMutualSphericalHarmonicAccelerationSettings s) as [ms|];
    [|discriminate].
  destruct (pointee w e) as [eb|]; [|discriminate].
  destruct (pointee w p) as [pb|]; [|discriminate].
  destruct (asSphericalHarmonicsGravityField (gravityFieldModel eb)) as [fe|] eqn:Hfe;
    [|discriminate].
  destruct (asSphericalHarmonicsGravityField (gravityFieldModel pb)) as [fp|] eqn:Hfp;
    [|discriminate].
  unfold make_shared.
  destruct flag, isCentralBody; cbn [negb]; intros H; inversion H; subst;
    exists eb, pb, fe, fp, ms; repeat split; try reflexivity; assumption.
Qed.

(** Both legs of a third-body model run in a world that differs from the
    initial one in the count of constructed models only. *)
Lemma buildLegs_legs {A} (platform : Platform)
    (cast : RevisedGravitation.AccelerationModel -> option A)
    (leg1 leg2 : Cpp RevisedGravitation.AccelerationModel) (cn : string)
    (w w' : World) (t : RevisedGravitation.ThirdBodyAcceleration A)
    (P1 P2 : RevisedGravitation.AccelerationModel -> Prop) :
  (forall wx m wy, (forall p, pointee wx p = pointee w p) ->
                   leg1 wx = Returned m wy -> wy = recordConstruction wx /\ P1 m) ->
  (forall wx m wy, (forall p, pointee wx p = pointee w p) ->
                   leg2 wx = Returned m wy -> wy = recordConstruction wx /\ P2 m) ->
  RevisedGravitation.buildLegs platform cast leg1 leg2 cn w = Returned t w' ->
  exists m1 m2,
    RevisedGravitation.accelerationModelForBodyUndergoingAcceleration t = cast m1
    /\ RevisedGravitation.accelerationModelForCentralBody t = cast m2
    /\ RevisedGravitation.centralBodyName t = cn
    /\ P1 m1 /\ P2 m2
    /\ w' = recordConstruction (recordConstruction (recordConstruction w)).
Proof.
  intros H1 H2 Hrun.
  destruct (buildLegs_returns _ _ _ _ _ _ _ _ Hrun)
    as (m1 & m2 & w1 & w2 & E1 & E2 & En & -> & [[Ha Hb]|[Ha Hb]]).
  - destruct (H1 w m1 w1 (fun p => eq_refl) Ha) as [-> HP1].
    destruct (H2 _ m2 w2 (pointee_recordConstruction w) Hb) as [-> HP2].
    exists m1, m2. repeat split; assumption.
  - destruct (H2 w m2 w1 (fun p => eq_refl) Ha) as [-> HP2].
    destruct (H1 _ m1 w2 (pointee_recordConstruction w) Hb) as [-> HP1].
    exists m1, m2. repeat split; assumption.
Qed.

Lemma direct_central_inv (platform : Platform) (w w' : World) (p e : BodyPtr)
    (pn en cn : string) (s : RevisedGravitation.Settings) (isCentralBody : bool)
    (m : RevisedGravitation.AccelerationModel) :
  RevisedGravitation.accelerationType_ s = central_gravity ->
  RevisedGravitation.createDirectGravitationalAcceleration platform p e pn en s cn isCentralBody w
    = Returned m w' ->
  w' = recordConstruction w
  /\ exists mc eb g,
       m = RevisedGravitation.CentralGravityModel mc
       /\ pointee w e = Some eb /\ gravityFieldModel eb = Some g
       /\ RevisedGravitation.positionOfBodySubjectToAcceleration mc = p
       /\ RevisedGravitation.positionOfBodyExertingAcceleration mc = e
       /\ RevisedGravitation.isMutualAttractionUsed mc
          = (if String.eqb cn en && RevisedGravitation.isNotNull p then true else false)
       /\ ((if String.eqb cn en && RevisedGravitation.isNotNull p then true else false) = false ->
           RevisedGravitation.gravitationalParameterFunction mc
           = fun _ : unit => getGravitationalParameter g).
Proof.
  intros Ht. unfold RevisedGravitation.createDirectGravitationalAcceleration. rewrite Ht.
  unfold bind, ret.
  destruct (RevisedGravitation.createCentralGravityAcceleratioModel p e pn en _ w) as [mc w1|x w1] eqn:E;
    [|discriminate].
  intros H. injection H as <- <-.
  destruct (later_central_inv _ _ _ _ _ _ _ _ E)
    as (eb & g & He & Hg & -> & Hs & Hx & Hm & Hgpf).
  split; [reflexivity|]. exists mc, eb, g. repeat split; assumption.
Qed.

Lemma direct_spherical_harmonics_inv (platform : Platform) (w w' : World)
    (p e : BodyPtr) (pn en cn : string) (s : RevisedGravitation.Settings) (isCentralBody : bool)
    (m : RevisedGravitation.AccelerationModel) :
  RevisedGravitation.accelerationType_ s = spherical_harmonic_gravity ->
  RevisedGravitation.createDirectGravitationalAcceleration platform p e pn en s cn isCentralBody w
    = Returned m w' ->
  w' = recordConstruction w
  /\ exists ms eb f d o,
       m = RevisedGravitation.SphericalHarmonicsModel ms
       /\ pointee w e = Some eb
       /\ asSphericalHarmonicsGravityField (gravityFieldModel eb) = Some f
       /\ asSphericalHarmonicAccelerationSettings (RevisedGravitation.asEarlierClassSettings s)
          = Some (d, o)
       /\ Revised.positionOfBodySubjectToAcceleration ms = p
       /\ Revised.positionOfBodyExertingAcceleration ms = e
       /\ Revised.gravityField ms = f
       /\ Revised.maximumDegree ms = d /\ Revised.maximumOrder ms = o
       /\ Revised.isMutualAttractionUsed ms
          = (if String.eqb cn en && RevisedGravitation.isNotNull p then true else false)
       /\ ((if String.eqb cn en && RevisedGravitation.isNotNull p then true else false) = false ->
           Revised.gravitationalParameterFunction ms
           = fun _ : unit => sh_gravitationalParameter f).
Proof.
  intros Ht. unfold RevisedGravitation.createDirectGravitationalAcceleration. rewrite Ht.
  unfold bind, ret.
  destruct (Revised.createSphericalHarmonicsGravityAcceleration p e pn en _ _ w)
    as [ms w1|x w1] eqn:E; [|discriminate].
  intros H. injection H as <- <-.
  destruct (revised_spherical_harmonics_inv _ _ _ _ _ _ _ _ _ E)
    as (eb & f & d & o & He & Hf & Hs & -> & H1 & H2 & H3 & H4 & H5 & H6 & H7).
  split; [reflexivity|]. exists ms, eb, f, d, o. repeat split; assumption.
Qed.

Lemma direct_mutual_inv (platform : Platform) (w w' : World)
    (p e : BodyPtr) (pn en cn : string) (s : RevisedGravitation.Settings) (isCentralBody : bool)
    (m : RevisedGravitation.AccelerationModel) :
  RevisedGravitation.accelerationType_ s = mutual_spherical_harmonic_gravity ->
  RevisedGravitation.createDirectGravitationalAcceleration platform p e pn en s cn isCentralBody w
    = Returned m w' ->
  w' = recordConstruction w
  /\ exists mm eb pb fe fp ms,
       m = RevisedGravitation.MutualSphericalHarmonicsModel mm
       /\ pointee w e = Some eb /\ pointee w p = Some pb
       /\ asSphericalHarmonicsGravityField (gravityFieldModel eb) = Some fe
       /\ asSphericalHarmonicsGravityField (gravityFieldModel pb) = Some fp
       /\ RevisedGravitation.asMutualSphericalHarmonicAccelerationSettings s = Some ms
       /\ RevisedGravitation.mutual_positionOfBodySubjectToAcceleration mm = p
       /\ RevisedGravitation.mutual_positionOfBodyExertingAcceleration mm = e
       /\ RevisedGravitation.gravityFieldOfBodyExertingAcceleration mm = fe
       /\ RevisedGravitation.gravityFieldOfBodyUndergoingAcceleration mm = fp
       /\ RevisedGravitation.maximumDegreeOfBodyExertingAcceleration mm
          = RevisedGravitation.maximumDegreeOfBodyExertingAcceleration_ ms
       /\ RevisedGravitation.maximumOrderOfBodyExertingAcceleration mm
          = RevisedGravitation.maximumOrderOfBodyExertingAcceleration_ ms
       /\ RevisedGravitation.maximumDegreeOfBodyUndergoingAcceleration mm
          = (if isCentralBody then RevisedGravitation.maximumDegreeOfCentralBody_ ms
             else RevisedGravitation.maximumDegreeOfBodyUndergoingAcceleration_ ms)
       /\ RevisedGravitation.maximumOrderOfBodyUndergoingAcceleration mm
          = (if isCentralBody then RevisedGravitation.maximumOrderOfCentralBody_ ms
             else RevisedGravitation.maximumOrderOfBodyUndergoingAcceleration_ ms)
       /\ RevisedGravitation.useCentralBodyFixedFrame mm
          = (if String.eqb cn en && RevisedGravitation.isNotNull p then true else false)
       /\ RevisedGravitation.mutual_gravitationalParameterFunction mm
          = (if (if String.eqb cn en && RevisedGravitation.isNotNull p then true else false)
             then fun _ : unit =>
                    evaluateDoubleFunctions
                      (fun _ : unit => sh_gravitationalParameter fe)
                      (fun _ : unit => sh_gravitationalParameter fp)
             else fun _ : unit => sh_gravitationalParameter fe).
Proof.
  intros Ht. unfold RevisedGravitation.createDirectGravitationalAcceleration. rewrite Ht.
  unfold bind, ret.
  destruct (RevisedGravitation.createMutualSphericalHarmonicsGravityAcceleration p e pn en s _ _ w)
    as [mm w1|x w1] eqn:E; [|discriminate].
  intros H. injection H as <- <-.
  destruct (mutual_inv _ _ _ _ _ _ _ _ _ _ E)
    as (eb & pb & fe & fp & ms & He & Hp & Hfe & Hfp & Hs & -> & H1 & H2 & H3 & H4
        & H5 & H6 & H7 & H8 & H9 & H10).
  split; [reflexivity|]. exists mm, eb, pb, fe, fp, ms. repeat split; assumption.
Qed.

(** X21: the third-body builder of the later revision handles all three
    gravity families.  For an exerting body whose name is not empty, a
    model it returns has two legs built for the same exerting body without
    the summed gravitational parameter: the first for the undergoing body,
    the second for the central body, with the same gravitational parameter
    function (and, for spherical harmonics, the same field, degree and
    order).  For mutual spherical harmonics the leg of the undergoing body
    uses the degree and order given for the undergoing body and the leg of
    the central body those given for the central body.  Three models are
    constructed in all. *)
Theorem later_third_body_legs
    (platform : Platform) (w w' : World) (u e c : BodyPtr) (un en cn : string)
    (s : RevisedGravitation.Settings) (m : RevisedGravitation.AccelerationModel)
    (Hrun : RevisedGravitation.createThirdBodyGravitationalAcceleration platform u e c un en cn s w
            = Returned m w')
    (Hen : en <> "") :
  w' = recordConstruction (recordConstruction (recordConstruction w))
  /\ match m with
     | RevisedGravitation.ThirdBodyCentralGravityModel t =>
         RevisedGravitation.centralBodyName t = cn
         /\ exists m1 m2,
              RevisedGravitation.accelerationModelForBodyUndergoingAcceleration t = Some m1
              /\ RevisedGravitation.accelerationModelForCentralBody t = Some m2
              /\ RevisedGravitation.positionOfBodySubjectToAcceleration m1 = u
              /\ RevisedGravitation.positionOfBodySubjectToAcceleration m2 = c
              /\ RevisedGravitation.positionOfBodyExertingAcceleration m1 = e
              /\ RevisedGravitation.positionOfBodyExertingAcceleration m2 = e
              /\ RevisedGravitation.isMutualAttractionUsed m1 = false
              /\ RevisedGravitation.isMutualAttractionUsed m2 = false
              /\ RevisedGravitation.gravitationalParameterFunction m1
                 = RevisedGravitation.gravitationalParameterFunction m2
     | RevisedGravitation.ThirdBodySphericalHarmonicsModel t =>
         RevisedGravitation.centralBodyName t = cn
         /\ exists m1 m2,
              RevisedGravitation.accelerationModelForBodyUndergoingAcceleration t = Some m1
              /\ RevisedGravitation.accelerationModelForCentralBody t = Some m2
              /\ Revised.positionOfBodySubjectToAcceleration m1 = u
              /\ Revised.positionOfBodySubjectToAcceleration m2 = c
              /\ Revised.positionOfBodyExertingAcceleration m1 = e
              /\ Revised.positionOfBodyExertingAcceleration m2 = e
              /\ Revised.isMutualAttractionUsed m1 = false
              /\ Revised.isMutualAttractionUsed m2 = false
              /\ Revised.gravitationalParameterFunction m1
                 = Revised.gravitationalParameterFunction m2
              /\ Revised.gravityField m1 = Revised.gravityField m2
              /\ Revised.maximumDegree m1 = Revised.maximumDegree m2
              /\ Revised.maximumOrder m1 = Revised.maximumOrder m2
     | RevisedGravitation.ThirdBodyMutualSphericalHarmonicsModel t =>
         RevisedGravitation.centralBodyName t = cn
         /\ exists m1 m2 ms,
              RevisedGravitation.asMutualSphericalHarmonicAccelerationSettings s = Some ms
              /\ RevisedGravitation.accelerationModelForBodyUndergoingAcceleration t = Some m1
              /\ RevisedGravitation.accelerationModelForCentralBody t = Some m2
              /\ RevisedGravitation.mutual_positionOfBodySubjectToAcceleration m1 = u
              /\ RevisedGravitation.mutual_positionOfBodySubjectToAcceleration m2 = c
              /\ RevisedGravitation.mutual_positionOfBodyExertingAcceleration m1 = e
              /\ RevisedGravitation.mutual_positionOfBodyExertingAcceleration m2 = e
              /\ RevisedGravitation.useCentralBodyFixedFrame m1 = false
              /\ RevisedGravitation.useCentralBodyFixedFrame m2 = false
              /\ RevisedGravitation.mutual_gravitationalParameterFunction m1
                 = RevisedGravitation.mutual_gravitationalParameterFunction m2
              /\ RevisedGravitation.gravityFieldOfBodyExertingAcceleration m1
                 = RevisedGravitation.gravityFieldOfBodyExertingAcceleration m2
              /\ RevisedGravitation.maximumDegreeOfBodyUndergoingAcceleration m1
                 = RevisedGravitation.maximumDegreeOfBodyUndergoingAcceleration_ ms
              /\ RevisedGravitation.maximumOrderOfBodyUndergoingAcceleration m1
                 = RevisedGravitation.maximumOrderOfBodyUndergoingAcceleration_ ms
              /\ RevisedGravitation.maximumDegreeOfBodyUndergoingAcceleration m2
                 = RevisedGravitation.maximumDegreeOfCentralBody_ ms
              /\ RevisedGravitation.maximumOrderOfBodyUndergoingAcceleration m2
                 = RevisedGravitation.maximumOrderOfCentralBody_ ms
     | _ => False
     end.
Proof.
  unfold RevisedGravitation.createThirdBodyGravitationalAcceleration, bind, ret, throw in Hrun.
  destruct (RevisedGravitation.accelerationType_ s) eqn:Ht; try discriminate Hrun.
  - destruct (RevisedGravitation.buildLegs platform RevisedGravitation.asCentralGravitationalAccelerationModel3d _ _ cn w)
      as [t w1|x w1] eqn:Hl; [|discriminate Hrun].
    injection Hrun as <- <-.
    apply (buildLegs_legs platform _ _ _ cn w w1 t
                (fun m => exists mc eb g,
                     m = RevisedGravitation.CentralGravityModel mc
                     /\ pointee w e = Some eb /\ gravityFieldModel eb = Some g
                     /\ RevisedGravitation.positionOfBodySubjectToAcceleration mc = u
                     /\ RevisedGravitation.positionOfBodyExertingAcceleration mc = e
                     /\ RevisedGravitation.isMutualAttractionUsed mc = false
                     /\ RevisedGravitation.gravitationalParameterFunction mc
                        = fun _ : unit => getGravitationalParameter g)
                (fun m => exists mc eb g,
                     m = RevisedGravitation.CentralGravityModel mc
                     /\ pointee w e = Some eb /\ gravityFieldModel eb = Some g
                     /\ RevisedGravitation.positionOfBodySubjectToAcceleration mc = c
                     /\ RevisedGravitation.positionOfBodyExertingAcceleration mc = e
                     /\ RevisedGravitation.isMutualAttractionUsed mc = false
                     /\ RevisedGravitation.gravitationalParameterFunction mc
                        = fun _ : unit => getGravitationalParameter g)) in Hl;
      [destruct Hl as (m1 & m2 & E1 & E2 & En & HP1 & HP2 & Hw)| |].
    + destruct HP1 as (mc1 & eb1 & g1 & -> & He1 & Hg1 & A1 & A2 & A3 & A4).
      destruct HP2 as (mc2 & eb2 & g2 & -> & He2 & Hg2 & B1 & B2 & B3 & B4).
      rewrite He1 in He2. injection He2 as <-. rewrite Hg1 in Hg2.
      injection Hg2 as <-.
      split; [exact Hw|]. split; [exact En|]. exists mc1, mc2.
      repeat split; try assumption. now rewrite A4, B4.
    + intros wx m0 wy Hp Hleg.
      destruct (direct_central_inv _ _ _ _ _ _ _ _ _ _ _ Ht Hleg)
        as (-> & mc & eb & g & -> & He & Hg & H1 & H2 & H3 & H4).
      rewrite (later_sum_flag_off en u Hen) in H3, H4. rewrite Hp in He.
      split; [reflexivity|]. exists mc, eb, g. repeat split; auto.
    + intros wx m0 wy Hp Hleg.
      destruct (direct_central_inv _ _ _ _ _ _ _ _ _ _ _ Ht Hleg)
        as (-> & mc & eb & g & -> & He & Hg & H1 & H2 & H3 & H4).
      rewrite (later_sum_flag_off en c Hen) in H3, H4. rewrite Hp in He.
      split; [reflexivity|]. exists mc, eb, g. repeat split; auto.
  - destruct (RevisedGravitation.buildLegs platform
                RevisedGravitation.asSphericalHarmonicsGravitationalAccelerationModel _ _ cn w)
      as [t w1|x w1] eqn:Hl; [|discriminate Hrun].
    injection Hrun as <- <-.
    apply (buildLegs_legs platform _ _ _ cn w w1 t
                (fun m => exists ms eb f d o,
                     m = RevisedGravitation.SphericalHarmonicsModel ms
                     /\ pointee w e = Some eb
                     /\ asSphericalHarmonicsGravityField (gravityFieldModel eb) = Some f
                     /\ asSphericalHarmonicAccelerationSettings
                          (RevisedGravitation.asEarlierClassSettings s) = Some (d, o)
                     /\ Revised.positionOfBodySubjectToAcceleration ms = u
                     /\ Revised.positionOfBodyExertingAcceleration ms = e
                     /\ Revised.gravityField ms = f
                     /\ Revised.maximumDegree ms = d /\ Revised.maximumOrder ms = o
                     /\ Revised.isMutualAttractionUsed ms = false
                     /\ Revised.gravitationalParameterFunction ms
                        = fun _ : unit => sh_gravitationalParameter f)
                (fun m => exists ms eb f d o,
                     m = RevisedGravitation.SphericalHarmonicsModel ms
                     /\ pointee w e = Some eb
                     /\ asSphericalHarmonicsGravityField (gravityFieldModel eb) = Some f
                     /\ asSphericalHarmonicAccelerationSettings
                          (RevisedGravitation.asEarlierClassSettings s) = Some (d, o)
                     /\ Revised.positionOfBodySubjectToAcceleration ms = c
                     /\ Revised.positionOfBodyExertingAcceleration ms = e
                     /\ Revised.gravityField ms = f
                     /\ Revised.maximumDegree ms = d /\ Revised.maximumOrder ms = o
                     /\ Revised.isMutualAttractionUsed ms = false
                     /\ Revised.gravitationalParameterFunction ms
                        = fun _ : unit => sh_gravitationalParameter f)) in Hl;
      [destruct Hl as (m1 & m2 & E1 & E2 & En & HP1 & HP2 & Hw)| |].
    + destruct HP1 as (ms1 & eb1 & f1 & d1 & o1 & -> & He1 & Hf1 & Hs1
                       & A1 & A2 & A3 & A4 & A5 & A6 & A7).
      destruct HP2 as (ms2 & eb2 & f2 & d2 & o2 & -> & He2 & Hf2 & Hs2
                       & B1 & B2 & B3 & B4 & B5 & B6 & B7).
      rewrite He1 in He2. injection He2 as <-. rewrite Hf1 in Hf2.
      injection Hf2 as <-. rewrite Hs1 in Hs2. injection Hs2 as <- <-.
      split; [exact Hw|]. split; [exact En|]. exists ms1, ms2.
      repeat split; try assumption; congruence.
    + intros wx m0 wy Hp Hleg.
      destruct (direct_spherical_harmonics_inv _ _ _ _ _ _ _ _ _ _ _ Ht Hleg)
        as (-> & ms & eb & f & d & o & -> & He & Hf & Hs & H1 & H2 & H3 & H4 & H5
            & H6 & H7).
      rewrite (later_sum_flag_off en u Hen) in H6, H7. rewrite Hp in He.
      split; [reflexivity|]. exists ms, eb, f, d, o. repeat split; auto.
    + intros wx m0 wy Hp Hleg.
      destruct (direct_spherical_harmonics_inv _ _ _ _ _ _ _ _ _ _ _ Ht Hleg)
        as (-> & ms & eb & f & d & o & -> & He & Hf & Hs & H1 & H2 & H3 & H4 & H5
            & H6 & H7).
      rewrite (later_sum_flag_off en c Hen) in H6, H7. rewrite Hp in He.
      split; [reflexivity|]. exists ms, eb, f, d, o. repeat split; auto.
  - destruct (RevisedGravitation.buildLegs platform
                RevisedGravitation.asMutualSphericalHarmonicsGravitationalAccelerationModel _ _ cn w)
      as [t w1|x w1] eqn:Hl; [|discriminate Hrun].
    injection Hrun as <- <-.
    apply (buildLegs_legs platform _ _ _ cn w w1 t
                (fun m => exists mm eb fe ms,
                     m = RevisedGravitation.MutualSphericalHarmonicsModel mm
                     /\ pointee w e = Some eb
                     /\ asSphericalHarmonicsGravityField (gravityFieldModel eb) = Some fe
                     /\ RevisedGravitation.asMutualSphericalHarmonicAccelerationSettings s = Some ms
                     /\ RevisedGravitation.mutual_positionOfBodySubjectToAcceleration mm = u
                     /\ RevisedGravitation.mutual_positionOfBodyExertingAcceleration mm = e
                     /\ RevisedGravitation.gravityFieldOfBodyExertingAcceleration mm = fe
                     /\ RevisedGravitation.maximumDegreeOfBodyUndergoingAcceleration mm
                        = RevisedGravitation.maximumDegreeOfBodyUndergoingAcceleration_ ms
                     /\ RevisedGravitation.maximumOrderOfBodyUndergoingAcceleration mm
                        = RevisedGravitation.maximumOrderOfBodyUndergoingAcceleration_ ms
                     /\ RevisedGravitation.useCentralBodyFixedFrame mm = false
                     /\ RevisedGravitation.mutual_gravitationalParameterFunction mm
                        = fun _ : unit => sh_gravitationalParameter fe)
                (fun m => exists mm eb fe ms,
                     m = RevisedGravitation.MutualSphericalHarmonicsModel mm
                     /\ pointee w e = Some eb
                     /\ asSphericalHarmonicsGravityField (gravityFieldModel eb) = Some fe
                     /\ RevisedGravitation.asMutualSphericalHarmonicAccelerationSettings s = Some ms
                     /\ RevisedGravitation.mutual_positionOfBodySubjectToAcceleration mm = c
                     /\ RevisedGravitation.mutual_positionOfBodyExertingAcceleration mm = e
                     /\ RevisedGravitation.gravityFieldOfBodyExertingAcceleration mm = fe
                     /\ RevisedGravitation.maximumDegreeOfBodyUndergoingAcceleration mm
                        = RevisedGravitation.maximumDegreeOfCentralBody_ ms
                     /\ RevisedGravitation.maximumOrderOfBodyUndergoingAcceleration mm
                        = RevisedGravitation.maximumOrderOfCentralBody_ ms
                     /\ RevisedGravitation.useCentralBodyFixedFrame mm = false
                     /\ RevisedGravitation.mutual_gravitationalParameterFunction mm
                        = fun _ : unit => sh_gravitationalParameter fe)) in Hl;
      [destruct Hl as (m1 & m2 & E1 & E2 & En & HP1 & HP2 & Hw)| |].
    + destruct HP1 as (mm1 & eb1 & fe1 & ms1 & -> & He1 & Hf1 & Hs1
                       & A1 & A2 & A3 & A4 & A5 & A6 & A7).
      destruct HP2 as (mm2 & eb2 & fe2 & ms2 & -> & He2 & Hf2 & Hs2
                       & B1 & B2 & B3 & B4 & B5 & B6 & B7).
      rewrite He1 in He2. injection He2 as <-. rewrite Hf1 in Hf2.
      injection Hf2 as <-. rewrite Hs1 in Hs2. injection Hs2 as <-.
      split; [exact Hw|]. split; [exact En|]. exists mm1, mm2, ms1.
      repeat split; try assumption; congruence.
    + intros wx m0 wy Hp Hleg.
      destruct (direct_mutual_inv _ _ _ _ _ _ _ _ _ _ _ Ht Hleg)
        as (-> & mm & eb & pb & fe & fp & ms & -> & He & Hpb & Hfe & Hfp & Hs
            & H1 & H2 & H3 & H4 & H5 & H6 & H7 & H8 & H9 & H10).
      rewrite (later_sum_flag_off en u Hen) in H9, H10. rewrite Hp in He.
      split; [reflexivity|]. exists mm, eb, fe, ms. repeat split; auto.
    + intros wx m0 wy Hp Hleg.
      destruct (direct_mutual_inv _ _ _ _ _ _ _ _ _ _ _ Ht Hleg)
        as (-> & mm & eb & pb & fe & fp & ms & -> & He & Hpb & Hfe & Hfp & Hs
            & H1 & H2 & H3 & H4 & H5 & H6 & H7 & H8 & H9 & H10).
      rewrite (later_sum_flag_off en c Hen) in H9, H10. rewrite Hp in He.
      split; [reflexivity|]. exists mm, eb, fe, ms. repeat split; auto.
Qed.

(** X22: for a central-gravity entry, a non-null undergoing body and an
    exerting body whose name is not empty, and with the frame classifier
    of the later revision taken to be [isFrameInertial] of the earlier
    one, the dispatcher of the earlier revision and
    [createGravitationalAccelerationModel] of the later one agree: both throw the same exception, or both return a model of the
    same form (direct or third-body) with the same positions and the same
    gravitational parameter functions, after the same number of
    constructions.  They differ for a null undergoing body whose central
    body is the exerting body: the earlier revision dereferences the null
    pointer, the later one returns the model with the exerting body's
    parameter alone. *)
Theorem later_central_gravity_dispatch_agrees_with_earlier
    (platform : Platform) (w : World) (u e c : BodyPtr)
    (s : AccelerationSettings) (un en cn : string)
    (Ht : accelerationType_ s = central_gravity) :
  (u <> None -> en <> "" ->
   sameCentralGravityOutcome
     (createAccelerationModel platform u e s un en c cn w)
     (RevisedGravitation.createGravitationalAccelerationModel platform isFrameInertial
        u e (RevisedGravitation.EarlierClassSettings s) un en c cn w))
  /\ (u = None -> cn = en ->
      forall eb g,
        pointee w e = Some eb -> gravityFieldModel eb = Some g ->
        createAccelerationModel platform u e s un en c cn w
          = Thrown invalid_dereference w
        /\ RevisedGravitation.createGravitationalAccelerationModel platform isFrameInertial
             u e (RevisedGravitation.EarlierClassSettings s) un en c cn w
           = Returned
               (RevisedGravitation.CentralGravityModel
                  {| RevisedGravitation.positionOfBodySubjectToAcceleration := None;
                     RevisedGravitation.gravitationalParameterFunction :=
                       fun _ : unit => getGravitationalParameter g;
                     RevisedGravitation.positionOfBodyExertingAcceleration := e;
                     RevisedGravitation.isMutualAttractionUsed := false |})
               (recordConstruction w)).
Proof.
  split.
  - intros Hu Hen. now apply later_central_gravity_agrees.
  - intros -> -> eb g He Hg.
    assert (Ht' : RevisedGravitation.accelerationType_ (RevisedGravitation.EarlierClassSettings s) = central_gravity)
      by exact Ht.
    unfold createAccelerationModel, RevisedGravitation.createGravitationalAccelerationModel.
    rewrite Ht', Ht. cbn [AvailableAcceleration_eqb negb andb].
    rewrite String.eqb_refl. cbn [orb]. split.
    + unfold createCentralGravityAcceleratioModel, bind.
      rewrite (deref_pointee _ _ _ He), Hg. reflexivity.
    + rewrite (direct_central_leg platform w None e un en en _ false Ht').
      rewrite String.eqb_refl. cbn [RevisedGravitation.isNotNull andb].
      rewrite (central_flag_off w None e un en eb g He Hg). reflexivity.
Qed.

(** X23: [createMutualSphericalHarmonicsGravityAcceleration] returns
    exactly when the settings are of the mutual class and both the
    exerting and the undergoing body exist and own a spherical-harmonics
    field.  The model takes the degree and order of the exerting body from
    the settings, and for the undergoing body the pair given for the
    central body when the accelerated body is the central body, else the
    pair given for the undergoing body.  The field of the exerting body is
    checked first. *)
Theorem mutual_builder_returns_exactly_when
    (w : World) (p e : BodyPtr) (pn en : string) (s : RevisedGravitation.Settings)
    (flag isCentralBody : bool) :
  (hasReturned
     (RevisedGravitation.createMutualSphericalHarmonicsGravityAcceleration
        p e pn en s flag isCentralBody w) = true
   <-> is_Some (RevisedGravitation.asMutualSphericalHarmonicAccelerationSettings s)
       /\ (exists eb, pointee w e = Some eb
                      /\ is_Some (asSphericalHarmonicsGravityField
                                    (gravityFieldModel eb)))
       /\ (exists pb, pointee w p = Some pb
                      /\ is_Some (asSphericalHarmonicsGravityField
                                    (gravityFieldModel pb))))
  /\ (forall m w',
        RevisedGravitation.createMutualSphericalHarmonicsGravityAcceleration
          p e pn en s flag isCentralBody w = Returned m w' ->
        exists ms,
          RevisedGravitation.asMutualSphericalHarmonicAccelerationSettings s = Some ms
          /\ RevisedGravitation.maximumDegreeOfBodyExertingAcceleration m
             = RevisedGravitation.maximumDegreeOfBodyExertingAcceleration_ ms
          /\ RevisedGravitation.maximumOrderOfBodyExertingAcceleration m
             = RevisedGravitation.maximumOrderOfBodyExertingAcceleration_ ms
          /\ RevisedGravitation.maximumDegreeOfBodyUndergoingAcceleration m
             = (if isCentralBody then RevisedGravitation.maximumDegreeOfCentralBody_ ms
                else RevisedGravitation.maximumDegreeOfBodyUndergoingAcceleration_ ms)
          /\ RevisedGravitation.maximumOrderOfBodyUndergoingAcceleration m
             = (if isCentralBody then RevisedGravitation.maximumOrderOfCentralBody_ ms
                else RevisedGravitation.maximumOrderOfBodyUndergoingAcceleration_ ms))
  /\ (forall eb pb,
        is_Some (RevisedGravitation.asMutualSphericalHarmonicAccelerationSettings s) ->
        pointee w e = Some eb -> pointee w p = Some pb ->
        asSphericalHarmonicsGravityField (gravityFieldModel eb) = None ->
        RevisedGravitation.createMutualSphericalHarmonicsGravityAcceleration
          p e pn en s flag isCentralBody w
        = Thrown (runtime_error MissingCapabilityError
                    ("Error " +:+ en +:+
                     " does not have a spherical harmonics gravity field " +:+
                     "when making mutual spherical harmonics gravity acceleration on " +:+
                     pn)) w).
Proof.
  split; [|split].
  - split.
    + intros Hret.
      destruct (RevisedGravitation.createMutualSphericalHarmonicsGravityAcceleration
                  p e pn en s flag isCentralBody w) as [m w'|x w'] eqn:E;
        [|discriminate Hret].
      destruct (mutual_inv _ _ _ _ _ _ _ _ _ _ E)
        as (eb & pb & fe & fp & ms & He & Hp & Hfe & Hfp & Hs & _).
      split; [now exists ms|].
      split; [exists eb; split; [exact He|now exists fe]|].
      exists pb. split; [exact Hp|now exists fp].
    + intros ([ms Hs] & (eb & He & [fe Hfe]) & (pb & Hp & [fp Hfp])).
      unfold RevisedGravitation.createMutualSphericalHarmonicsGravityAcceleration, bind, deref.
      rewrite Hs, He, Hp, Hfe, Hfp.
      destruct (negb isCentralBody); reflexivity.
  - intros m w' E.
    destruct (mutual_inv _ _ _ _ _ _ _ _ _ _ E)
      as (eb & pb & fe & fp & ms & _ & _ & _ & _ & Hs & _ & _ & _ & _ & _
          & H1 & H2 & H3 & H4 & _).
    exists ms. repeat split; assumption.
  - intros eb pb [ms Hs] He Hp Hfe.
    unfold RevisedGravitation.createMutualSphericalHarmonicsGravityAcceleration, bind, deref.
    rewrite Hs, He, Hp, Hfe. reflexivity.
Qed.

(** The spherical-harmonic gravity of the Earth on the Satellite, about
    the Moon: the later revision builds the third-body model. *)
Lemma later_third_body_legs_witness :
  exists m w',
    RevisedGravitation.createThirdBodyGravitationalAcceleration (Scenario.platform LeftToRight)
      Scenario.pSatellite Scenario.pEarth Scenario.pMoon "Satellite" "Earth" "Moon"
      (RevisedGravitation.EarlierClassSettings (SphericalHarmonicAccelerationSettings 4 4))
      Scenario.world = Returned m w'
    /\ w' = recordConstruction (recordConstruction (recordConstruction Scenario.world)).
Proof.
  destruct (RevisedGravitation.createThirdBodyGravitationalAcceleration (Scenario.platform LeftToRight)
              Scenario.pSatellite Scenario.pEarth Scenario.pMoon
              "Satellite" "Earth" "Moon"
              (RevisedGravitation.EarlierClassSettings (SphericalHarmonicAccelerationSettings 4 4))
              Scenario.world) as [m w'|x w'] eqn:E.
  2:{ vm_compute in E. discriminate E. }
  exists m, w'. split; [reflexivity|].
  apply (later_third_body_legs (Scenario.platform LeftToRight) Scenario.world w'
           Scenario.pSatellite Scenario.pEarth Scenario.pMoon
           "Satellite" "Earth" "Moon"
           (RevisedGravitation.EarlierClassSettings (SphericalHarmonicAccelerationSettings 4 4)) m E).
  discriminate.
Defined.

(** The central gravity of the Moon on the Satellite, about the Earth. *)
Lemma later_central_gravity_agrees_witness :
  sameCentralGravityOutcome
    (createAccelerationModel (Scenario.platform LeftToRight)
       Scenario.pSatellite Scenario.pMoon (BaseAccelerationSettings central_gravity)
       "Satellite" "Moon" Scenario.pEarth "Earth" Scenario.world)
    (RevisedGravitation.createGravitationalAccelerationModel (Scenario.platform LeftToRight)
       isFrameInertial Scenario.pSatellite Scenario.pMoon
       (RevisedGravitation.EarlierClassSettings (BaseAccelerationSettings central_gravity))
       "Satellite" "Moon" Scenario.pEarth "Earth" Scenario.world).
Proof.
  apply (later_central_gravity_dispatch_agrees_with_earlier
           (Scenario.platform LeftToRight) Scenario.world
           Scenario.pSatellite Scenario.pMoon Scenario.pEarth
           (BaseAccelerationSettings central_gravity) "Satellite" "Moon" "Earth"
           eq_refl); discriminate.
Defined.
